(** * Renderscript: render-task orchestration and browser-pool lifecycle

A shallow embedding of the task state machines ([PageTask.process],
[Renderer._processPage]), the request interception pipeline
([BrowserPage.#updateContext], [Renderer._defineRequestContextForPage]),
the rolling pool ([RollingRenderer]) and the two revisions of
[TasksManager], followed by the properties established about them.

Asynchronous code is embedded in direct style: every [await] on the
browser, the clock or another collaborator takes its outcome from an
environment record (one field per suspension point, named after the
source line it stands for), and every call that leaves the process is
appended to a trace of effects. *)

From Stdlib Require Import ZArith String List Lia Bool.
From stdpp Require Import base strings gmap list.

Local Open Scope string_scope.
Local Open Scope Z_scope.

(** ** JavaScript values shared by all components *)

(** A thrown value: [err.message] and the optional [err.timeout] carried by
    [FetchError]. *)
Record JsError := mkError {
  message : string;
  err_timeout : option bool;
}.

Definition Error (msg : string) : JsError := mkError msg None.

(** How an awaited promise settles. *)
Inductive settled (A : Type) : Type :=
| Fulfilled (a : A)
| RejectedWith (e : JsError).
Arguments Fulfilled {A} a.
Arguments RejectedWith {A} e.

(** [hay.includes(needle)], also the meaning of [hay.match(/needle/)] for a
    pattern without metacharacters. *)
Fixpoint includes (needle hay : string) : bool :=
  if String.prefix needle hay then true
  else match hay with
       | EmptyString => false
       | String _ rest => includes needle rest
       end.

(** [Boolean(x)] on an optional boolean. *)
Definition Boolean (x : option bool) : bool :=
  match x with Some b => b | None => false end.

(** Truthiness of an optional number: [undefined] and [0] are falsy. *)
Definition truthy (x : option Z) : bool :=
  match x with Some n => negb (n =? 0) | None => false end.

Definition is_some {A} (x : option A) : bool :=
  match x with Some _ => true | None => false end.

(** ** Asynchronous code in direct style

[M S A]: a computation over a state [S] that either fulfils with an [A]
or rejects; a rejection skips the rest of the block, like a [throw]. *)

Definition M (S A : Type) : Type := S -> settled A * S.

Definition ret {S A} (a : A) : M S A := fun s => (Fulfilled a, s).

Definition throw {S A} (e : JsError) : M S A := fun s => (RejectedWith e, s).

Definition bind {S A B} (m : M S A) (k : A -> M S B) : M S B :=
  fun s => match m s with
           | (Fulfilled a, s') => k a s'
           | (RejectedWith e, s') => (RejectedWith e, s')
           end.

(** [try { m } catch (e) { h e }] *)
Definition try_catch {S A} (m : M S A) (h : JsError -> M S A) : M S A :=
  fun s => match m s with
           | (Fulfilled a, s') => (Fulfilled a, s')
           | (RejectedWith e, s') => h e s'
           end.

(** [try { m } finally { f }]: the outcome of [m] unless [f] rejects. *)
Definition try_finally {S A} (m : M S A) (f : M S unit) : M S A :=
  fun s => match m s with
           | (r, s') => match f s' with
                        | (Fulfilled _, s'') => (r, s'')
                        | (RejectedWith e, s'') => (RejectedWith e, s'')
                        end
           end.

Declare Scope async_scope.
Delimit Scope async_scope with async.
Notation "x <- m ;; k" := (bind m (fun x => k))
  (at level 100, m at next level, k at level 200, right associativity)
  : async_scope.
Notation "m ;;; k" := (bind m (fun _ => k))
  (at level 100, k at level 200, right associativity) : async_scope.
Local Open Scope async_scope.

(** ** lib/tasks/Page.ts *)

Module PageTask.

Record URL := {
  href : string;
  protocol : string;
  host : string;
}.

Record HTTPResponse := {
  status : Z;
  headers : list (string * string);
}.

Record WaitTime := {
  min : option Z;
  max : option Z;
}.

Record RenderTaskParams := {
  url : URL;
  waitTime : WaitTime;
}.

(** The object literal assigned to [this._results]; an absent key is
    [None]. *)
Record TaskResult := {
  statusCode : option Z;
  res_headers : option (list (string * string));
  body : option string;
  resolvedUrl : option string;
  error : option string;
  timeout : option bool;
}.

Record Metrics := {
  m_goto : option Z;
  m_minWait : option Z;
  m_serialize : option Z;
  m_total : option Z;
}.

(** The mutable fields of the task object. *)
Record Task := {
  _results : option TaskResult;
  _metrics : Metrics;
}.

Definition new_Task : Task :=
  {| _results := None;
     _metrics := {| m_goto := None; m_minWait := None;
                    m_serialize := None; m_total := None |} |}.

(** Calls that leave the task, in program order. *)
Inductive Effect :=
| EvGoto (u : URL) (maxWait : option Z)
| EvInjectBaseHref (baseHref : string)
| EvWaitForTimeout (ms : Z)
| EvDebugger
| EvEvaluate (expr : string)
| EvStatsTiming (name : string) (ms : Z)
| EvContextClose.

(** One field per [Date.now()] read and per [await] of [process]. *)
Record Env := {
  now_total : Z;                        (* line 30 *)
  now_goto_start : Z;                   (* line 32 *)
  goto : settled HTTPResponse;          (* line 36 *)
  now_goto_end : Z;                     (* line 44 *)
  injectBaseHref : settled unit;        (* line 49 *)
  now_minWait_start : Z;                (* line 51 *)
  now_minWait_check : Z;                (* line 53 *)
  waitForTimeout : settled unit;        (* line 53 *)
  now_minWait_end : Z;                  (* line 55 *)
  now_serialize_start : Z;              (* line 57 *)
  debugger : settled unit;              (* line 62 *)
  preSerializationUrl : settled string; (* line 66 *)
  outerHTML : settled string;           (* line 67 *)
  postSerializationUrl : settled string;(* line 71 *)
  now_serialize_end : Z;                (* line 73 *)
  now_stats : Z;                        (* line 74 *)
  contextClose : settled unit;          (* line 77 *)
  now_total_end : Z;                    (* line 87 *)
}.

(** State threaded through [process]: the task object and the trace. *)
Record St := {
  task : Task;
  trace : list Effect;
}.

Definition emit (ev : Effect) : M St unit :=
  fun s => (Fulfilled tt, {| task := task s; trace := trace s ++ [ev] |}).

(** [await call]: the call is issued, then settles as the environment
    says. *)
Definition await {A} (ev : Effect) (r : settled A) : M St A :=
  fun s => (r, {| task := task s; trace := trace s ++ [ev] |}).

Definition set_results (r : TaskResult) : M St unit :=
  fun s => (Fulfilled tt,
            {| task := {| _results := Some r; _metrics := _metrics (task s) |};
               trace := trace s |}).

Definition upd_metrics (f : Metrics -> Metrics) : M St unit :=
  fun s => (Fulfilled tt,
            {| task := {| _results := _results (task s);
                          _metrics := f (_metrics (task s)) |};
               trace := trace s |}).

Definition set_goto v (m : Metrics) :=
  {| m_goto := Some v; m_minWait := m_minWait m;
     m_serialize := m_serialize m; m_total := m_total m |}.
Definition set_minWait v (m : Metrics) :=
  {| m_goto := m_goto m; m_minWait := Some v;
     m_serialize := m_serialize m; m_total := m_total m |}.
Definition set_serialize v (m : Metrics) :=
  {| m_goto := m_goto m; m_minWait := m_minWait m;
     m_serialize := Some v; m_total := m_total m |}.
Definition set_total v (m : Metrics) :=
  {| m_goto := m_goto m; m_minWait := m_minWait m;
     m_serialize := m_serialize m; m_total := Some v |}.

(** [minWait - (Date.now() - total)] with [minWait] known to be a
    number. *)
Definition remaining (minWait : option Z) (now total : Z) : Z :=
  match minWait with Some w => w - (now - total) | None => 0 end.

Definition process (p : RenderTaskParams) (e : Env) : M St unit :=
  let total := now_total e in
  let minWait := min (waitTime p) in
  let start := now_goto_start e in
  emit (EvGoto (url p) (max (waitTime p))) ;;;
  match goto e with
  | RejectedWith err =>
      set_results {| statusCode := None; res_headers := None; body := None;
                     resolvedUrl := None;
                     error := Some (message err);
                     timeout := Some (Boolean (err_timeout err)) |}
  | Fulfilled response =>
      upd_metrics (set_goto (now_goto_end e - start)) ;;;
      (* Transforming *)
      let statusCode_ := status response in
      let baseHref := (protocol (url p) +:+ "//" +:+ host (url p)) in
      await (EvInjectBaseHref baseHref) (injectBaseHref e) ;;;
      let start := now_minWait_start e in
      (if (statusCode_ =? 200) && truthy minWait
       then await (EvWaitForTimeout
                     (remaining minWait (now_minWait_check e) total))
                  (waitForTimeout e)
       else ret tt) ;;;
      upd_metrics (set_minWait (now_minWait_end e - start)) ;;;
      let start := now_serialize_start e in
      (* Serialize *)
      await EvDebugger (debugger e) ;;;
      preUrl <- await (EvEvaluate "window.location.href")
                      (preSerializationUrl e) ;;
      body_ <- await (EvEvaluate "document.firstElementChild.outerHTML")
                     (outerHTML e) ;;
      let headers_ := headers response in
      resolvedUrl_ <- await (EvEvaluate "window.location.href")
                            (postSerializationUrl e) ;;
      upd_metrics (set_serialize (now_serialize_end e - start)) ;;;
      emit (EvStatsTiming "renderscript.page.serialize"
                          (now_stats e - start)) ;;;
      (* Cleanup *)
      await EvContextClose (contextClose e) ;;;
      if negb (String.eqb preUrl resolvedUrl_)
      then
        set_results {| statusCode := None; res_headers := None;
                       body := None; resolvedUrl := None;
                       error := Some "unsafe_redirect";
                       timeout := None |}
      else
        upd_metrics (set_total (now_total_end e - total)) ;;;
        set_results {| statusCode := Some statusCode_;
                       res_headers := Some headers_;
                       body := Some body_;
                       resolvedUrl := Some resolvedUrl_;
                       error := None; timeout := None |}
  end.

(** Running [process] on a fresh task. *)
Definition run (p : RenderTaskParams) (e : Env) : settled unit * St :=
  process p e {| task := new_Task; trace := [] |}.

Definition results (p : RenderTaskParams) (e : Env) : option TaskResult :=
  _results (task (snd (run p e))).


End PageTask.

(** ** lib/Renderer.ts *)

Module Renderer.

Record URL := {
  href : string;
  protocol : string;
  host : string;
}.

Record Response := {
  status : Z;
  headers : gmap string string;
}.

Record TaskParams := {
  url : URL;
  headersToForward : gmap string string;
}.

Record TaskResult := {
  statusCode : option Z;
  body : option string;
  res_headers : option (gmap string string);
  timeout : option bool;
  error : option string;
  resolvedUrl : option string;
}.

Definition IGNORED_RESOURCES : list string := ["font"; "image"].
Definition TIMEOUT : Z := 10000.

(** *** The request listener of [_defineRequestContextForPage] *)

Record Request := {
  req_url : string;
  resourceType : string;
  isNavigationRequest : bool;
  req_headers : gmap string string;
}.

Inductive ReqEffect :=
| EvValidateURL (u : string) (ipPrefixes : list string)
| EvAbort
| EvContinue (overrides : option (gmap string string)).

(** What the collaborators answer while one request is handled. *)
Record ReqEnv := {
  validateURL : settled unit;    (* line 214 *)
  abort_awaited : settled unit;  (* line 227 *)
  continue_awaited : settled unit; (* lines 244, 250 *)
}.

Definition req_emit (ev : ReqEffect) : M (list ReqEffect) unit :=
  fun tr => (Fulfilled tt, (tr ++ [ev])%list).

Definition req_await {A} (ev : ReqEffect) (r : settled A)
  : M (list ReqEffect) A :=
  fun tr => (r, (tr ++ [ev])%list).

(** [{ ...headers, ...headersToForward }]: the forwarded headers win. *)
Definition spread (headers forwarded : gmap string string)
  : gmap string string := forwarded ∪ headers.

Section Listener.
  Variable RESTRICTED_IPS : list string.

Definition onRequest (headersToForward : gmap string string)
        (req : Request) (e : ReqEnv) : M (list ReqEffect) unit :=
      (* check for ssrf attempts *)
      try_catch
        (req_await (EvValidateURL (req_url req) RESTRICTED_IPS) (validateURL e))
        (fun _ => req_emit EvAbort) ;;;
      try_catch
        (if bool_decide (resourceType req ∈ IGNORED_RESOURCES)
         then req_await EvAbort (abort_awaited e)
         else if isNavigationRequest req
         then req_await
                (EvContinue (Some (spread (req_headers req) headersToForward)))
                (continue_awaited e)
         else req_await (EvContinue None) (continue_awaited e))
        (fun err =>
           if negb (includes "Request is already handled" (message err))
           then throw err
           else ret tt).
End Listener.

(** The first [abort] or [continue] issued on a request settles it. *)
Inductive Verdict := Aborted | Continued.

Fixpoint verdict (tr : list ReqEffect) : option Verdict :=
  match tr with
  | [] => None
  | EvAbort :: _ => Some Aborted
  | EvContinue _ :: _ => Some Continued
  | _ :: rest => verdict rest
  end.

(** *** [_processPage] *)

Inductive Effect :=
| EvNewPage
| EvDefineRequestContext
| EvGoto (href : string) (timeout : Z)
| EvInjectBaseHref (baseHref : string)
| EvDebugger
| EvEvaluate (expr : string)
| EvContextClose.

Record Env := {
  newPage : settled unit;                 (* line 291 *)
  defineRequestContext : settled unit;    (* line 293 *)
  (* lines 297-299: the first 'response' event emitted while the
     navigation of line 301 is pending, if any *)
  firstResponse : option Response;
  goto : settled (option Response);       (* line 301; may fulfil with null *)
  injectBaseHref : settled unit;          (* line 319 *)
  debugger : settled unit;                (* line 322 *)
  preSerializationUrl : settled string;   (* line 326 *)
  outerHTML : settled string;             (* line 327 *)
  postSerializationUrl : settled string;  (* line 331 *)
  contextClose : settled unit;            (* line 333 *)
}.

Definition await {A} (ev : Effect) (r : settled A) : M (list Effect) A :=
  fun tr => (r, (tr ++ [ev])%list).

Definition error_only (msg : string) : TaskResult :=
  {| statusCode := None; body := None; res_headers := None;
     timeout := None; error := Some msg; resolvedUrl := None |}.

Definition _processPage (task : TaskParams) (e : Env)
  : M (list Effect) TaskResult :=
  (* Setup *)
  await EvNewPage (newPage e) ;;;
  await EvDefineRequestContext (defineRequestContext e) ;;;
  (* the two locals [response] and [timeout] after the try/catch *)
  nav <- (fun tr =>
            (Fulfilled
               match goto e with
               | Fulfilled r => (r, false)
               | RejectedWith err =>
                   (firstResponse e,
                    includes "Navigation Timeout Exceeded" (message err))
               end,
             (tr ++ [EvGoto (href (url task)) TIMEOUT])%list)) ;;
  let '(response, timeout_) := nav in
  (* Fetch errors *)
  match response with
  | None => ret (error_only "no_response")
  | Some response =>
      (* Transforming *)
      let statusCode_ := status response in
      let baseHref := (protocol (url task) +:+ "//" +:+ host (url task)) in
      await (EvInjectBaseHref baseHref) (injectBaseHref e) ;;;
      (* Serialize *)
      await EvDebugger (debugger e) ;;;
      preUrl <- await (EvEvaluate "window.location.href")
                      (preSerializationUrl e) ;;
      body_ <- await (EvEvaluate "document.firstElementChild.outerHTML")
                     (outerHTML e) ;;
      let headers_ := headers response in
      resolvedUrl_ <- await (EvEvaluate "window.location.href")
                            (postSerializationUrl e) ;;
      (* Cleanup *)
      await EvContextClose (contextClose e) ;;;
      if negb (String.eqb preUrl resolvedUrl_)
      then ret (error_only "unsafe_redirect")
      else ret {| statusCode := Some statusCode_;
                  res_headers := Some headers_;
                  body := Some body_;
                  timeout := Some timeout_;
                  error := None;
                  resolvedUrl := Some resolvedUrl_ |}
  end.

Definition run (task : TaskParams) (e : Env)
  : settled TaskResult * list Effect := _processPage task e [].

(** *** The renderer object *)

(** The fields the pool reads and writes; [_currentTasks] holds the ids
    of the tasks in flight. *)
Record Obj := {
  ready : bool;
  nbTotalTasks : Z;
  _stopping : bool;
  _currentTasks : list string;
}.

(** [new Renderer()] *)
Definition new : Obj :=
  {| ready := false; nbTotalTasks := 0; _stopping := false;
     _currentTasks := [] |}.

Definition set_ready (b : bool) (o : Obj) : Obj :=
  {| ready := b; nbTotalTasks := nbTotalTasks o;
     _stopping := _stopping o; _currentTasks := _currentTasks o |}.
Definition set_stopping (b : bool) (o : Obj) : Obj :=
  {| ready := ready o; nbTotalTasks := nbTotalTasks o;
     _stopping := b; _currentTasks := _currentTasks o |}.
Definition set_currentTasks (l : list string) (o : Obj) : Obj :=
  {| ready := ready o; nbTotalTasks := nbTotalTasks o;
     _stopping := _stopping o; _currentTasks := l |}.
Definition incr_nbTotalTasks (o : Obj) : Obj :=
  {| ready := ready o; nbTotalTasks := nbTotalTasks o + 1;
     _stopping := _stopping o; _currentTasks := _currentTasks o |}.

(** [_removeTask]: [findIndex] then [splice(idx, 1)]. *)
Fixpoint remove_first (id : string) (l : list string) : option (list string) :=
  match l with
  | [] => None
  | x :: rest =>
      if String.eqb id x then Some rest
      else option_map (cons x) (remove_first id rest)
  end.

Definition _removeTask (id : string) (o : Obj) : settled unit * Obj :=
  match remove_first id (_currentTasks o) with
  | None => (RejectedWith (Error "Could not find task"), o)
  | Some l => (Fulfilled tt, set_currentTasks l o)
  end.

(** [task(job)], with [uuid] the id drawn at line 84. *)
Definition task (job : TaskParams) (uuid : string) (e : Env) (o : Obj)
  : settled TaskResult * Obj * list Effect :=
  if _stopping o
  then (RejectedWith (Error "Called task on a stopping Renderer"), o, [])
  else
    let o := incr_nbTotalTasks o in
    let '(res, tr) := run job e in
    let o := set_currentTasks ((_currentTasks o ++ [uuid])%list) o in
    match res with
    | RejectedWith err => (RejectedWith err, o, tr)
    | Fulfilled r =>
        match _removeTask uuid o with
        | (Fulfilled _, o') => (Fulfilled r, o', tr)
        | (RejectedWith err, o') => (RejectedWith err, o', tr)
        end
    end.

(** [healthy()], with the outcome of [browser.version()]. *)
Definition healthy (version : settled unit) (o : Obj) : bool :=
  if _stopping o then false
  else match version with Fulfilled _ => true | RejectedWith _ => false end.

End Renderer.

(** ** lib/RollingRenderer.ts *)

Module RollingRenderer.

(** The private fields. A renderer is referred to by its address in the
    heap; the pending promise of [_previousStopPromise] is named after
    the renderer whose [stop()] it tracks. *)
Record Pool := {
  _stopping : bool;
  _currentRenderer : nat;
  _futureRenderer : option nat;
  _previousStopPromise : option nat;
}.

(** The pool, the renderer objects allocated so far (they are shared
    with the callers that were handed one and with the callbacks of
    their own constructor), and the [Renderer.stop()] calls that have
    begun and have not settled yet. *)
Record World := {
  pool : Pool;
  heap : gmap nat Renderer.Obj;
  stops : list nat;
}.

Definition deref (w : World) (r : nat) : Renderer.Obj :=
  default Renderer.new (heap w !! r).

Definition set_pool (p : Pool) (w : World) : World :=
  {| pool := p; heap := heap w; stops := stops w |}.

(** [new Renderer()]: a fresh object at a fresh address. *)
Definition alloc (w : World) : nat * World :=
  let r := fresh (dom (heap w)) in
  (r, {| pool := pool w; heap := <[r := Renderer.new]> (heap w);
         stops := stops w |}).

(** [constructor()] *)
Definition create : World :=
  let '(r, w) := alloc {| pool := {| _stopping := false;
                                     _currentRenderer := 0%nat;
                                     _futureRenderer := None;
                                     _previousStopPromise := None |};
                          heap := ∅; stops := [] |} in
  set_pool {| _stopping := false; _currentRenderer := r;
              _futureRenderer := None; _previousStopPromise := None |} w.

(** [Renderer.stop()] up to its first suspension: the flag is raised and
    the promise is pending. *)
Definition begin_stop (r : nat) (w : World) : World :=
  {| pool := pool w;
     heap := alter (Renderer.set_stopping true) r (heap w);
     stops := (stops w ++ [r])%list |}.

(** [_stopCurrentRenderer()] *)
Definition _stopCurrentRenderer (w : World) : World :=
  let cur := _currentRenderer (pool w) in
  let w := begin_stop cur w in
  set_pool {| _stopping := _stopping (pool w);
              _currentRenderer := _currentRenderer (pool w);
              _futureRenderer := _futureRenderer (pool w);
              _previousStopPromise := Some cur |} w.

Section Routing.
  Variable MAX_RENDERER_TASKS : Z.

(** [get renderer()] *)
Definition renderer (w : World) : settled nat * World :=
  if _stopping (pool w)
  then (RejectedWith
          (Error "Called (get) renderer on a stopping RollingRenderer"), w)
  else
    let nbTotalTasks :=
      Renderer.nbTotalTasks (deref w (_currentRenderer (pool w))) in
    (* Before the limit, use the current renderer *)
    if nbTotalTasks <? MAX_RENDERER_TASKS
    then (Fulfilled (_currentRenderer (pool w)), w)
    else
      (* On the limit, create a new one *)
      let '(future, w) :=
        match _futureRenderer (pool w) with
        | Some f => (f, w)
        | None =>
            let '(f, w) := alloc w in
            (f, set_pool {| _stopping := _stopping (pool w);
                            _currentRenderer := _currentRenderer (pool w);
                            _futureRenderer := Some f;
                            _previousStopPromise :=
                              _previousStopPromise (pool w) |} w)
        end in
      let previousStopped :=
        negb (is_some (_previousStopPromise (pool w))) in
      if negb previousStopped
      then (Fulfilled (_currentRenderer (pool w)), w)
      else
        (* Only use the future one if it's ready *)
        let futureReady := Renderer.ready (deref w future) in
        if negb futureReady
        then (Fulfilled (_currentRenderer (pool w)), w)
        else
          let w := _stopCurrentRenderer w in
          let w := set_pool {| _stopping := _stopping (pool w);
                               _currentRenderer := future;
                               _futureRenderer := None;
                               _previousStopPromise :=
                                 _previousStopPromise (pool w) |} w in
          (Fulfilled (_currentRenderer (pool w)), w).

(** [task(job)]: the routing decision, then [Renderer.task] on the
    renderer it returned. *)
Definition task (job : Renderer.TaskParams) (uuid : string)
    (e : Renderer.Env) (w : World)
  : settled Renderer.TaskResult * World * list Renderer.Effect :=
  if _stopping (pool w)
  then (RejectedWith (Error "Called task on a stopping RollingRenderer"),
        w, [])
  else
    match renderer w with
    | (RejectedWith err, w) => (RejectedWith err, w, [])
    | (Fulfilled r, w) =>
        let '(res, o, tr) := Renderer.task job uuid e (deref w r) in
        (res, {| pool := pool w; heap := <[r := o]> (heap w);
                 stops := stops w |}, tr)
    end.

(** [get ready()] *)
Definition ready (w : World) : settled bool * World :=
  match renderer w with
  | (Fulfilled r, w) => (Fulfilled (Renderer.ready (deref w r)), w)
  | (RejectedWith err, w) => (RejectedWith err, w)
  end.

(** [healthy()], with the outcome of the renderer's [browser.version()]. *)
Definition healthy (version : settled unit) (w : World)
  : settled bool * World :=
  match renderer w with
  | (Fulfilled r, w) => (Fulfilled (Renderer.healthy version (deref w r)), w)
  | (RejectedWith err, w) => (RejectedWith err, w)
  end.

(** *** The pool over time

    What can happen to a pool that is serving: callers read the routing
    getter or submit tasks, a caller that was handed a renderer submits a
    task to it directly, a renderer finishes warming up, a pending
    [Renderer.stop()] settles (it cannot before the renderer is ready:
    [stop] first spins on [ready]), and [stop()] is called on the pool,
    which raises [_stopping]; from then on the routing getter answers
    nothing, and what [stop()] goes on to do is no routing decision. *)
Inductive Label :=
| CallRenderer
| CallTask
| HeldTask (r : nat)
| BecomesReady (r : nat)
| StopFulfilled (r : nat)
| StopRejected (r : nat)
| CallStop.

Definition remove_stop (r : nat) (l : list nat) : list nat :=
  filter (fun x => x ≠ r) l.

Inductive step : World -> Label -> World -> Prop :=
| step_renderer w :
      step w CallRenderer (snd (renderer w))
  | step_task w job uuid e :
      step w CallTask (snd (fst (task job uuid e w)))
  | step_held w r o job uuid e :
      heap w !! r = Some o ->
      step w (HeldTask r)
        {| pool := pool w;
           heap := <[r := snd (fst (Renderer.task job uuid e o))]> (heap w);
           stops := stops w |}
  | step_ready w r o :
      heap w !! r = Some o ->
      step w (BecomesReady r)
        {| pool := pool w;
           heap := <[r := Renderer.set_ready true o]> (heap w);
           stops := stops w |}
  | step_stop_fulfilled w r o :
      r ∈ stops w -> heap w !! r = Some o -> Renderer.ready o = true ->
      (* the [then] callback of [_stopCurrentRenderer] *)
      step w (StopFulfilled r)
        {| pool := {| _stopping := _stopping (pool w);
                      _currentRenderer := _currentRenderer (pool w);
                      _futureRenderer := _futureRenderer (pool w);
                      _previousStopPromise := None |};
           heap := heap w;
           stops := remove_stop r (stops w) |}
  | step_stop_rejected w r o :
      r ∈ stops w -> heap w !! r = Some o -> Renderer.ready o = true ->
      step w (StopRejected r)
        {| pool := pool w; heap := heap w;
           stops := remove_stop r (stops w) |}
  | step_stop w :
      step w CallStop
        (set_pool {| _stopping := true;
                     _currentRenderer := _currentRenderer (pool w);
                     _futureRenderer := _futureRenderer (pool w);
                     _previousStopPromise :=
                       _previousStopPromise (pool w) |} w).

Inductive reachable : World -> Prop :=
| reachable_create : reachable create
| reachable_step w l w' : reachable w -> step w l w' -> reachable w'.

(** A renderer other than the current one that has been created and
    whose stop has not begun. *)
Definition replacement (w : World) (r : nat) : Prop :=
  exists o, heap w !! r = Some o /\ r <> _currentRenderer (pool w) /\
            Renderer._stopping o = false.

(** A replacement that is still warming up. *)
Definition warming_up (w : World) (r : nat) : Prop :=
  exists o, heap w !! r = Some o /\ r <> _currentRenderer (pool w) /\
            Renderer._stopping o = false /\ Renderer.ready o = false.

End Routing.

End RollingRenderer.

(** ** lib/browser/Page.ts *)

Module BrowserPage.

(** The counters of [#metrics] (the durations and heap sizes are filled
    by [metrics()] and play no part in the listeners). *)
Record PageMetrics := {
  requests : Z;
  blockedRequests : Z;
  contentLength : Z;
  contentLengthTotal : Z;
}.

Definition new_metrics : PageMetrics :=
  {| requests := 0; blockedRequests := 0;
     contentLength := 0; contentLengthTotal := 0 |}.

Record TaskParams := {
  url_href : string;
  headersToForward : gmap string string;
  userAgent : string;
  adblock : bool;
}.

Record Request := {
  req_url : string;
  resourceType : string;
  isNavigationRequest : bool;
  req_headers : gmap string string;
}.

(** Everything the listener does that can be observed from outside, in
    program order; the two counter increments are part of the trace so
    that their position relative to the decision is visible. *)
Inductive Effect :=
| EvIncrRequests
| EvIncrBlocked
| EvValidateURL (u : string) (ipPrefixes : list string)
| EvConsoleError (msg : string)
| EvAdblockMatch (u : string)
| EvAbort
| EvContinue (overrides : option (gmap string string)).

Record ReqEnv := {
  validateURL : settled unit;      (* line 184 *)
  (* line 204: [adblocker.match(new URL(reqUrl))]; the constructor of
     the URL and the ad blocker can both throw *)
  adblocker_match : settled bool;
  abort_awaited : settled unit;    (* lines 201, 206 *)
  continue_awaited : settled unit; (* lines 212, 218 *)
}.

Record St := {
  metrics : PageMetrics;
  trace : list Effect;
}.

Definition emit (ev : Effect) : M St unit :=
  fun s => (Fulfilled tt,
            {| metrics := metrics s; trace := (trace s ++ [ev])%list |}).

Definition await {A} (ev : Effect) (r : settled A) : M St A :=
  fun s => (r, {| metrics := metrics s; trace := (trace s ++ [ev])%list |}).

(** [this.#metrics.requests += 1] *)
Definition incr_requests : M St unit :=
  fun s => (Fulfilled tt,
            {| metrics := {| requests := requests (metrics s) + 1;
                             blockedRequests := blockedRequests (metrics s);
                             contentLength := contentLength (metrics s);
                             contentLengthTotal :=
                               contentLengthTotal (metrics s) |};
               trace := (trace s ++ [EvIncrRequests])%list |}).

(** [this.#metrics.blockedRequests += 1] *)
Definition incr_blocked : M St unit :=
  fun s => (Fulfilled tt,
            {| metrics := {| requests := requests (metrics s);
                             blockedRequests :=
                               blockedRequests (metrics s) + 1;
                             contentLength := contentLength (metrics s);
                             contentLengthTotal :=
                               contentLengthTotal (metrics s) |};
               trace := (trace s ++ [EvIncrBlocked])%list |}).

Definition spread (headers forwarded : gmap string string)
  : gmap string string := forwarded ∪ headers.

Section Listener.
  (** The constants of [lib/constants], which the listener only reads. *)
  Variable DATA_REGEXP_test : string -> bool.
  Variable IGNORED_RESOURCES : list string.
  Variable RESTRICTED_IPS : list string.

(** The ['request'] listener installed by [#updateContext]. *)
Definition onRequest (params : TaskParams) (req : Request) (e : ReqEnv)
  : M St unit :=
  let reqUrl := req_url req in
  incr_requests ;;;
  (* Skip data URIs *)
  if DATA_REGEXP_test reqUrl
  then incr_blocked ;;; emit EvAbort
  else
    (* check for ssrf attempts *)
    match validateURL e with
    | RejectedWith err =>
        emit (EvValidateURL reqUrl RESTRICTED_IPS) ;;;
        (if negb (includes "ENOTFOUND" (message err))
         then emit (EvConsoleError (message err)) ;;; incr_blocked
         else ret tt) ;;;
        emit EvAbort
    | Fulfilled _ =>
        emit (EvValidateURL reqUrl RESTRICTED_IPS) ;;;
        try_catch
          ((* Ignore some type of resources *)
           if bool_decide (resourceType req ∈ IGNORED_RESOURCES)
           then incr_blocked ;;; await EvAbort (abort_awaited e)
           else
             hit <- (if adblock params
                     then await (EvAdblockMatch reqUrl) (adblocker_match e)
                     else ret false) ;;
             if hit
             then incr_blocked ;;; await EvAbort (abort_awaited e)
             else if isNavigationRequest req
             then await (EvContinue
                           (Some (spread (req_headers req)
                                         (headersToForward params))))
                        (continue_awaited e)
             else await (EvContinue None) (continue_awaited e))
          (fun err =>
             if negb (includes "Request is already handled" (message err))
             then throw err
             else ret tt)
    end.

Definition handle (params : TaskParams) (req : Request) (e : ReqEnv)
        (m : PageMetrics) : settled unit * St :=
      onRequest params req e {| metrics := m; trace := [] |}.
End Listener.

Inductive Verdict := Aborted | Continued.

(** The first [abort] or [continue] issued on a request settles it. *)
Fixpoint verdict (tr : list Effect) : option Verdict :=
  match tr with
  | [] => None
  | EvAbort :: _ => Some Aborted
  | EvContinue _ :: _ => Some Continued
  | _ :: rest => verdict rest
  end.

End BrowserPage.

(** ** lib/TasksManager.ts *)

Module TasksManager.

Inductive JobType := login | render.

(** Which task class the manager instantiated for a job. *)
Inductive TaskRef := LoginTask | RenderTask.

(** An entry of [#tasks]; [taskPromise] is present once [process()] has
    been started. *)
Record TaskObject := {
  id : string;
  createdAt : Z;
  o_task : option TaskRef;   (* the [task] key *)
  taskPromise : bool;
}.

Record Browser := {
  isReady : bool;
}.

Record Manager := {
  browser : option Browser;
  stopping : bool;
  tasks : gmap string TaskObject;
}.

(** A manager before [launch()]. *)
Definition new : Manager :=
  {| browser := None; stopping := true; tasks := ∅ |}.

Record TaskParams := {
  url : string;
  type : JobType;
}.

(** Where [task()] is suspended. *)
Inductive Point :=
| AtCreate        (* line 93 *)
| AfterTimeout    (* between the throw of line 101 and the catch *)
| AtLink          (* line 116 *)
| AtProcess       (* line 123 *)
| AtClose         (* line 128 *)
| AtRemove.       (* line 193 *)

Inductive PageCreation :=
| Created
| CreateRejected (e : JsError)
| TimedOut.

Inductive Effect :=
| EvLog (line : string)
| EvPageCreate
| EvWait
| EvLinkToTask
| EvProcess
| EvReport (e : JsError)
| EvTaskClose
| EvStats
| EvAwaitTasks (n : nat)
| EvBrowserStop.

Record St := {
  mgr : Manager;
  trace : list Effect;
}.

Definition emit (ev : Effect) : M St unit :=
  fun s => (Fulfilled tt,
            {| mgr := mgr s; trace := (trace s ++ [ev])%list |}).

Definition get_mgr : M St Manager := fun s => (Fulfilled (mgr s), s).

Definition upd_mgr (f : Manager -> Manager) : M St unit :=
  fun s => (Fulfilled tt, {| mgr := f (mgr s); trace := trace s |}).

Definition set_tasks (t : gmap string TaskObject) (m : Manager) : Manager :=
  {| browser := browser m; stopping := stopping m; tasks := t |}.
Definition set_stopping (b : bool) (m : Manager) : Manager :=
  {| browser := browser m; stopping := b; tasks := tasks m |}.
Definition set_browser (b : option Browser) (m : Manager) : Manager :=
  {| browser := b; stopping := stopping m; tasks := tasks m |}.

Definition set_task (t : TaskRef) (o : TaskObject) : TaskObject :=
  {| id := id o; createdAt := createdAt o; o_task := Some t;
     taskPromise := taskPromise o |}.
Definition set_taskPromise (o : TaskObject) : TaskObject :=
  {| id := id o; createdAt := createdAt o; o_task := o_task o;
     taskPromise := true |}.

(** [get healthy()], read at time [now]. *)
Definition healthy (UNHEALTHY_TASK_TTL now : Z) (m : Manager) : bool :=
  if stopping m then false
  else
    let lostTask :=
      length (List.filter (fun kv => UNHEALTHY_TASK_TTL <? now - createdAt (snd kv))
                          (map_to_list (tasks m))) in
    if negb (Nat.eqb lostTask 0) then false
    else match browser m with
         | Some b => isReady b
         | None => false
         end.

(** [#registerTask] *)
Definition registerTask (i : string) (now : Z) : M St unit :=
  upd_mgr (fun m =>
    set_tasks (<[i := {| id := i; createdAt := now; o_task := None;
                        taskPromise := false |}]> (tasks m)) m).

Section Calls.
  Context {TaskResult Metrics : Type}.

Record TaskFinal := {
  res : TaskResult;
  metrics : Metrics;
}.

(** What the collaborators answer during one [task()] call, and what
    the other coroutines did to the manager while the call was
    suspended: other [task()] calls, the continuation of a [stop()],
    and the timer of line 96, which is not cancelled when the page
    creation wins the race. *)
Record TaskEnv := {
  uuid : string;                  (* line 72 *)
  now : Z;                        (* line 182 *)
  pageCreate : PageCreation;      (* line 93 *)
  linkToTask : settled unit;      (* line 116 *)
  process : settled unit;         (* line 117 *)
  results : TaskResult;           (* line 124 *)
  close_body : settled unit;      (* line 128 *)
  task_metrics : Metrics;         (* line 134 *)
  close_cleanup : settled unit;   (* line 193 *)
  interfere : Point -> Manager -> Manager;
}.

Definition suspend (e : TaskEnv) (p : Point) : M St unit :=
  upd_mgr (interfere e p).

(** [await call] at suspension point [p]. *)
Definition await_at {A} (e : TaskEnv) (p : Point) (ev : Effect)
    (r : settled A) : M St A :=
  emit ev ;;; suspend e p ;;; (fun s => (r, s)).

(** [stop()] up to its first [await]. *)
Definition stop_prefix : M St nat :=
  upd_mgr (set_stopping true) ;;;
  emit (EvLog "Tasks Manager stopping...") ;;;
  m <- get_mgr ;;
  ret (length (List.filter (fun kv => taskPromise (snd kv))
                           (map_to_list (tasks m)))).

(** [#removeTask] *)
Definition removeTask (e : TaskEnv) (i : string) : M St unit :=
  m <- get_mgr ;;
  match tasks m !! i with
  | None => throw (Error ("Could not find task: " +:+ i))
  | Some t =>
      (if is_some (o_task t)
       then await_at e AtRemove EvTaskClose (close_cleanup e)
       else ret tt) ;;;
      upd_mgr (fun m => set_tasks (delete i (tasks m)) m)
  end.

(** [task(job)] *)
Definition task_ (job : TaskParams) (e : TaskEnv) : M St TaskFinal :=
  m <- get_mgr ;;
  if stopping m
  then throw (Error "Task can not be executed: stopping")
  else match browser m with
  | None => throw (Error "Task can not be executed: no_browser")
  | Some _ =>
    let i := uuid e in
    emit (EvLog "Processing") ;;;
    registerTask i (now e) ;;;
    try_finally
      (try_catch
         (emit EvPageCreate ;;;
          match pageCreate e with
          | Created => await_at e AtCreate EvWait (Fulfilled tt)
          | CreateRejected err =>
              await_at e AtCreate EvWait (RejectedWith err)
          | TimedOut =>
              await_at e AtCreate EvWait (Fulfilled tt) ;;;
              (* Stopping has we can not trust puppeteer *)
              stop_prefix ;;;
              suspend e AfterTimeout ;;;
              throw (Error "Can not create a BrowserPage")
          end ;;;
          let t := match type job with
                   | login => LoginTask
                   | render => RenderTask
                   end in
          m <- get_mgr ;;
          match tasks m !! i with
          | None =>
              (* [obj] is undefined: [obj.task = task] throws *)
              throw (Error "Cannot set properties of undefined (setting 'task')")
          | Some _ =>
              upd_mgr (fun m => set_tasks (alter (set_task t) i (tasks m)) m) ;;;
              await_at e AtLink EvLinkToTask (linkToTask e) ;;;
              emit EvProcess ;;;
              upd_mgr (fun m =>
                set_tasks (alter set_taskPromise i (tasks m)) m) ;;;
              suspend e AtProcess ;;;
              match process e with
              | Fulfilled _ => ret tt
              | RejectedWith err => emit (EvReport err)
              end ;;;
              let r := results e in
              await_at e AtClose EvTaskClose (close_body e) ;;;
              emit EvStats ;;;
              emit (EvLog "Done") ;;;
              ret {| res := r; metrics := task_metrics e |}
          end)
         (fun err => emit (EvLog "Fail") ;;; throw err))
      (emit (EvLog "Finally") ;;; removeTask e i)
  end.

Definition task (job : TaskParams) (e : TaskEnv) (m : Manager)
      : settled TaskFinal * St :=
      task_ job e {| mgr := m; trace := [] |}.

End Calls.
Arguments TaskFinal : clear implicits.
Arguments TaskEnv : clear implicits.

Record StopEnv := {
  awaitTasks : settled unit;   (* line 172 *)
  browserStop : settled unit;  (* line 176 *)
}.

(** [stop()], on a manager that no other coroutine touches meanwhile. *)
Definition stop_ (e : StopEnv) : M St unit :=
  n <- stop_prefix ;;
  (fun s => ((if Nat.eqb n 0 then Fulfilled tt else awaitTasks e),
             {| mgr := mgr s;
                trace := (if Nat.eqb n 0 then trace s
                          else trace s ++ [EvAwaitTasks n])%list |})) ;;;
  upd_mgr (set_tasks ∅) ;;;
  m <- get_mgr ;;
  match browser m with
  | Some _ =>
      emit EvBrowserStop ;;;
      (fun s => (browserStop e, s)) ;;;
      upd_mgr (set_browser None)
  | None => ret tt
  end.

Definition stop (e : StopEnv) (m : Manager) : settled unit * St :=
  stop_ e {| mgr := m; trace := [] |}.

End TasksManager.

(** ** lib/TasksManager.ts, later revision

    The manager once tasks are objects of their own ([Task] with [id],
    [createContext], [process], [saveMetrics], [close]): [task()] starts
    [#exec], stores its promise and removes the entry when it settles. *)

Module TasksManager2.

Record Browser := {
  isReady : bool;
}.

(** An entry of [#tasks]: [ref] is the task, named by its id; [promise]
    is the promise of [#exec]. *)
Record TaskObject := {
  ref : string;
}.

Record Manager := {
  browser : option Browser;
  stopping : bool;
  tasks : gmap string TaskObject;
  totalRun : Z;
}.

Definition new : Manager :=
  {| browser := None; stopping := true; tasks := ∅; totalRun := 0 |}.

Inductive Point :=
| AtExec          (* line 73: [#exec] has been started *)
| AtCreateContext (* line 99 *)
| AtProcess       (* line 100 *)
| AtSaveMetrics   (* line 101 *)
| AtClose         (* line 109 *)
| AtSettle.       (* line 73: [#exec] settled, the callback runs next *)

Inductive Effect :=
| EvLog (line : string)
| EvCreateContext
| EvProcess
| EvSaveMetrics
| EvReport (e : JsError)
| EvTaskClose
| EvStats
| EvAwaitTask (id : string)
| EvBrowserStop.

Record St := {
  mgr : Manager;
  trace : list Effect;
}.

Definition emit (ev : Effect) : M St unit :=
  fun s => (Fulfilled tt,
            {| mgr := mgr s; trace := (trace s ++ [ev])%list |}).

Definition get_mgr : M St Manager := fun s => (Fulfilled (mgr s), s).

Definition upd_mgr (f : Manager -> Manager) : M St unit :=
  fun s => (Fulfilled tt, {| mgr := f (mgr s); trace := trace s |}).

Definition set_tasks (t : gmap string TaskObject) (m : Manager) : Manager :=
  {| browser := browser m; stopping := stopping m; tasks := t;
     totalRun := totalRun m |}.
Definition set_stopping (b : bool) (m : Manager) : Manager :=
  {| browser := browser m; stopping := b; tasks := tasks m;
     totalRun := totalRun m |}.
Definition set_browser (b : option Browser) (m : Manager) : Manager :=
  {| browser := b; stopping := stopping m; tasks := tasks m;
     totalRun := totalRun m |}.
Definition incr_totalRun (m : Manager) : Manager :=
  {| browser := browser m; stopping := stopping m; tasks := tasks m;
     totalRun := totalRun m + 1 |}.

Section Calls.
  Context {TaskResult Metrics : Type}.

Record TaskFinal := {
  res : TaskResult;
  timeout : bool;
  metrics : Metrics;
}.

(** The task handed to [task()] and what it answers. *)
Record TaskEnv := {
  id : string;                      (* task.id *)
  createContext : settled unit;     (* line 99 *)
  process : settled unit;           (* line 100 *)
  saveMetrics : settled unit;       (* line 101 *)
  close : settled unit;             (* line 109 *)
  task_metrics : Metrics;           (* task.metrics *)
  results : TaskResult;             (* task.results *)
  hasTimeout : option bool;         (* task.page?.hasTimeout; [None]
                                       when [task.page] is undefined *)
  interfere : Point -> Manager -> Manager;
}.

Definition suspend (e : TaskEnv) (p : Point) : M St unit :=
  upd_mgr (interfere e p).

Definition await_at {A} (e : TaskEnv) (p : Point) (ev : Effect)
    (r : settled A) : M St A :=
  emit ev ;;; suspend e p ;;; (fun s => (r, s)).

(** [#exec] up to its first suspension: the two guards, and the call
    to [task.createContext]. *)
Definition exec_prefix : M St unit :=
  m <- get_mgr ;;
  if stopping m
  then throw (Error "Task can not be executed: stopping")
  else match browser m with
       | None => throw (Error "Task can not be executed: no_browser")
       | Some _ =>
           emit (EvLog "Processing") ;;;
           emit EvCreateContext
       end.

(** [#exec] from its first suspension on. *)
Definition exec_rest (e : TaskEnv) : M St TaskFinal :=
  try_catch
    (suspend e AtCreateContext ;;;
     (fun s => (createContext e, s)) ;;;
     await_at e AtProcess EvProcess (process e) ;;;
     await_at e AtSaveMetrics EvSaveMetrics (saveMetrics e))
    (fun err =>
       (* Task itself should never break the whole execution *)
       emit (EvReport err)) ;;;
  (* No matter what happen we want to kill everything gracefully *)
  try_catch
    (await_at e AtClose EvTaskClose (close e) ;;;
     upd_mgr (fun m => set_tasks (delete (id e) (tasks m)) m))
    (fun _ => emit (EvReport (Error "Error during close"))) ;;;
  emit EvStats ;;;
  emit (EvLog "Done") ;;;
  match hasTimeout e with
  | None =>
      throw (Error "Cannot read properties of undefined (reading 'hasTimeout')")
  | Some t =>
      ret {| res := results e; timeout := t; metrics := task_metrics e |}
  end.

(** [task(task)] *)
Definition task_ (e : TaskEnv) : M St TaskFinal :=
  fun s =>
    (* const promise = this.#exec(task) *)
    let '(started, s) := exec_prefix s in
    (upd_mgr incr_totalRun ;;;
     upd_mgr (fun m =>
       set_tasks (<[id e := {| ref := id e |}]> (tasks m)) m) ;;;
     suspend e AtExec ;;;
     (* promise.finally(() => this.#tasks.delete(task.id)) *)
     try_finally
       (try_finally
          (match started with
           | RejectedWith err => throw err
           | Fulfilled _ => exec_rest e
           end)
          (suspend e AtSettle))
       (upd_mgr (fun m => set_tasks (delete (id e) (tasks m)) m))) s.

Definition task (e : TaskEnv) (m : Manager) : settled TaskFinal * St :=
  task_ e {| mgr := m; trace := [] |}.

End Calls.
Arguments TaskFinal : clear implicits.
Arguments TaskEnv : clear implicits.

Record StopEnv := {
  (* line 164, once per entry: how [task.promise] settles *)
  promises : string -> settled unit;
  browserStop : settled unit;  (* line 152 *)
}.

(** [#removeTask]: waits for the task, whatever its outcome. *)
Definition removeTask (e : StopEnv) (i : string) : M St unit :=
  m <- get_mgr ;;
  match tasks m !! i with
  | None => throw (Error ("Could not find task: " +:+ i))
  | Some _ =>
      try_catch (emit (EvAwaitTask i) ;;; (fun s => (promises e i, s)))
                (fun _ => ret tt)
  end.

Fixpoint for_each (e : StopEnv) (ids : list string) : M St unit :=
  match ids with
  | [] => ret tt
  | i :: rest => removeTask e i ;;; for_each e rest
  end.

(** [stop()], on a manager that no other coroutine touches meanwhile. *)
Definition stop_ (e : StopEnv) : M St unit :=
  upd_mgr (set_stopping true) ;;;
  emit (EvLog "[Manager] stopping...") ;;;
  m <- get_mgr ;;
  for_each e (ref <$> (snd <$> map_to_list (tasks m))) ;;;
  upd_mgr (set_tasks ∅) ;;;
  m <- get_mgr ;;
  match browser m with
  | Some _ =>
      emit EvBrowserStop ;;;
      (fun s => (browserStop e, s)) ;;;
      upd_mgr (set_browser None)
  | None => ret tt
  end.

Definition stop (e : StopEnv) (m : Manager) : settled unit * St :=
  stop_ e {| mgr := m; trace := [] |}.

End TasksManager2.

(** ** Specification side: what a final result carries *)

Module ResultShape.

(** The three things the specification wants exclusive, for a result of
    [PageTask.process] ... *)
Definition page_populated (r : PageTask.TaskResult) : list bool :=
  [ is_some (PageTask.statusCode r) && is_some (PageTask.body r);
    is_some (PageTask.error r);
    Boolean (PageTask.timeout r) ].

(** ... and for a result of [Renderer._processPage]. *)
Definition renderer_populated (r : Renderer.TaskResult) : list bool :=
  [ is_some (Renderer.statusCode r) && is_some (Renderer.body r);
    is_some (Renderer.error r);
    Boolean (Renderer.timeout r) ].

(** "Exactly one of [{statusCode+body, error, timeout}] is populated". *)
Definition exactly_one (l : list bool) : Prop :=
  length (List.filter (fun b => b) l) = 1%nat.

(** A navigation that got its first response and then hit the timeout
    of [page.goto]. *)
Definition slow_page : Renderer.Env :=
  {| Renderer.newPage := Fulfilled tt;
     Renderer.defineRequestContext := Fulfilled tt;
     Renderer.firstResponse :=
       Some {| Renderer.status := 200; Renderer.headers := ∅ |};
     Renderer.goto :=
       RejectedWith (Error "Navigation Timeout Exceeded: 10000ms exceeded");
     Renderer.injectBaseHref := Fulfilled tt;
     Renderer.debugger := Fulfilled tt;
     Renderer.preSerializationUrl := Fulfilled "http://a.test/";
     Renderer.outerHTML := Fulfilled "<html></html>";
     Renderer.postSerializationUrl := Fulfilled "http://a.test/";
     Renderer.contextClose := Fulfilled tt |}.

Definition a_job : Renderer.TaskParams :=
  {| Renderer.url := {| Renderer.href := "http://a.test/";
                        Renderer.protocol := "http:";
                        Renderer.host := "a.test" |};
     Renderer.headersToForward := ∅ |}.

(** A result that is an error and nothing else besides, possibly, the
    timeout flag. *)
Definition page_error (r : PageTask.TaskResult) : Prop :=
  is_some (PageTask.error r) = true /\
  PageTask.statusCode r = None /\ PageTask.body r = None /\
  PageTask.res_headers r = None /\ PageTask.resolvedUrl r = None.

(** A success: status code, headers, body and resolved URL, no error and
    no timeout key. *)
Definition page_success (r : PageTask.TaskResult) : Prop :=
  PageTask.error r = None /\ PageTask.timeout r = None /\
  is_some (PageTask.statusCode r) = true /\
  is_some (PageTask.body r) = true.

Definition renderer_error (r : Renderer.TaskResult) : Prop :=
  is_some (Renderer.error r) = true /\ Renderer.timeout r = None /\
  Renderer.statusCode r = None /\ Renderer.body r = None /\
  Renderer.res_headers r = None /\ Renderer.resolvedUrl r = None.

(** A success of [_processPage] always has the [timeout] key, true or
    false. *)
Definition renderer_success (r : Renderer.TaskResult) : Prop :=
  Renderer.error r = None /\ is_some (Renderer.timeout r) = true /\
  is_some (Renderer.statusCode r) = true /\
  is_some (Renderer.body r) = true.

End ResultShape.

(** ** Specification side: runs that reach the serialization *)

Module Serialization.

(** [PageTask.process] gets a response and nothing rejects up to the
    comparison of the two URL reads, which returned [pre] and [post]
    around the extraction of [html]. *)
Definition page_serializes (e : PageTask.Env) (resp : PageTask.HTTPResponse)
    (pre html post : string) : Prop :=
  PageTask.goto e = Fulfilled resp /\
  PageTask.injectBaseHref e = Fulfilled tt /\
  PageTask.waitForTimeout e = Fulfilled tt /\
  PageTask.debugger e = Fulfilled tt /\
  PageTask.preSerializationUrl e = Fulfilled pre /\
  PageTask.outerHTML e = Fulfilled html /\
  PageTask.postSerializationUrl e = Fulfilled post /\
  PageTask.contextClose e = Fulfilled tt.

(** The response [_processPage] holds after the navigation: the value of
    [page.goto], or the first response seen by the listener when
    [page.goto] rejected. *)
Definition navigation_response (e : Renderer.Env) : option Renderer.Response :=
  match Renderer.goto e with
  | Fulfilled r => r
  | RejectedWith _ => Renderer.firstResponse e
  end.

Definition renderer_serializes (e : Renderer.Env) (resp : Renderer.Response)
    (pre html post : string) : Prop :=
  Renderer.newPage e = Fulfilled tt /\
  Renderer.defineRequestContext e = Fulfilled tt /\
  navigation_response e = Some resp /\
  Renderer.injectBaseHref e = Fulfilled tt /\
  Renderer.debugger e = Fulfilled tt /\
  Renderer.preSerializationUrl e = Fulfilled pre /\
  Renderer.outerHTML e = Fulfilled html /\
  Renderer.postSerializationUrl e = Fulfilled post /\
  Renderer.contextClose e = Fulfilled tt.

(** [PageTask.process] gets as far as the comparison of the two URL
    reads, [context.close()] of line 77 apart: it gets a response and
    nothing it awaits rejects up to the second read. *)
Definition page_reads_done (p : PageTask.RenderTaskParams)
    (e : PageTask.Env) (resp : PageTask.HTTPResponse)
    (pre html post : string) : Prop :=
  PageTask.goto e = Fulfilled resp /\
  PageTask.injectBaseHref e = Fulfilled tt /\
  (* the minimum wait, when the page is asked for one *)
  ((PageTask.status resp =? 200)
   && truthy (PageTask.min (PageTask.waitTime p)) = true ->
   PageTask.waitForTimeout e = Fulfilled tt) /\
  PageTask.debugger e = Fulfilled tt /\
  PageTask.preSerializationUrl e = Fulfilled pre /\
  PageTask.outerHTML e = Fulfilled html /\
  PageTask.postSerializationUrl e = Fulfilled post.

(** The same for [Renderer._processPage], [context.close()] of line 333
    apart. *)
Definition renderer_reads_done (e : Renderer.Env) (resp : Renderer.Response)
    (pre html post : string) : Prop :=
  Renderer.newPage e = Fulfilled tt /\
  Renderer.defineRequestContext e = Fulfilled tt /\
  navigation_response e = Some resp /\
  Renderer.injectBaseHref e = Fulfilled tt /\
  Renderer.debugger e = Fulfilled tt /\
  Renderer.preSerializationUrl e = Fulfilled pre /\
  Renderer.outerHTML e = Fulfilled html /\
  Renderer.postSerializationUrl e = Fulfilled post.

(** The URL is read right before and right after the HTML, and these are
    the only three reads of the page. *)
Definition page_reads_around_html (tr : list PageTask.Effect) : Prop :=
  exists l1 l2,
    tr = (l1 ++ [PageTask.EvEvaluate "window.location.href";
                 PageTask.EvEvaluate "document.firstElementChild.outerHTML";
                 PageTask.EvEvaluate "window.location.href"] ++ l2)%list /\
    (forall x, In (PageTask.EvEvaluate x) (l1 ++ l2)%list -> False).

Definition renderer_reads_around_html (tr : list Renderer.Effect) : Prop :=
  exists l1 l2,
    tr = (l1 ++ [Renderer.EvEvaluate "window.location.href";
                 Renderer.EvEvaluate "document.firstElementChild.outerHTML";
                 Renderer.EvEvaluate "window.location.href"] ++ l2)%list /\
    (forall x, In (Renderer.EvEvaluate x) (l1 ++ l2)%list -> False).

(** [{ error: 'unsafe_redirect' }] *)
Definition page_unsafe_redirect : PageTask.TaskResult :=
  {| PageTask.statusCode := None; PageTask.res_headers := None;
     PageTask.body := None; PageTask.resolvedUrl := None;
     PageTask.error := Some "unsafe_redirect"; PageTask.timeout := None |}.

(** A page that replaces its location while it is being serialized. *)
Definition redirecting_page : PageTask.Env :=
  {| PageTask.now_total := 1000;
     PageTask.now_goto_start := 1000;
     PageTask.goto :=
       Fulfilled {| PageTask.status := 200; PageTask.headers := [] |};
     PageTask.now_goto_end := 1200;
     PageTask.injectBaseHref := Fulfilled tt;
     PageTask.now_minWait_start := 1201;
     PageTask.now_minWait_check := 1201;
     PageTask.waitForTimeout := Fulfilled tt;
     PageTask.now_minWait_end := 2000;
     PageTask.now_serialize_start := 2000;
     PageTask.debugger := Fulfilled tt;
     PageTask.preSerializationUrl := Fulfilled "http://a.test/";
     PageTask.outerHTML := Fulfilled "<html></html>";
     PageTask.postSerializationUrl := Fulfilled "http://evil.test/";
     PageTask.now_serialize_end := 2010;
     PageTask.now_stats := 2010;
     PageTask.contextClose := Fulfilled tt;
     PageTask.now_total_end := 2011 |}.

Definition a_render : PageTask.RenderTaskParams :=
  {| PageTask.url := {| PageTask.href := "http://a.test/";
                        PageTask.protocol := "http:";
                        PageTask.host := "a.test" |};
     PageTask.waitTime := {| PageTask.min := Some 1000;
                             PageTask.max := Some 10000 |} |}.

(** [{ error: 'unsafe_redirect' }] as [_processPage] returns it. *)
Definition renderer_unsafe_redirect : Renderer.TaskResult :=
  {| Renderer.statusCode := None; Renderer.body := None;
     Renderer.res_headers := None; Renderer.timeout := None;
     Renderer.error := Some "unsafe_redirect";
     Renderer.resolvedUrl := None |}.

(** The same page when the browser goes away right after the second
    read: [context.close()] rejects. *)
Definition redirecting_page_close_fails : PageTask.Env :=
  {| PageTask.now_total := 1000;
     PageTask.now_goto_start := 1000;
     PageTask.goto :=
       Fulfilled {| PageTask.status := 200; PageTask.headers := [] |};
     PageTask.now_goto_end := 1200;
     PageTask.injectBaseHref := Fulfilled tt;
     PageTask.now_minWait_start := 1201;
     PageTask.now_minWait_check := 1201;
     PageTask.waitForTimeout := Fulfilled tt;
     PageTask.now_minWait_end := 2000;
     PageTask.now_serialize_start := 2000;
     PageTask.debugger := Fulfilled tt;
     PageTask.preSerializationUrl := Fulfilled "http://a.test/";
     PageTask.outerHTML := Fulfilled "<html></html>";
     PageTask.postSerializationUrl := Fulfilled "http://evil.test/";
     PageTask.now_serialize_end := 2010;
     PageTask.now_stats := 2010;
     PageTask.contextClose :=
       RejectedWith (Error "Protocol error (Target.disposeBrowserContext): Target closed.");
     PageTask.now_total_end := 2011 |}.

End Serialization.

(** ** Specification side: the minimum wait *)

Module MinWait.




(** The same page answering 200 OK. *)
Definition ok_page : PageTask.Env :=
  {| PageTask.now_total := 1000;
     PageTask.now_goto_start := 1000;
     PageTask.goto :=
       Fulfilled {| PageTask.status := 200; PageTask.headers := [] |};
     PageTask.now_goto_end := 1200;
     PageTask.injectBaseHref := Fulfilled tt;
     PageTask.now_minWait_start := 1200;
     PageTask.now_minWait_check := 1200;
     PageTask.waitForTimeout := Fulfilled tt;
     PageTask.now_minWait_end := 2000;
     PageTask.now_serialize_start := 2000;
     PageTask.debugger := Fulfilled tt;
     PageTask.preSerializationUrl := Fulfilled "http://a.test/";
     PageTask.outerHTML := Fulfilled "<html></html>";
     PageTask.postSerializationUrl := Fulfilled "http://a.test/";
     PageTask.now_serialize_end := 2010;
     PageTask.now_stats := 2010;
     PageTask.contextClose := Fulfilled tt;
     PageTask.now_total_end := 2011 |}.

End MinWait.

(** ** Specification side: the request filter *)

Module Filter.

(** What the specification decides for a request whose IP validation
    failed with error [err]: block, unless the failure is a DNS resolution
    failure, which lets the request proceed. *)
Definition spec_verdict_on_failure (err : JsError) : BrowserPage.Verdict :=
  if includes "ENOTFOUND" (message err)
  then BrowserPage.Continued
  else BrowserPage.Aborted.

(** "Every request that is blocked increments the blocked-request
    counter", for one run of the listener from metrics [m]. *)
Definition spec_blocked_counted (m : BrowserPage.PageMetrics)
    (s : BrowserPage.St) : Prop :=
  BrowserPage.verdict (BrowserPage.trace s) = Some BrowserPage.Aborted ->
  BrowserPage.blockedRequests (BrowserPage.metrics s) =
  BrowserPage.blockedRequests m + 1.

(** Sample constants and a script request to a host that does not
    resolve. *)
Definition data_uri (u : string) : bool := String.prefix "data:" u.
Definition ignored : list string := ["image"; "font"].
Definition restricted : list string := ["127."; "10."; "192.168."].

Definition some_task : BrowserPage.TaskParams :=
  {| BrowserPage.url_href := "http://a.test/";
     BrowserPage.headersToForward := ∅;
     BrowserPage.userAgent := "Algolia Crawler";
     BrowserPage.adblock := false |}.

Definition unresolvable : BrowserPage.Request :=
  {| BrowserPage.req_url := "http://nowhere.invalid/app.js";
     BrowserPage.resourceType := "script";
     BrowserPage.isNavigationRequest := false;
     BrowserPage.req_headers := ∅ |}.

Definition dns_failure : BrowserPage.ReqEnv :=
  {| BrowserPage.validateURL :=
       RejectedWith (Error "getaddrinfo ENOTFOUND nowhere.invalid");
     BrowserPage.adblocker_match := Fulfilled false;
     BrowserPage.abort_awaited := Fulfilled tt;
     BrowserPage.continue_awaited := Fulfilled tt |}.

Definition dns_failure_run : settled unit * BrowserPage.St :=
  BrowserPage.handle data_uri ignored restricted some_task unresolvable
    dns_failure BrowserPage.new_metrics.

End Filter.

(** ** Specification side: what the rolling pool maintains *)

Module Rolling.

(** The invariant of a serving pool. The current renderer and the future
    one, if any, are distinct live objects; every other renderer ever
    created has had its stop begun; and a stop that has begun and not
    settled is the one [_previousStopPromise] tracks. *)
Record Inv (w : RollingRenderer.World) : Prop := {
  inv_current :
    exists o,
      RollingRenderer.heap w !!
        RollingRenderer._currentRenderer (RollingRenderer.pool w) = Some o /\
      Renderer._stopping o = false;
  inv_future :
    forall f,
      RollingRenderer._futureRenderer (RollingRenderer.pool w) = Some f ->
      f <> RollingRenderer._currentRenderer (RollingRenderer.pool w) /\
      exists o, RollingRenderer.heap w !! f = Some o /\
                Renderer._stopping o = false;
  inv_others :
    forall r o,
      RollingRenderer.heap w !! r = Some o ->
      r <> RollingRenderer._currentRenderer (RollingRenderer.pool w) ->
      RollingRenderer._futureRenderer (RollingRenderer.pool w) <> Some r ->
      Renderer._stopping o = true;
  inv_stops :
    RollingRenderer.stops w = [] \/
    exists r,
      RollingRenderer.stops w = [r] /\
      RollingRenderer._previousStopPromise (RollingRenderer.pool w) = Some r;
}.

(** A pool with a limit of two tasks per renderer that has served two
    tasks, created a replacement on the third routing decision, seen it
    become ready, and promoted it on the fourth. *)
Definition served_one : RollingRenderer.World :=
  snd (fst (RollingRenderer.task 2 ResultShape.a_job "task-1"
              ResultShape.slow_page RollingRenderer.create)).

Definition served_two : RollingRenderer.World :=
  snd (fst (RollingRenderer.task 2 ResultShape.a_job "task-2"
              ResultShape.slow_page served_one)).

Definition replacing : RollingRenderer.World :=
  snd (RollingRenderer.renderer 2 served_two).

Definition replacement_ready : RollingRenderer.World :=
  {| RollingRenderer.pool := RollingRenderer.pool replacing;
     RollingRenderer.heap :=
       <[1%nat := Renderer.set_ready true Renderer.new]>
         (RollingRenderer.heap replacing);
     RollingRenderer.stops := RollingRenderer.stops replacing |}.

Definition promoted : RollingRenderer.World :=
  snd (RollingRenderer.renderer 2 replacement_ready).

(** The pool once [stop()] has been called on it. *)
Definition stopping_pool : RollingRenderer.World :=
  RollingRenderer.set_pool
    {| RollingRenderer._stopping := true;
       RollingRenderer._currentRenderer := 1%nat;
       RollingRenderer._futureRenderer := None;
       RollingRenderer._previousStopPromise := Some 0%nat |} promoted.

End Rolling.

(** ** Specification side: sample managers and task runs *)

Module Managers.

(** A manager after [launch()], with nothing in flight. *)
Definition launched : TasksManager.Manager :=
  {| TasksManager.browser := Some {| TasksManager.isReady := true |};
     TasksManager.stopping := false;
     TasksManager.tasks := ∅ |}.

Definition a_job : TasksManager.TaskParams :=
  {| TasksManager.url := "http://a.test/"; TasksManager.type := TasksManager.render |}.

(** A render whose page is created and whose target then goes away:
    [linkToTask] rejects, and so does the only [close()] of the run, the
    one of [#removeTask]. No other coroutine touches the manager. *)
Definition target_closed : TasksManager.TaskEnv unit unit :=
  {| TasksManager.uuid := "task-1";
     TasksManager.now := 1000;
     TasksManager.pageCreate := TasksManager.Created;
     TasksManager.linkToTask :=
       RejectedWith (Error "Protocol error (Network.setUserAgentOverride): Target closed.");
     TasksManager.process := Fulfilled tt;
     TasksManager.results := tt;
     TasksManager.close_body := Fulfilled tt;
     TasksManager.task_metrics := tt;
     TasksManager.close_cleanup :=
       RejectedWith (Error "Protocol error: Target closed.");
     TasksManager.interfere := fun _ m => m |}.

(** The same render when everything goes well. *)
Definition all_well : TasksManager.TaskEnv unit unit :=
  {| TasksManager.uuid := "task-1";
     TasksManager.now := 1000;
     TasksManager.pageCreate := TasksManager.Created;
     TasksManager.linkToTask := Fulfilled tt;
     TasksManager.process := Fulfilled tt;
     TasksManager.results := tt;
     TasksManager.close_body := Fulfilled tt;
     TasksManager.task_metrics := tt;
     TasksManager.close_cleanup := Fulfilled tt;
     TasksManager.interfere := fun _ m => m |}.

Definition stop_well : TasksManager.StopEnv :=
  {| TasksManager.awaitTasks := Fulfilled tt;
     TasksManager.browserStop := Fulfilled tt |}.

(** A manager with one render past [process()] in its map. *)
Definition one_in_flight : TasksManager.Manager :=
  {| TasksManager.browser := Some {| TasksManager.isReady := true |};
     TasksManager.stopping := false;
     TasksManager.tasks :=
       {[ "task-0" := {| TasksManager.id := "task-0";
                         TasksManager.createdAt := 900;
                         TasksManager.o_task := Some TasksManager.RenderTask;
                         TasksManager.taskPromise := true |} ]} |}.

(** What a completed [stop()] leaves. *)
Definition stopped : TasksManager.Manager :=
  {| TasksManager.browser := None;
     TasksManager.stopping := true;
     TasksManager.tasks := ∅ |}.

End Managers.

(** ** Proof automation

    Each tactic unfolds the plumbing of the direct-style embedding for
    one group of components. *)

Ltac run_async :=
  cbv beta iota zeta delta
    [bind ret throw try_catch try_finally fst snd
     PageTask.results PageTask.run PageTask.process PageTask.emit
     PageTask.await PageTask.set_results PageTask.upd_metrics
     PageTask.task PageTask.trace PageTask._results PageTask._metrics
     PageTask.new_Task
     Renderer.run Renderer._processPage Renderer.await Renderer.error_only].

Ltac run_listener :=
  cbv beta iota zeta delta
    [bind ret throw try_catch try_finally fst snd
     BrowserPage.handle BrowserPage.onRequest BrowserPage.emit
     BrowserPage.await BrowserPage.incr_requests BrowserPage.incr_blocked
     BrowserPage.metrics BrowserPage.trace
     BrowserPage.requests BrowserPage.blockedRequests
     Renderer.onRequest Renderer.req_emit Renderer.req_await].

Ltac run_manager :=
  cbv beta iota zeta delta
    [bind ret throw try_catch try_finally fst snd
     TasksManager.task TasksManager.task_ TasksManager.get_mgr
     TasksManager.upd_mgr TasksManager.emit TasksManager.registerTask
     TasksManager.removeTask TasksManager.await_at TasksManager.suspend
     TasksManager.stop TasksManager.stop_ TasksManager.stop_prefix
     TasksManager2.task TasksManager2.task_ TasksManager2.get_mgr
     TasksManager2.upd_mgr TasksManager2.emit TasksManager2.exec_prefix
     TasksManager2.exec_rest TasksManager2.await_at TasksManager2.suspend
     TasksManager2.stop TasksManager2.stop_].

(** ** Cookies forwarded to the page

    [_defineRequestContextForPage] and [#updateContext] both turn the
    forwarded [cookie] header into the arguments of [page.setCookie]. *)

Module Cookies.

(** The characters of [s] still to be read once [n] have been dropped. *)
Fixpoint drop (n : nat) (s : string) : string :=
  match n, s with
  | O, _ => s
  | S k, String _ rest => drop k rest
  | S _, EmptyString => EmptyString
  end.

(** The scan of [s.split(sep)] for a separator that is not empty: [acc] is
    the piece being read and [skip] the number of characters of a
    separator just met that are still to be passed over. *)
Fixpoint split_go (sep : string) (skip : nat) (acc s : string) : list string :=
  match s with
  | EmptyString => [acc]
  | String c rest =>
      match skip with
      | S k => split_go sep k acc rest
      | O =>
          if String.prefix sep s
          then acc :: split_go sep (String.length sep - 1) "" rest
          else split_go sep 0 (acc +:+ String c "") rest
      end
  end.

(** [s.split("")]: one piece per character. *)
Fixpoint chars (s : string) : list string :=
  match s with
  | EmptyString => []
  | String c rest => String c "" :: chars rest
  end.

(** [s.split(sep)] *)
Definition split (sep s : string) : list string :=
  match sep with
  | EmptyString => chars s
  | _ => split_go sep 0 "" s
  end.

(** The character ['=']. *)
Definition equals_sign : Ascii.ascii :=
  Ascii.Ascii true false true true true true false false.

(** [l.join(sep)] *)
Definition join (sep : string) (l : list string) : string :=
  String.concat sep l.

(** An argument of [page.setCookie]. *)
Record Cookie := {
  url : string;
  name : string;
  value : string;
}.

(** [const [key, ...v] = c.split('=')] and the object built from them;
    [split] on ['='] always has a first piece. *)
Definition parse (href c : string) : Cookie :=
  match split "=" c with
  | key :: v => {| url := href; name := key; value := join "=" v |}
  | [] => {| url := href; name := ""; value := "" |}
  end.

(** The cookies handed to [page.setCookie], if any: none when there is no
    [cookie] header to forward or when it is empty. *)
Definition cookies (href : string) (headersToForward : gmap string string)
  : option (list Cookie) :=
  match headersToForward !! "cookie" with
  | None => None
  | Some header =>
      if String.eqb header "" then None
      else Some (map (parse href) (split "; " header))
  end.

End Cookies.

(** ** Counting what a listener does to a request *)

Module Settling.

Definition page_settles (ev : BrowserPage.Effect) : bool :=
  match ev with
  | BrowserPage.EvAbort | BrowserPage.EvContinue _ => true
  | _ => false
  end.

(** The number of [abort] and [continue] calls issued on the request. *)
Definition page_settle_calls (tr : list BrowserPage.Effect) : nat :=
  length (List.filter page_settles tr).

Definition renderer_settles (ev : Renderer.ReqEffect) : bool :=
  match ev with
  | Renderer.EvAbort | Renderer.EvContinue _ => true
  | _ => false
  end.

Definition renderer_settle_calls (tr : list Renderer.ReqEffect) : nat :=
  length (List.filter renderer_settles tr).

(** The headers a request was continued with, if it was continued with
    overrides. *)
Fixpoint page_overrides (tr : list BrowserPage.Effect)
  : option (gmap string string) :=
  match tr with
  | [] => None
  | BrowserPage.EvContinue o :: _ => o
  | _ :: rest => page_overrides rest
  end.

(** The request passes every check of the listener of
    [#updateContext]. *)
Definition passes (DATA_REGEXP_test : string -> bool)
    (IGNORED_RESOURCES : list string) (params : BrowserPage.TaskParams)
    (req : BrowserPage.Request) (e : BrowserPage.ReqEnv) : bool :=
  negb (DATA_REGEXP_test (BrowserPage.req_url req))
  && match BrowserPage.validateURL e with
     | Fulfilled _ => true
     | RejectedWith _ => false
     end
  && negb (bool_decide (BrowserPage.resourceType req ∈ IGNORED_RESOURCES))
  && (if BrowserPage.adblock params
      then match BrowserPage.adblocker_match e with
           | Fulfilled hit => negb hit
           | RejectedWith _ => false
           end
      else true).

(** The request gets as far as the ad-block test, and the test throws. *)
Definition adblock_throws (DATA_REGEXP_test : string -> bool)
    (IGNORED_RESOURCES : list string) (params : BrowserPage.TaskParams)
    (req : BrowserPage.Request) (e : BrowserPage.ReqEnv) : option JsError :=
  if negb (DATA_REGEXP_test (BrowserPage.req_url req))
     && match BrowserPage.validateURL e with
        | Fulfilled _ => true
        | RejectedWith _ => false
        end
     && negb (bool_decide (BrowserPage.resourceType req ∈ IGNORED_RESOURCES))
     && BrowserPage.adblock params
  then match BrowserPage.adblocker_match e with
       | Fulfilled _ => None
       | RejectedWith err => Some err
       end
  else None.

(** A request whose validation failed because its host does not resolve,
    the one abort that is not counted. *)
Definition dns_abort (DATA_REGEXP_test : string -> bool)
    (req : BrowserPage.Request) (e : BrowserPage.ReqEnv) : bool :=
  negb (DATA_REGEXP_test (BrowserPage.req_url req))
  && match BrowserPage.validateURL e with
     | Fulfilled _ => false
     | RejectedWith err => includes "ENOTFOUND" (message err)
     end.

(** A script whose URL the ad blocker cannot take. *)
Definition a_script : BrowserPage.Request :=
  {| BrowserPage.req_url := "http://a.test/app.js";
     BrowserPage.resourceType := "script";
     BrowserPage.isNavigationRequest := false;
     BrowserPage.req_headers := ∅ |}.

Definition with_adblock : BrowserPage.TaskParams :=
  {| BrowserPage.url_href := "http://a.test/";
     BrowserPage.headersToForward := ∅;
     BrowserPage.userAgent := "Algolia Crawler";
     BrowserPage.adblock := true |}.

Definition adblock_fails : BrowserPage.ReqEnv :=
  {| BrowserPage.validateURL := Fulfilled tt;
     BrowserPage.adblocker_match := RejectedWith (Error "Invalid URL");
     BrowserPage.abort_awaited := Fulfilled tt;
     BrowserPage.continue_awaited := Fulfilled tt |}.

End Settling.

(** ** lib/TasksManager.ts: the life of a manager *)

Module Lifecycle.



(** No other coroutine touches the manager during the call. *)
Definition quiet {TaskResult Metrics : Type}
    (e : TasksManager.TaskEnv TaskResult Metrics) : Prop :=
  forall p m, TasksManager.interfere e p m = m.

(** The other coroutines leave the entry of the call alone: they may
    add and remove entries of their own, but no [stop()] clears the map
    while the call is suspended. *)
Definition entry_stays {TaskResult Metrics : Type}
    (e : TasksManager.TaskEnv TaskResult Metrics) : Prop :=
  forall p m,
    TasksManager.tasks (TasksManager.interfere e p m) !! TasksManager.uuid e
    = TasksManager.tasks m !! TasksManager.uuid e.

(** The errors reported to [report] during a call. *)
Definition reports (tr : list TasksManager.Effect) : list JsError :=
  omap (fun ev => match ev with
                  | TasksManager.EvReport err => Some err
                  | _ => None
                  end) tr.

(** [stop()] on a manager that has a browser, up to its suspension on
    [browser.stop()] at line 176: the tasks in flight have settled and
    the map has been cleared. *)
Definition stop_until_browser (m : TasksManager.Manager)
  : TasksManager.Manager :=
  TasksManager.set_tasks ∅ (TasksManager.set_stopping true m).

(** [stop()] from there on, once [browser.stop()] has fulfilled:
    line 177. *)
Definition stop_resume (m : TasksManager.Manager) : TasksManager.Manager :=
  TasksManager.set_browser None m.


End Lifecycle.

(** ** Specification side: the keys of the later manager's map *)

Module Keys.

(** [task()] stores a task under its own id. *)
Definition well_keyed (m : TasksManager2.Manager) : Prop :=
  forall k o, TasksManager2.tasks m !! k = Some o -> TasksManager2.ref o = k.

(** The ids [stop()] goes through, in the order of the map. *)
Definition ids (m : TasksManager2.Manager) : list string :=
  TasksManager2.ref <$> (snd <$> map_to_list (TasksManager2.tasks m)).

Definition one_entry : TasksManager2.Manager :=
  {| TasksManager2.browser := Some {| TasksManager2.isReady := true |};
     TasksManager2.stopping := false;
     TasksManager2.tasks := {[ "task-1" := {| TasksManager2.ref := "task-1" |} ]};
     TasksManager2.totalRun := 1 |}.

Definition tasks_fail : TasksManager2.StopEnv :=
  {| TasksManager2.promises := fun _ => RejectedWith (Error "Target closed");
     TasksManager2.browserStop := Fulfilled tt |}.

End Keys.


(** ** [RollingRenderer.stop] *)

Module PoolShutdown.
Import RollingRenderer.

(** The three suspension points of [stop()]. *)
Inductive Point :=
| AtPrevious   (* line 84 *)
| AtCurrent    (* line 86 *)
| AtFuture.    (* line 88 *)

(** How an awaited [Renderer.stop()] ends. It need not end: [stop] spins
    on [ready], which the constructor only sets once both pages of the
    buffer have been created. *)
Inductive Outcome :=
| Settles (s : settled unit)
| Pending.

Record Env := {
  previous : Outcome;   (* line 84 *)
  current : Outcome;    (* line 86 *)
  future : Outcome;     (* line 88 *)
  (* what the other coroutines did to the pool and to the renderers
     while [stop()] was suspended *)
  interfere : Point -> World -> World;
}.

(** [await promise] at point [p], then [k]. *)
Definition await (e : Env) (p : Point) (o : Outcome) (w : World)
    (k : World -> option (settled unit) * World)
  : option (settled unit) * World :=
  let w := interfere e p w in
  match o with
  | Pending => (None, w)
  | Settles (RejectedWith err) => (Some (RejectedWith err), w)
  | Settles (Fulfilled _) => k w
  end.

(** [stop()]; [None] when the call never settles. *)
Definition stop (e : Env) (w : World) : option (settled unit) * World :=
  let w := set_pool {| _stopping := true;
                       _currentRenderer := _currentRenderer (pool w);
                       _futureRenderer := _futureRenderer (pool w);
                       _previousStopPromise :=
                         _previousStopPromise (pool w) |} w in
  let rest (w : World) :=
    let w := begin_stop (_currentRenderer (pool w)) w in
    await e AtCurrent (current e) w (fun w =>
      match _futureRenderer (pool w) with
      | Some f =>
          let w := begin_stop f w in
          await e AtFuture (future e) w (fun w => (Some (Fulfilled tt), w))
      | None => (Some (Fulfilled tt), w)
      end) in
  match _previousStopPromise (pool w) with
  | Some _ => await e AtPrevious (previous e) w rest
  | None => rest w
  end.

(** What the other coroutines can do to a stopping pool: they neither
    change which renderers the pool refers to, nor create a renderer, nor
    touch the [_stopping] flag of one. *)
Definition evolves (w w' : World) : Prop :=
  _stopping (pool w') = _stopping (pool w) /\
  _currentRenderer (pool w') = _currentRenderer (pool w) /\
  _futureRenderer (pool w') = _futureRenderer (pool w) /\
  forall r, (Renderer._stopping <$> (heap w' !! r)) =
            (Renderer._stopping <$> (heap w !! r)).

Definition calm (e : Env) : Prop :=
  forall p w, _stopping (pool w) = true -> evolves w (interfere e p w).

(** Every renderer created so far has been asked to stop. *)
Definition all_stopping (w : World) : Prop :=
  forall r o, heap w !! r = Some o -> Renderer._stopping o = true.

(** Renderer [r], if it has been created, has been asked to stop. *)
Definition asked (w : World) (r : nat) : Prop :=
  forall o, heap w !! r = Some o -> Renderer._stopping o = true.

(** The other coroutines let a renderer finish warming up. *)
Definition warm_up (r : nat) (w : World) : World :=
  {| pool := pool w;
     heap := alter (Renderer.set_ready true) r (heap w);
     stops := stops w |}.

Definition all_settle : Env :=
  {| previous := Settles (Fulfilled tt);
     current := Settles (Fulfilled tt);
     future := Settles (Fulfilled tt);
     interfere := fun _ => warm_up 1 |}.

Definition previous_fails : Env :=
  {| previous := Settles (RejectedWith (Error "Target closed"));
     current := Settles (Fulfilled tt);
     future := Settles (Fulfilled tt);
     interfere := fun _ w => w |}.

End PoolShutdown.

(** ** [helpers/gracefulClose.ts] *)

Module GracefulClose.

Inductive Effect :=
| EvLog (line : string)
| EvApiStop        (* line 16 *)
| EvManagerStop    (* line 24 *)
| EvDrain          (* line 37 *)
| EvExit.          (* line 40 *)

(** How an awaited promise ends, if it does. *)
Inductive Outcome :=
| Settles (s : settled unit)
| Pending.

(** What the collaborators answer during one call. *)
Record Env := {
  apiStopped : bool;      (* line 16: the server calls back *)
  managerStop : Outcome;  (* line 24 *)
  drain : Outcome;        (* line 37 *)
}.

(** The module-level flag, and what has been done so far. *)
Record St := {
  gracefullyClosing : bool;
  trace : list Effect;
}.

Definition init : St := {| gracefullyClosing := false; trace := [] |}.

Definition emit (ev : Effect) (s : St) : St :=
  {| gracefullyClosing := gracefullyClosing s;
     trace := (trace s ++ [ev])%list |}.

(** How one call ends. [process.exit] does not return. *)
Inductive Result :=
| Returned
| Rejected (err : JsError)
| Hangs
| Exited.

(** [close(opts)], then [k] when it fulfils. *)
Definition close (e : Env) (s : St) (k : St -> Result * St) : Result * St :=
  let s := emit (EvLog "[API] Shutting down") s in
  let s := emit EvApiStop s in
  if negb (apiStopped e) then (Hangs, s)
  else
    let s := emit (EvLog "[API] Shut down") s in
    let s := emit EvManagerStop s in
    match managerStop e with
    | Pending => (Hangs, s)
    | Settles (RejectedWith err) => (Rejected err, s)
    | Settles (Fulfilled _) =>
        k (emit (EvLog "Gracefully stopped everything") s)
    end.

(** [gracefulClose(opts)] *)
Definition gracefulClose (e : Env) (s : St) : Result * St :=
  (* If we receive multiple signals, swallow them *)
  if gracefullyClosing s then (Returned, s)
  else
    let s := {| gracefullyClosing := true; trace := trace s |} in
    close e s (fun s =>
      let s := emit EvDrain s in
      match drain e with
      | Pending => (Hangs, s)
      | Settles (RejectedWith err) => (Rejected err, s)
      | Settles (Fulfilled _) => (Exited, emit EvExit s)
      end).

(** One call per signal received. A call made while an earlier one is
    suspended runs to its end at once, so the calls are taken in the
    order they start. *)
Fixpoint signals (es : list Env) (s : St) : list Result * St :=
  match es with
  | [] => ([], s)
  | e :: es =>
      let '(r, s) := gracefulClose e s in
      let '(rs, s) := signals es s in
      (r :: rs, s)
  end.

End GracefulClose.

(** ** The page buffer of [Renderer] *)

Module PageBuffer.

Definition PAGE_BUFFER_SIZE : nat := 2.

(** A page, or rather the promise of one, is named after the call to
    [_createNewPage] that made it: the first call makes page 0. *)
Record St := {
  _pageBuffer : list nat;
  created : nat;     (* calls to [_createNewPage] so far *)
}.

(** [_createNewPage()], seen from its caller. *)
Definition _createNewPage (s : St) : nat * St :=
  (created s, {| _pageBuffer := _pageBuffer s; created := S (created s) |}).

(** The buffer set up by the constructor:
    [Array.from(new Array(PAGE_BUFFER_SIZE), () => this._createNewPage())]. *)
Fixpoint fill (n : nat) (s : St) : St :=
  match n with
  | O => s
  | S n =>
      let '(p, s) := _createNewPage s in
      fill n {| _pageBuffer := (_pageBuffer s ++ [p])%list;
                created := created s |}
  end.

Definition new : St := fill PAGE_BUFFER_SIZE {| _pageBuffer := []; created := 0 |}.

(** [_newPage()]: the promise it awaits; [None] when [shift()] answers
    [undefined]. *)
Definition _newPage (s : St) : option nat * St :=
  let '(p, s) := _createNewPage s in
  match (_pageBuffer s ++ [p])%list with
  | first :: rest =>
      (Some first, {| _pageBuffer := rest; created := created s |})
  | [] => (None, s)
  end.

(** The pages handed out by [n] calls in a row. *)
Fixpoint calls (n : nat) (s : St) : list (option nat) * St :=
  match n with
  | O => ([], s)
  | S n =>
      let '(p, s) := _newPage s in
      let '(ps, s) := calls n s in
      (p :: ps, s)
  end.

End PageBuffer.

(** ** The health route *)

Module HealthRoute.

(** What one request finds. *)
Record Env := {
  isReady : bool;                     (* line 39 *)
  renderer_ready : settled bool;      (* line 46: [renderer.ready] *)
  renderer_healthy : settled bool;    (* line 46: [renderer.healthy()] *)
}.

Inductive Answer :=
| Status (code : Z)
| Throws (err : JsError).

(** [healthy(req, res)], on the module-level [readyOnce]. *)
Definition healthy (e : Env) (readyOnce : bool) : Answer * bool :=
  (* The system cannot be checked for healthyness unless it has already
     started *)
  let readyOnce := if negb readyOnce then isReady e else readyOnce in
  if negb readyOnce then (Status 200, readyOnce)
  else
    match renderer_ready e with
    | RejectedWith err => (Throws err, readyOnce)
    | Fulfilled false => (Status 503, readyOnce)
    | Fulfilled true =>
        match renderer_healthy e with
        | RejectedWith err => (Throws err, readyOnce)
        | Fulfilled isHealthy =>
            (Status (if isHealthy then 200 else 503), readyOnce)
        end
    end.

Fixpoint requests (es : list Env) (readyOnce : bool) : list Answer * bool :=
  match es with
  | [] => ([], readyOnce)
  | e :: es =>
      let '(a, readyOnce) := healthy e readyOnce in
      let '(rest, readyOnce) := requests es readyOnce in
      (a :: rest, readyOnce)
  end.

End HealthRoute.

(** ** Specification side: the answer of the renderer *)

Module HealthSpec.

(** What a health probe answers when it goes by the renderer alone:
    [ready] is what the getter [renderer.ready] gives and [healthy] what
    [renderer.healthy()] settles to, each of which may throw. 200 when
    both are true, 503 when one is false, the error when one throws;
    [healthy] is not asked for when [ready] is false. *)
Definition renderer_answer (ready healthy : settled bool)
  : HealthRoute.Answer :=
  match ready, healthy with
  | RejectedWith err, _ => HealthRoute.Throws err
  | Fulfilled false, _ => HealthRoute.Status 503
  | Fulfilled true, RejectedWith err => HealthRoute.Throws err
  | Fulfilled true, Fulfilled true => HealthRoute.Status 200
  | Fulfilled true, Fulfilled false => HealthRoute.Status 503
  end.

End HealthSpec.

(** ** Rewriting the host of a URL *)

Module Hosts.

Definition DOCKER_LOCALHOST : string := "host.docker.internal".

(** The regular expressions [replaceHost] builds have the form
    [^from(:|$)]. The two values of [from] used are made of letters and
    dots; a dot in a regular expression stands for any character but a
    line terminator. *)
Inductive Atom :=
| Lit (c : Ascii.ascii)
| AnyChar.

Definition dot : Ascii.ascii :=
  Ascii.Ascii false true true true false true false false.
Definition colon : Ascii.ascii :=
  Ascii.Ascii false true false true true true false false.
Definition LF : Ascii.ascii :=
  Ascii.Ascii false true false true false false false false.
Definition CR : Ascii.ascii :=
  Ascii.Ascii true false true true false false false false.

Fixpoint atoms (from : string) : list Atom :=
  match from with
  | EmptyString => []
  | String c rest =>
      (if Ascii.eqb c dot then AnyChar else Lit c) :: atoms rest
  end.

Definition matches (a : Atom) (c : Ascii.ascii) : bool :=
  match a with
  | Lit l => Ascii.eqb l c
  | AnyChar => negb (Ascii.eqb c LF || Ascii.eqb c CR)
  end.

(** Matching [^from]: what is left of the host after the match. *)
Fixpoint strip (pat : list Atom) (host : string) : option string :=
  match pat, host with
  | [], _ => Some host
  | a :: pat, String c rest =>
      if matches a c then strip pat rest else None
  | _ :: _, EmptyString => None
  end.

(** [host.replace(new RegExp(`^${from}(:|$)`), `${to}$1`)] *)
Definition replace (from to host : string) : string :=
  match strip (atoms from) host with
  | Some EmptyString => to
  | Some (String c rest) =>
      if Ascii.eqb c colon then to +:+ String c rest else host
  | None => host
  end.

(** A URL, as far as these functions read or write it. *)
Record URL := {
  protocol : string;
  host : string;      (* with the port, if any *)
  pathname : string;
}.

(** [replaceHost(url, from, to)] *)
Definition replaceHost (url : URL) (from to : string) : URL :=
  {| protocol := protocol url;
     host := replace from to (host url);
     pathname := pathname url |}.

Section Env.
  Variable USE_DOCKER_LOCALHOST : string.   (* process.env *)

(** [revertUrl], from the URL its argument parses to. *)
Definition revertUrl (url : URL) : URL :=
  if negb (String.eqb USE_DOCKER_LOCALHOST "true") then url
  else replaceHost url DOCKER_LOCALHOST "localhost".

(** [buildUrl], from the URL its argument parses to. *)
Definition buildUrl (url : URL) : URL :=
  if negb (String.eqb USE_DOCKER_LOCALHOST "true") then url
  else replaceHost url "localhost" DOCKER_LOCALHOST.

End Env.

(** No dot: the regular expression matches the string itself only. *)
Fixpoint plain (s : string) : bool :=
  match s with
  | EmptyString => true
  | String c rest => negb (Ascii.eqb c dot) && plain rest
  end.

(** A character a dot stands for. *)
Definition ordinary (c : Ascii.ascii) : bool :=
  negb (Ascii.eqb c LF || Ascii.eqb c CR).

(** The host is the docker alias, or looks like it to [revertUrl]. *)
Definition docker_like (h : string) : bool :=
  match strip (atoms DOCKER_LOCALHOST) h with
  | Some EmptyString => true
  | Some (String c _) => Ascii.eqb c colon
  | None => false
  end.

End Hosts.

(** ** Specification side: the clock of [PageTask.process] *)

Module Timing.

(** The reads of [Date.now()] do not go back in time. *)
Definition monotone (e : PageTask.Env) : Prop :=
  PageTask.now_total e <= PageTask.now_goto_start e /\
  PageTask.now_goto_start e <= PageTask.now_goto_end e /\
  PageTask.now_goto_end e <= PageTask.now_minWait_start e /\
  PageTask.now_minWait_start e <= PageTask.now_minWait_check e /\
  PageTask.now_minWait_check e <= PageTask.now_minWait_end e /\
  PageTask.now_minWait_end e <= PageTask.now_serialize_start e /\
  PageTask.now_serialize_start e <= PageTask.now_serialize_end e /\
  PageTask.now_serialize_end e <= PageTask.now_stats e /\
  PageTask.now_stats e <= PageTask.now_total_end e.

Definition a_render : PageTask.RenderTaskParams :=
  {| PageTask.url := {| PageTask.href := "http://a.test/";
                        PageTask.protocol := "http:";
                        PageTask.host := "a.test" |};
     PageTask.waitTime := {| PageTask.min := Some 1000;
                             PageTask.max := Some 10000 |} |}.

End Timing.

(** ** Specification side: a pool whose retired renderer failed to stop *)

Module Frozen.
Import RollingRenderer.

(** The promise of a previous stop is still held, and no stop is
    pending: the stop it tracked has rejected, so that its [then]
    callback, which alone resets [_previousStopPromise], will never
    run. *)
Definition stuck (w : World) : Prop :=
  is_Some (_previousStopPromise (pool w)) /\ stops w = [].

Section Runs.
  Variable MAX_RENDERER_TASKS : Z.

(** What a pool can come to from a given state. *)
Inductive run_from (w : World) : World -> Prop :=
| run_here : run_from w w
| run_step w1 l w2 :
    run_from w w1 -> step MAX_RENDERER_TASKS w1 l w2 -> run_from w w2.

End Runs.

(** The pool of [Rolling.promoted] once the renderer it retired has
    finished warming up ... *)
Definition retired_ready : World :=
  {| pool := pool Rolling.promoted;
     heap := <[0%nat := Renderer.set_ready true (deref Rolling.promoted 0)]>
               (heap Rolling.promoted);
     stops := stops Rolling.promoted |}.

(** ... and once its stop has rejected. *)
Definition stop_failed : World :=
  {| pool := pool retired_ready;
     heap := heap retired_ready;
     stops := remove_stop 0 (stops retired_ready) |}.

End Frozen.

(** * Properties *)

(** ** The embedding at work *)

(** A 200 page with a minimum wait of one second: the task sleeps the
    800 ms that are left and returns the page. *)
Example process_ok_page :
  PageTask.run Serialization.a_render MinWait.ok_page =
  (Fulfilled tt,
   {| PageTask.task :=
        {| PageTask._results :=
             Some {| PageTask.statusCode := Some 200;
                     PageTask.res_headers := Some [];
                     PageTask.body := Some "<html></html>";
                     PageTask.resolvedUrl := Some "http://a.test/";
                     PageTask.error := None;
                     PageTask.timeout := None |};
           PageTask._metrics :=
             {| PageTask.m_goto := Some 200;
                PageTask.m_minWait := Some 800;
                PageTask.m_serialize := Some 10;
                PageTask.m_total := Some 1011 |} |};
      PageTask.trace :=
        [PageTask.EvGoto (PageTask.url Serialization.a_render) (Some 10000);
         PageTask.EvInjectBaseHref "http://a.test";
         PageTask.EvWaitForTimeout 800;
         PageTask.EvDebugger;
         PageTask.EvEvaluate "window.location.href";
         PageTask.EvEvaluate "document.firstElementChild.outerHTML";
         PageTask.EvEvaluate "window.location.href";
         PageTask.EvStatsTiming "renderscript.page.serialize" 10;
         PageTask.EvContextClose] |}).
Proof. reflexivity. Qed.

(** An image is counted, counted as blocked, and aborted, without
    consulting the ad blocker. *)
Example listener_blocks_image :
  BrowserPage.handle Filter.data_uri Filter.ignored Filter.restricted
    Filter.some_task
    {| BrowserPage.req_url := "http://a.test/logo.png";
       BrowserPage.resourceType := "image";
       BrowserPage.isNavigationRequest := false;
       BrowserPage.req_headers := ∅ |}
    {| BrowserPage.validateURL := Fulfilled tt;
       BrowserPage.adblocker_match := Fulfilled false;
       BrowserPage.abort_awaited := Fulfilled tt;
       BrowserPage.continue_awaited := Fulfilled tt |}
    BrowserPage.new_metrics =
  (Fulfilled tt,
   {| BrowserPage.metrics :=
        {| BrowserPage.requests := 1; BrowserPage.blockedRequests := 1;
           BrowserPage.contentLength := 0;
           BrowserPage.contentLengthTotal := 0 |};
      BrowserPage.trace :=
        [BrowserPage.EvIncrRequests;
         BrowserPage.EvValidateURL "http://a.test/logo.png" Filter.restricted;
         BrowserPage.EvIncrBlocked; BrowserPage.EvAbort] |}).
Proof. reflexivity. Qed.

(** A render that goes well leaves the manager as it found it. *)
Example manager_runs_a_render :
  TasksManager.task Managers.a_job Managers.all_well Managers.launched =
  (Fulfilled {| TasksManager.res := tt; TasksManager.metrics := tt |},
   {| TasksManager.mgr := Managers.launched;
      TasksManager.trace :=
        [TasksManager.EvLog "Processing"; TasksManager.EvPageCreate;
         TasksManager.EvWait; TasksManager.EvLinkToTask;
         TasksManager.EvProcess; TasksManager.EvTaskClose;
         TasksManager.EvStats; TasksManager.EvLog "Done";
         TasksManager.EvLog "Finally"; TasksManager.EvTaskClose] |}).
Proof. vm_compute. reflexivity. Qed.

(** [stop()] on a manager with a render in flight waits for it, empties
    the map and stops the browser. *)
Example manager_stops :
  TasksManager.stop Managers.stop_well Managers.one_in_flight =
  (Fulfilled tt,
   {| TasksManager.mgr := Managers.stopped;
      TasksManager.trace :=
        [TasksManager.EvLog "Tasks Manager stopping...";
         TasksManager.EvAwaitTasks 1; TasksManager.EvBrowserStop] |}).
Proof. vm_compute. reflexivity. Qed.

(** ** What a final result carries *)

(** [_processPage] on a slow page: status code, body and [timeout: true]
    in one result. *)
Lemma slow_page_result :
  fst (Renderer.run ResultShape.a_job ResultShape.slow_page) =
  Fulfilled {| Renderer.statusCode := Some 200;
               Renderer.body := Some "<html></html>";
               Renderer.res_headers := Some ∅;
               Renderer.timeout := Some true;
               Renderer.error := None;
               Renderer.resolvedUrl := Some "http://a.test/" |}.
Proof. reflexivity. Qed.

(** C1, as stated, fails: the result of [_processPage] on [ResultShape.slow_page]
    populates both status code + body and timeout. *)
Lemma C1_counterexample :
  exists r, fst (Renderer.run ResultShape.a_job ResultShape.slow_page) = Fulfilled r /\
            Renderer.statusCode r = Some 200 /\
            Renderer.body r = Some "<html></html>" /\
            Renderer.timeout r = Some true /\
            ~ ResultShape.exactly_one (ResultShape.renderer_populated r).
Proof.
  eexists. split; [apply slow_page_result|].
  repeat split. unfold ResultShape.exactly_one. cbn. discriminate.
Qed.

Lemma page_shape p e r :
  PageTask.results p e = Some r -> ResultShape.page_error r \/ ResultShape.page_success r.
Proof.
  destruct e as [t0 t1 g t2 ib t3 t4 w t5 t6 d pre html post t7 t8 c t9].
  run_async. cbn [PageTask.goto PageTask.injectBaseHref PageTask.waitForTimeout
                  PageTask.debugger PageTask.preSerializationUrl
                  PageTask.outerHTML PageTask.postSerializationUrl
                  PageTask.contextClose].
  destruct g as [resp|err]; [|intros [= <-]; left; repeat split].
  destruct ib as [[]|?]; [|discriminate].
  destruct (_ && _); [destruct w as [[]|?]; [|discriminate]|];
    (destruct d as [[]|?]; [|discriminate]);
    (destruct pre as [u1|?]; [|discriminate]);
    (destruct html as [b|?]; [|discriminate]);
    (destruct post as [u2|?]; [|discriminate]);
    (destruct c as [[]|?]; [|discriminate]);
    (destruct (negb (u1 =? u2)%string); intros [= <-];
     [left | right]; repeat split).
Qed.

Lemma renderer_shape task e r :
  fst (Renderer.run task e) = Fulfilled r ->
  ResultShape.renderer_error r \/ ResultShape.renderer_success r.
Proof.
  destruct e as [np dc fr g ib d pre html post c].
  run_async. cbn [Renderer.newPage Renderer.defineRequestContext
                  Renderer.firstResponse Renderer.goto
                  Renderer.injectBaseHref Renderer.debugger
                  Renderer.preSerializationUrl Renderer.outerHTML
                  Renderer.postSerializationUrl Renderer.contextClose].
  destruct np as [[]|?]; [|discriminate].
  destruct dc as [[]|?]; [|discriminate].
  assert (Hresp : forall (resp : option Renderer.Response) (tm : bool) tr,
    fst (match resp with
         | None => ret (Renderer.error_only "no_response")
         | Some response =>
             Renderer.await (Renderer.EvInjectBaseHref
               (Renderer.protocol (Renderer.url task) +:+ "//" +:+
                Renderer.host (Renderer.url task))) ib ;;;
             Renderer.await Renderer.EvDebugger d ;;;
             preUrl <- Renderer.await (Renderer.EvEvaluate "window.location.href") pre ;;
             body_ <- Renderer.await
               (Renderer.EvEvaluate "document.firstElementChild.outerHTML") html ;;
             resolvedUrl_ <- Renderer.await
               (Renderer.EvEvaluate "window.location.href") post ;;
             Renderer.await Renderer.EvContextClose c ;;;
             if negb (String.eqb preUrl resolvedUrl_)
             then ret (Renderer.error_only "unsafe_redirect")
             else ret {| Renderer.statusCode := Some (Renderer.status response);
                         Renderer.res_headers := Some (Renderer.headers response);
                         Renderer.body := Some body_;
                         Renderer.timeout := Some tm;
                         Renderer.error := None;
                         Renderer.resolvedUrl := Some resolvedUrl_ |}
         end tr) = Fulfilled r ->
    ResultShape.renderer_error r \/ ResultShape.renderer_success r).
  { intros [resp|] tm tr; run_async;
      [|intros [= <-]; left; repeat split].
    destruct ib as [[]|?]; [|discriminate].
    destruct d as [[]|?]; [|discriminate].
    destruct pre as [u1|?]; [|discriminate].
    destruct html as [b|?]; [|discriminate].
    destruct post as [u2|?]; [|discriminate].
    destruct c as [[]|?]; [|discriminate].
    destruct (negb (u1 =? u2)%string); intros [= <-];
      [left | right]; repeat split. }
  destruct g as [resp|err]; apply Hresp.
Qed.

(** Whenever every evaluation on the page fulfils, [process] leaves a
    result, whether the navigation succeeded or not. *)
Lemma page_result_produced p e resp pre html post :
  Serialization.page_serializes e resp pre html post ->
  exists r, PageTask.results p e = Some r.
Proof.
  destruct e as [t0 t1 g t2 ib t3 t4 w t5 t6 d pr ht po t7 t8 c t9].
  unfold Serialization.page_serializes; cbn.
  intros (-> & -> & -> & -> & -> & -> & -> & ->).
  run_async. cbn.
  destruct (_ && _); destruct (negb _); eexists; reflexivity.
Qed.

Lemma renderer_result_produced task e resp pre html post :
  Serialization.renderer_serializes e resp pre html post ->
  exists r, fst (Renderer.run task e) = Fulfilled r.
Proof.
  destruct e as [np dc fr g ib d pr ht po c].
  unfold Serialization.renderer_serializes, Serialization.navigation_response;
    cbn.
  intros (-> & -> & Hnav & -> & -> & -> & -> & -> & ->).
  run_async. cbn.
  destruct g as [r|err]; cbn in Hnav; subst; cbn; destruct (negb _);
    eexists; reflexivity.
Qed.

Lemma page_failed_navigation p e err :
  PageTask.goto e = RejectedWith err ->
  PageTask.results p e =
    Some {| PageTask.statusCode := None; PageTask.res_headers := None;
            PageTask.body := None; PageTask.resolvedUrl := None;
            PageTask.error := Some (message err);
            PageTask.timeout := Some (Boolean (err_timeout err)) |}.
Proof.
  intros Hg. run_async. rewrite Hg. reflexivity.
Qed.

Lemma page_flag_after_navigation p e resp r :
  PageTask.goto e = Fulfilled resp ->
  PageTask.results p e = Some r ->
  PageTask.timeout r = None /\
  (PageTask.error r = None \/ PageTask.error r = Some "unsafe_redirect").
Proof.
  destruct e as [t0 t1 g t2 ib t3 t4 w t5 t6 d pre html post t7 t8 c t9].
  cbn. intros ->.
  run_async. cbn [PageTask.goto PageTask.injectBaseHref PageTask.waitForTimeout
                  PageTask.debugger PageTask.preSerializationUrl
                  PageTask.outerHTML PageTask.postSerializationUrl
                  PageTask.contextClose].
  destruct ib as [[]|?]; [|discriminate].
  destruct (_ && _); [destruct w as [[]|?]; [|discriminate]|];
    (destruct d as [[]|?]; [|discriminate]);
    (destruct pre as [u1|?]; [|discriminate]);
    (destruct html as [b|?]; [|discriminate]);
    (destruct post as [u2|?]; [|discriminate]);
    (destruct c as [[]|?]; [|discriminate]);
    (destruct (negb (u1 =? u2)%string); intros [= <-]; cbn; auto).
Qed.

Lemma renderer_flag task e r :
  fst (Renderer.run task e) = Fulfilled r ->
  match Renderer.error r with
  | Some msg =>
      (msg = "no_response" \/ msg = "unsafe_redirect") /\
      Renderer.timeout r = None
  | None =>
      Renderer.timeout r =
        Some match Renderer.goto e with
             | Fulfilled _ => false
             | RejectedWith err =>
                 includes "Navigation Timeout Exceeded" (message err)
             end
  end.
Proof.
  destruct e as [np dc fr g ib d pre html post c].
  run_async. cbn [Renderer.newPage Renderer.defineRequestContext
                  Renderer.firstResponse Renderer.goto
                  Renderer.injectBaseHref Renderer.debugger
                  Renderer.preSerializationUrl Renderer.outerHTML
                  Renderer.postSerializationUrl Renderer.contextClose].
  destruct np as [[]|?]; [|discriminate].
  destruct dc as [[]|?]; [|discriminate].
  destruct g as [[resp|]|err]; [| |destruct fr as [resp|]]; cbn;
    try (intros [= <-]; cbn; by auto);
    (destruct ib as [[]|?]; [|discriminate]);
    (destruct d as [[]|?]; [|discriminate]);
    (destruct pre as [u1|?]; [|discriminate]);
    (destruct html as [b|?]; [|discriminate]);
    (destruct post as [u2|?]; [|discriminate]);
    (destruct c as [[]|?]; [|discriminate]);
    (destruct (negb (u1 =? u2)%string); intros [= <-]; cbn; by auto).
Qed.

(** C1 (amended): a final result is an error or a success, never both. An
    error result ([no_response], [unsafe_redirect] or the message of the
    navigation error) carries no status code, headers, body or resolved
    URL; a success carries status code and body and no error. The timeout
    flag is not exclusive with them. [PageTask.process] sets it, to
    [Boolean(err.timeout)], next to the error of a failed navigation, and
    on nothing else: neither on an unsafe redirect nor on a success.
    [Renderer._processPage] sets it on every success, to whether the
    navigation ended on a timeout, and on no error. A run in which no
    evaluation on the page rejects does end with such a result. *)
Theorem C1_error_xor_success :
  (forall p e r, PageTask.results p e = Some r ->
     ResultShape.page_error r \/ ResultShape.page_success r) /\
  (forall task e r, fst (Renderer.run task e) = Fulfilled r ->
     ResultShape.renderer_error r \/ ResultShape.renderer_success r) /\
  (forall p e resp pre html post,
     Serialization.page_serializes e resp pre html post ->
     exists r, PageTask.results p e = Some r) /\
  (forall task e resp pre html post,
     Serialization.renderer_serializes e resp pre html post ->
     exists r, fst (Renderer.run task e) = Fulfilled r) /\
  (forall p e err,
     PageTask.goto e = RejectedWith err ->
     PageTask.results p e =
       Some {| PageTask.statusCode := None; PageTask.res_headers := None;
               PageTask.body := None; PageTask.resolvedUrl := None;
               PageTask.error := Some (message err);
               PageTask.timeout := Some (Boolean (err_timeout err)) |}) /\
  (forall p e resp r,
     PageTask.goto e = Fulfilled resp ->
     PageTask.results p e = Some r ->
     PageTask.timeout r = None /\
     (PageTask.error r = None \/
      PageTask.error r = Some "unsafe_redirect")) /\
  (forall task e r,
     fst (Renderer.run task e) = Fulfilled r ->
     match Renderer.error r with
     | Some msg =>
         (msg = "no_response" \/ msg = "unsafe_redirect") /\
         Renderer.timeout r = None
     | None =>
         Renderer.timeout r =
           Some match Renderer.goto e with
                | Fulfilled _ => false
                | RejectedWith err =>
                    includes "Navigation Timeout Exceeded" (message err)
                end
     end).
Proof.
  split; [|split; [|split; [|split; [|split; [|split]]]]].
  - apply page_shape.
  - apply renderer_shape.
  - intros. eapply page_result_produced; eassumption.
  - intros. eapply renderer_result_produced; eassumption.
  - apply page_failed_navigation.
  - apply page_flag_after_navigation.
  - apply renderer_flag.
Qed.

(** The result of the slow page is a success, timeout flag and all. *)
Lemma C1_error_xor_success_witness :
  ResultShape.renderer_error
    {| Renderer.statusCode := Some 200;
       Renderer.body := Some "<html></html>";
       Renderer.res_headers := Some ∅;
       Renderer.timeout := Some true;
       Renderer.error := None;
       Renderer.resolvedUrl := Some "http://a.test/" |} \/
  ResultShape.renderer_success
    {| Renderer.statusCode := Some 200;
       Renderer.body := Some "<html></html>";
       Renderer.res_headers := Some ∅;
       Renderer.timeout := Some true;
       Renderer.error := None;
       Renderer.resolvedUrl := Some "http://a.test/" |}.
Proof.
  exact (proj1 (proj2 C1_error_xor_success)
           ResultShape.a_job ResultShape.slow_page _ slow_page_result).
Defined.

(** ** The unsafe-redirect check *)

Lemma page_unsafe_redirect_result p e resp pre html post :
  Serialization.page_reads_done p e resp pre html post ->
  pre <> post ->
  match PageTask.contextClose e with
  | Fulfilled _ =>
      fst (PageTask.run p e) = Fulfilled tt /\
      PageTask.results p e = Some Serialization.page_unsafe_redirect
  | RejectedWith err =>
      fst (PageTask.run p e) = RejectedWith err /\
      PageTask.results p e = None
  end.
Proof.
  destruct e as [t0 t1 g t2 ib t3 t4 w t5 t6 d pr ht po t7 t8 c t9].
  unfold Serialization.page_reads_done; cbn.
  intros (-> & -> & Hw & -> & -> & -> & ->) Hne.
  apply String.eqb_neq in Hne.
  run_async. cbn.
  destruct (_ && _); [rewrite (Hw eq_refl)|];
    destruct c as [[]|err]; cbn; rewrite ?Hne; cbn;
    split; reflexivity.
Qed.

Lemma page_reads p e resp pre html post :
  Serialization.page_reads_done p e resp pre html post ->
  Serialization.page_reads_around_html
    (PageTask.trace (snd (PageTask.run p e))).
Proof.
  destruct e as [t0 t1 g t2 ib t3 t4 w t5 t6 d pr ht po t7 t8 c t9].
  unfold Serialization.page_reads_done; cbn.
  intros (-> & -> & Hw & -> & -> & -> & ->).
  unfold Serialization.page_reads_around_html.
  run_async. cbn.
  destruct (_ && _); [rewrite (Hw eq_refl)|];
    destruct c as [[]|err]; try destruct (negb _); cbn.
  all: match goal with
       | |- exists l1 l2, ?a :: ?b :: ?c :: PageTask.EvDebugger :: ?rest = _ /\ _ =>
           exists [a; b; c; PageTask.EvDebugger]
       | |- exists l1 l2, ?a :: ?b :: PageTask.EvDebugger :: ?rest = _ /\ _ =>
           exists [a; b; PageTask.EvDebugger]
       end; eexists; (split; [reflexivity|]);
       cbn; intros x H; repeat (destruct H as [H|H]; [discriminate|]); exact H.
Qed.

Lemma renderer_unsafe_redirect_result task e resp pre html post :
  Serialization.renderer_reads_done e resp pre html post ->
  pre <> post ->
  fst (Renderer.run task e) =
    match Renderer.contextClose e with
    | Fulfilled _ => Fulfilled Serialization.renderer_unsafe_redirect
    | RejectedWith err => RejectedWith err
    end.
Proof.
  destruct e as [np dc fr g ib d pr ht po c].
  unfold Serialization.renderer_reads_done, Serialization.navigation_response;
    cbn.
  intros (-> & -> & Hnav & -> & -> & -> & -> & ->) Hne.
  apply String.eqb_neq in Hne.
  run_async. cbn.
  destruct g as [r|err]; cbn in Hnav; subst; cbn;
    destruct c as [[]|cerr]; cbn; rewrite ?Hne; reflexivity.
Qed.

Lemma renderer_reads task e resp pre html post :
  Serialization.renderer_reads_done e resp pre html post ->
  Serialization.renderer_reads_around_html (snd (Renderer.run task e)).
Proof.
  destruct e as [np dc fr g ib d pr ht po c].
  unfold Serialization.renderer_reads_done, Serialization.navigation_response;
    cbn.
  intros (-> & -> & Hnav & -> & -> & -> & -> & ->).
  unfold Serialization.renderer_reads_around_html.
  run_async. cbn.
  destruct g as [r|err]; cbn in Hnav; subst; cbn;
    destruct c as [[]|cerr]; cbn; try destruct (negb _); cbn.
  all: match goal with
       | |- exists l1 l2, ?a :: ?b :: ?c :: ?d :: Renderer.EvDebugger :: ?rest = _ /\ _ =>
           exists [a; b; c; d; Renderer.EvDebugger]
       end; eexists; (split; [reflexivity|]);
       cbn; intros x H; repeat (destruct H as [H|H]; [discriminate|]); exact H.
Qed.

(** Whatever else happens, two differing reads never come with the HTML,
    the status code or the headers. *)
Lemma page_redirect_returns_nothing p e pre post r :
  PageTask.preSerializationUrl e = Fulfilled pre ->
  PageTask.postSerializationUrl e = Fulfilled post ->
  pre <> post ->
  PageTask.results p e = Some r ->
  PageTask.statusCode r = None /\ PageTask.body r = None /\
  PageTask.res_headers r = None.
Proof.
  destruct e as [t0 t1 g t2 ib t3 t4 w t5 t6 d pr ht po t7 t8 c t9].
  cbn. intros -> -> Hne. apply String.eqb_neq in Hne.
  run_async. cbn.
  destruct g as [resp|err]; [|by intros [= <-]].
  destruct ib as [[]|?]; [|discriminate].
  destruct (_ && _); [destruct w as [[]|?]; [|discriminate]|];
    (destruct d as [[]|?]; [|discriminate]);
    (destruct ht as [b|?]; [|discriminate]);
    (destruct c as [[]|?]; [|discriminate]);
    rewrite Hne; by intros [= <-].
Qed.

Lemma renderer_redirect_returns_nothing task e pre post r :
  Renderer.preSerializationUrl e = Fulfilled pre ->
  Renderer.postSerializationUrl e = Fulfilled post ->
  pre <> post ->
  fst (Renderer.run task e) = Fulfilled r ->
  Renderer.statusCode r = None /\ Renderer.body r = None /\
  Renderer.res_headers r = None.
Proof.
  destruct e as [np dc fr g ib d pr ht po c].
  cbn. intros -> -> Hne. apply String.eqb_neq in Hne.
  run_async. cbn.
  destruct np as [[]|?]; [|discriminate].
  destruct dc as [[]|?]; [|discriminate].
  destruct g as [[resp|]|err]; [| |destruct fr as [resp|]]; cbn;
    try (by intros [= <-]);
    (destruct ib as [[]|?]; [|discriminate]);
    (destruct d as [[]|?]; [|discriminate]);
    (destruct ht as [b|?]; [|discriminate]);
    (destruct c as [[]|?]; [|discriminate]);
    rewrite Hne; by intros [= <-].
Qed.

(** C2, as stated, fails: the page is read before and after the HTML,
    the two reads differ, and the task has no result at all, because
    [context.close()], awaited between the second read and the
    comparison, rejected and [process] with it. *)
Lemma C2_counterexample :
  Serialization.page_reads_around_html
    (PageTask.trace
       (snd (PageTask.run Serialization.a_render
               Serialization.redirecting_page_close_fails))) /\
  PageTask.preSerializationUrl Serialization.redirecting_page_close_fails
    = Fulfilled "http://a.test/" /\
  PageTask.postSerializationUrl Serialization.redirecting_page_close_fails
    = Fulfilled "http://evil.test/" /\
  fst (PageTask.run Serialization.a_render
         Serialization.redirecting_page_close_fails) =
    RejectedWith
      (Error "Protocol error (Target.disposeBrowserContext): Target closed.") /\
  PageTask.results Serialization.a_render
    Serialization.redirecting_page_close_fails = None /\
  PageTask.results Serialization.a_render
    Serialization.redirecting_page_close_fails
    <> Some Serialization.page_unsafe_redirect.
Proof.
  split; [|repeat split; discriminate].
  exists [PageTask.EvGoto (PageTask.url Serialization.a_render) (Some 10000);
          PageTask.EvInjectBaseHref "http://a.test";
          PageTask.EvWaitForTimeout 799;
          PageTask.EvDebugger].
  eexists. split; [reflexivity|].
  cbn. intros x H. repeat (destruct H as [H|H]; [discriminate|]). exact H.
Qed.

(** C2 (amended): in both [PageTask.process] and
    [Renderer._processPage] the page URL is read right before and right
    after the HTML is extracted, and [context.close()] is awaited before
    the two reads are compared. When the reads differ and
    [context.close()] fulfils, the result is [{ error: 'unsafe_redirect' }]
    alone: no status code, no headers, no body. When the reads differ and
    [context.close()] rejects, the call rejects with that error and there
    is no result. In no run do two differing reads come with the HTML,
    the status code or the headers. *)
Theorem C2_unsafe_redirect_rejected :
  (forall p e resp pre html post,
     Serialization.page_reads_done p e resp pre html post ->
     Serialization.page_reads_around_html
       (PageTask.trace (snd (PageTask.run p e))) /\
     (pre <> post ->
      match PageTask.contextClose e with
      | Fulfilled _ =>
          fst (PageTask.run p e) = Fulfilled tt /\
          PageTask.results p e =
            Some {| PageTask.statusCode := None;
                    PageTask.res_headers := None;
                    PageTask.body := None;
                    PageTask.resolvedUrl := None;
                    PageTask.error := Some "unsafe_redirect";
                    PageTask.timeout := None |}
      | RejectedWith err =>
          fst (PageTask.run p e) = RejectedWith err /\
          PageTask.results p e = None
      end)) /\
  (forall task e resp pre html post,
     Serialization.renderer_reads_done e resp pre html post ->
     Serialization.renderer_reads_around_html (snd (Renderer.run task e)) /\
     (pre <> post ->
      fst (Renderer.run task e) =
        match Renderer.contextClose e with
        | Fulfilled _ =>
            Fulfilled {| Renderer.statusCode := None;
                         Renderer.body := None;
                         Renderer.res_headers := None;
                         Renderer.timeout := None;
                         Renderer.error := Some "unsafe_redirect";
                         Renderer.resolvedUrl := None |}
        | RejectedWith err => RejectedWith err
        end)) /\
  (forall p e pre post r,
     PageTask.preSerializationUrl e = Fulfilled pre ->
     PageTask.postSerializationUrl e = Fulfilled post ->
     pre <> post ->
     PageTask.results p e = Some r ->
     PageTask.statusCode r = None /\ PageTask.body r = None /\
     PageTask.res_headers r = None) /\
  (forall task e pre post r,
     Renderer.preSerializationUrl e = Fulfilled pre ->
     Renderer.postSerializationUrl e = Fulfilled post ->
     pre <> post ->
     fst (Renderer.run task e) = Fulfilled r ->
     Renderer.statusCode r = None /\ Renderer.body r = None /\
     Renderer.res_headers r = None).
Proof.
  split; [|split; [|split]].
  - intros; split.
    + eapply page_reads; eassumption.
    + intros Hne. eapply page_unsafe_redirect_result; eassumption.
  - intros; split.
    + eapply renderer_reads; eassumption.
    + intros Hne. eapply renderer_unsafe_redirect_result; eassumption.
  - apply page_redirect_returns_nothing.
  - apply renderer_redirect_returns_nothing.
Qed.

(** The redirecting page, whose context closes, yields the
    unsafe-redirect error. *)
Lemma C2_unsafe_redirect_rejected_witness :
  fst (PageTask.run Serialization.a_render Serialization.redirecting_page)
    = Fulfilled tt /\
  PageTask.results Serialization.a_render Serialization.redirecting_page =
  Some {| PageTask.statusCode := None;
          PageTask.res_headers := None;
          PageTask.body := None;
          PageTask.resolvedUrl := None;
          PageTask.error := Some "unsafe_redirect";
          PageTask.timeout := None |}.
Proof.
  refine (proj2 (proj1 C2_unsafe_redirect_rejected
                   Serialization.a_render Serialization.redirecting_page
                   {| PageTask.status := 200; PageTask.headers := [] |}
                   "http://a.test/" "<html></html>" "http://evil.test/" _) _).
  - repeat split.
  - discriminate.
Defined.

(** ** The minimum wait *)




(** ** The request filter *)

(** C4, as stated, fails: a request whose validation fails on a DNS
    resolution failure is aborted all the same, and nothing is logged. *)
Lemma C4_counterexample :
  BrowserPage.trace (snd Filter.dns_failure_run) =
    [BrowserPage.EvIncrRequests;
     BrowserPage.EvValidateURL "http://nowhere.invalid/app.js" Filter.restricted;
     BrowserPage.EvAbort] /\
  BrowserPage.verdict (BrowserPage.trace (snd Filter.dns_failure_run)) =
    Some BrowserPage.Aborted /\
  Filter.spec_verdict_on_failure
    (Error "getaddrinfo ENOTFOUND nowhere.invalid") = BrowserPage.Continued.
Proof. repeat split. Qed.

(** C5, as stated, fails: the same request is aborted and the
    blocked-request counter stays where it was. *)
Lemma C5_counterexample :
  BrowserPage.verdict (BrowserPage.trace (snd Filter.dns_failure_run)) =
    Some BrowserPage.Aborted /\
  BrowserPage.blockedRequests (BrowserPage.metrics (snd Filter.dns_failure_run))
    = 0 /\
  ~ Filter.spec_blocked_counted BrowserPage.new_metrics
      (snd Filter.dns_failure_run).
Proof.
  repeat split. intros H. specialize (H eq_refl). discriminate H.
Qed.

(** C4 (amended): a request whose validation fails is always aborted and
    never continued, a DNS resolution failure included. In the listener
    of [BrowserPage.#updateContext] what the DNS failure changes is the
    bookkeeping: it is neither logged nor counted as blocked, while any
    other failure is logged and counted. The older listener of
    [Renderer._defineRequestContextForPage] makes no difference between
    failures at all: it issues the abort right after the validation,
    whatever the error, and what it does does not depend on the error; it
    has no counter and logs nothing. *)
Theorem C4_failed_validation_aborts :
  (forall DATA_REGEXP_test IGNORED_RESOURCES RESTRICTED_IPS params req e m err,
     DATA_REGEXP_test (BrowserPage.req_url req) = false ->
     BrowserPage.validateURL e = RejectedWith err ->
     let run := BrowserPage.handle DATA_REGEXP_test IGNORED_RESOURCES
                  RESTRICTED_IPS params req e m in
     fst run = Fulfilled tt /\
     BrowserPage.verdict (BrowserPage.trace (snd run)) =
       Some BrowserPage.Aborted /\
     BrowserPage.trace (snd run) =
       ([BrowserPage.EvIncrRequests;
         BrowserPage.EvValidateURL (BrowserPage.req_url req) RESTRICTED_IPS]
        ++ (if includes "ENOTFOUND" (message err) then []
            else [BrowserPage.EvConsoleError (message err);
                  BrowserPage.EvIncrBlocked])
        ++ [BrowserPage.EvAbort])%list /\
     BrowserPage.blockedRequests (BrowserPage.metrics (snd run)) =
       BrowserPage.blockedRequests m +
       (if includes "ENOTFOUND" (message err) then 0 else 1)) /\
  (forall RESTRICTED_IPS headersToForward req e err,
     Renderer.validateURL e = RejectedWith err ->
     let run := Renderer.onRequest RESTRICTED_IPS headersToForward req e [] in
     Renderer.verdict (snd run) = Some Renderer.Aborted /\
     (exists rest,
        snd run =
          Renderer.EvValidateURL (Renderer.req_url req) RESTRICTED_IPS
            :: Renderer.EvAbort :: rest) /\
     forall err',
       Renderer.onRequest RESTRICTED_IPS headersToForward req
         {| Renderer.validateURL := RejectedWith err';
            Renderer.abort_awaited := Renderer.abort_awaited e;
            Renderer.continue_awaited := Renderer.continue_awaited e |} []
       = run).
Proof.
  split.
  - intros D I R params req e m err HD Hv. run_listener.
    rewrite HD, Hv. cbn.
    destruct (includes "ENOTFOUND" (message err)); cbn;
      repeat split; lia.
  - intros R h req e err Hv. run_listener. rewrite Hv. cbn.
    destruct (bool_decide _); [|destruct (Renderer.isNavigationRequest req)];
      match goal with
      | |- context [match ?x with Fulfilled _ => _ | RejectedWith _ => _ end] =>
          destruct x as [[]|?]
      end; cbn; try destruct (negb _);
      (split; [reflexivity|split; [eexists; reflexivity|reflexivity]]).
Qed.

(** The request to the host that does not resolve is aborted. *)
Lemma C4_failed_validation_aborts_witness :
  BrowserPage.verdict (BrowserPage.trace (snd Filter.dns_failure_run)) =
    Some BrowserPage.Aborted.
Proof.
  exact (proj1 (proj2 (proj1 C4_failed_validation_aborts
           Filter.data_uri Filter.ignored Filter.restricted Filter.some_task
           Filter.unresolvable Filter.dns_failure BrowserPage.new_metrics
           (Error "getaddrinfo ENOTFOUND nowhere.invalid")
           eq_refl eq_refl))).
Defined.

(** C5 (amended): the listener increments the total-request counter
    first, before anything that decides the fate of the request, and once.
    Every abort comes with exactly one increment of the blocked-request
    counter, except the abort that follows a DNS resolution failure of
    the validation: that request is aborted and the counter is left where
    it was. A request that is continued leaves the counter alone, and so
    does a request that is left unsettled, which happens only when the
    ad-block test throws. *)
Theorem C5_request_counters
    DATA_REGEXP_test IGNORED_RESOURCES RESTRICTED_IPS params req e m :
  let run := BrowserPage.handle DATA_REGEXP_test IGNORED_RESOURCES
               RESTRICTED_IPS params req e m in
  let s := snd run in
  (exists rest,
     BrowserPage.trace s = BrowserPage.EvIncrRequests :: rest /\
     ~ In BrowserPage.EvIncrRequests rest) /\
  BrowserPage.requests (BrowserPage.metrics s) = BrowserPage.requests m + 1 /\
  match BrowserPage.verdict (BrowserPage.trace s) with
  | Some BrowserPage.Aborted =>
      BrowserPage.blockedRequests (BrowserPage.metrics s) =
        BrowserPage.blockedRequests m +
        (if Settling.dns_abort DATA_REGEXP_test req e then 0 else 1)
  | Some BrowserPage.Continued =>
      BrowserPage.blockedRequests (BrowserPage.metrics s) =
        BrowserPage.blockedRequests m
  | None =>
      is_some (Settling.adblock_throws DATA_REGEXP_test IGNORED_RESOURCES
                 params req e) = true /\
      BrowserPage.blockedRequests (BrowserPage.metrics s) =
        BrowserPage.blockedRequests m
  end /\
  (Settling.dns_abort DATA_REGEXP_test req e = true ->
   BrowserPage.verdict (BrowserPage.trace s) = Some BrowserPage.Aborted /\
   BrowserPage.blockedRequests (BrowserPage.metrics s) =
     BrowserPage.blockedRequests m).
Proof.
  unfold Settling.dns_abort, Settling.adblock_throws.
  run_listener.
  destruct (DATA_REGEXP_test (BrowserPage.req_url req)) eqn:HD; cbn.
  { split; [eexists; split; [reflexivity|cbn; intuition discriminate]|].
    repeat split; discriminate. }
  destruct (BrowserPage.validateURL e) as [[]|err] eqn:Hv; cbn.
  - destruct (bool_decide _); cbn;
      [|destruct (BrowserPage.adblock params); cbn;
        [destruct (BrowserPage.adblocker_match e) as [[]|aerr]; cbn|];
        try destruct (BrowserPage.isNavigationRequest req); cbn];
      try match goal with
      | |- context [match ?x with Fulfilled _ => _ | RejectedWith _ => _ end] =>
          destruct x as [[]|?]
      end; cbn; try destruct (negb _); cbn;
      (split; [eexists; split; [reflexivity|cbn; intuition discriminate]|]);
      repeat split; try discriminate; lia.
  - destruct (includes "ENOTFOUND" (message err)) eqn:Hi; cbn;
      (split; [eexists; split; [reflexivity|cbn; intuition discriminate]|]);
      repeat split; try discriminate; lia.
Qed.

(** ** The rolling pool *)

Lemma renderer_task_flags job uuid e o :
  Renderer._stopping (snd (fst (Renderer.task job uuid e o))) =
    Renderer._stopping o /\
  Renderer.ready (snd (fst (Renderer.task job uuid e o))) = Renderer.ready o.
Proof.
  unfold Renderer.task.
  destruct (Renderer._stopping o) eqn:Hs; [auto|].
  generalize (Renderer.run job e). intros [[r|err] tr]; [|by rewrite <- Hs].
  unfold Renderer._removeTask.
  destruct (Renderer.remove_first _ _); by rewrite <- Hs.
Qed.

Lemma inv_create : Rolling.Inv RollingRenderer.create.
Proof.
  unfold RollingRenderer.create, RollingRenderer.alloc; cbn.
  split; cbn.
  - eexists. split; [apply lookup_insert_eq|reflexivity].
  - discriminate.
  - intros r o Hr Hne _. rewrite lookup_insert_ne in Hr by congruence.
    rewrite lookup_empty in Hr. discriminate.
  - left; reflexivity.
Qed.

(** Writing to a renderer without touching its [_stopping] flag. *)
Lemma inv_update w r o o' :
  Rolling.Inv w ->
  RollingRenderer.heap w !! r = Some o ->
  Renderer._stopping o' = Renderer._stopping o ->
  Rolling.Inv {| RollingRenderer.pool := RollingRenderer.pool w;
                 RollingRenderer.heap := <[r := o']> (RollingRenderer.heap w);
                 RollingRenderer.stops := RollingRenderer.stops w |}.
Proof.
  intros [(oc & Hc & Hcl) Hf Ho Hs] Hr Hflag. split; cbn.
  - destruct (decide (r = RollingRenderer._currentRenderer (RollingRenderer.pool w)))
      as [->|Hne].
    + exists o'. rewrite lookup_insert_eq. split; [done|]. congruence.
    + exists oc. by rewrite lookup_insert_ne.
  - intros f Hfut. destruct (Hf f Hfut) as (Hfc & o1 & Ho1 & Ho1l).
    split; [done|].
    destruct (decide (r = f)) as [->|Hne].
    + exists o'. rewrite lookup_insert_eq. split; [done|]. congruence.
    + exists o1. by rewrite lookup_insert_ne.
  - intros r' o'' Hr' Hnc Hnf.
    destruct (decide (r = r')) as [->|Hne].
    + rewrite lookup_insert_eq in Hr'. injection Hr' as <-.
      rewrite Hflag. eapply Ho; eauto.
    + rewrite lookup_insert_ne in Hr' by done. eapply Ho; eauto.
  - exact Hs.
Qed.

Lemma fresh_lookup (h : gmap nat Renderer.Obj) : h !! fresh (dom h) = None.
Proof. apply not_elem_of_dom, is_fresh. Qed.

(** The routing decision keeps the invariant. *)
Lemma inv_renderer MAX w :
  Rolling.Inv w -> Rolling.Inv (snd (RollingRenderer.renderer MAX w)).
Proof.
  intros HI. unfold RollingRenderer.renderer.
  destruct (RollingRenderer._stopping (RollingRenderer.pool w)) eqn:Hst;
    [exact HI|].
  destruct (_ <? MAX); [exact HI|].
  destruct HI as [(oc & Hc & Hcl) Hf Ho Hs].
  destruct w as [[st cur fut prev] h ss]; cbn in *.
  destruct fut as [f|]; cbn.
  - destruct (Hf f eq_refl) as (Hfc & o1 & Ho1 & Ho1l).
    destruct prev as [p|]; cbn; [by split; cbn; eauto|].
    unfold RollingRenderer.deref; cbn. rewrite Ho1; cbn.
    destruct (Renderer.ready o1); cbn; [|by split; cbn; eauto].
    (* the replacement is promoted *)
    split; cbn.
    + exists o1. rewrite lookup_alter_ne by done. done.
    + discriminate.
    + intros r o Hr Hrf _.
      destruct (decide (r = cur)) as [->|Hrc].
      * rewrite lookup_alter_eq, Hc in Hr. cbn in Hr. by injection Hr as <-.
      * rewrite lookup_alter_ne in Hr by done. eapply Ho; eauto. congruence.
    + right. exists cur. split; [|done].
      destruct Hs as [->|(r & _ & Hp)]; [done|discriminate].
  - (* a replacement is created; it is not ready yet *)
    unfold RollingRenderer.alloc; cbn.
    pose proof (fresh_lookup h) as Hfresh.
    set (f := fresh (dom h)) in *.
    assert (Hfc : f <> cur) by (intros ->; congruence).
    assert (HI' : Rolling.Inv
      {| RollingRenderer.pool :=
           {| RollingRenderer._stopping := st;
              RollingRenderer._currentRenderer := cur;
              RollingRenderer._futureRenderer := Some f;
              RollingRenderer._previousStopPromise := prev |};
         RollingRenderer.heap := <[f := Renderer.new]> h;
         RollingRenderer.stops := ss |}).
    { split; cbn.
      - exists oc. by rewrite lookup_insert_ne.
      - intros ? [= <-]. split; [done|].
        exists Renderer.new. by rewrite lookup_insert_eq.
      - intros r o Hr Hrc Hrf.
        rewrite lookup_insert_ne in Hr by congruence.
        eapply Ho; eauto.
      - exact Hs. }
    destruct prev as [p|]; cbn; [exact HI'|].
    unfold RollingRenderer.deref; cbn. rewrite lookup_insert_eq; cbn.
    exact HI'.
Qed.

(** What the routing decision hands back is the current renderer of the
    pool it leaves. *)
Lemma renderer_returns_current MAX w r :
  fst (RollingRenderer.renderer MAX w) = Fulfilled r ->
  r = RollingRenderer._currentRenderer
        (RollingRenderer.pool (snd (RollingRenderer.renderer MAX w))).
Proof.
  unfold RollingRenderer.renderer.
  destruct (RollingRenderer._stopping _); [discriminate|].
  destruct (_ <? MAX); [by intros [= <-]|].
  destruct w as [[st cur fut prev] h ss]; cbn.
  destruct fut as [f|]; cbn.
  - destruct prev; cbn; [by intros [= <-]|].
    destruct (Renderer.ready _); cbn; by intros [= <-].
  - unfold RollingRenderer.alloc; cbn.
    destruct prev; cbn; [by intros [= <-]|].
    destruct (Renderer.ready _); cbn; by intros [= <-].
Qed.

Lemma inv_step MAX w l w' :
  Rolling.Inv w -> RollingRenderer.step MAX w l w' -> Rolling.Inv w'.
Proof.
  intros HI Hstep. destruct Hstep.
  - by apply inv_renderer.
  - unfold RollingRenderer.task.
    destruct (RollingRenderer._stopping _); [exact HI|].
    destruct (RollingRenderer.renderer MAX w) as [[r|err] w1] eqn:Hr;
      [|by apply (inv_renderer MAX) in HI; rewrite Hr in HI].
    pose proof (renderer_returns_current MAX w r) as Hcur.
    pose proof (inv_renderer MAX w HI) as HI1.
    rewrite Hr in Hcur, HI1; cbn in Hcur, HI1.
    specialize (Hcur eq_refl).
    destruct (Rolling.inv_current _ HI1) as (oc & Hoc & _).
    unfold RollingRenderer.deref. rewrite Hcur, Hoc; cbn.
    pose proof (renderer_task_flags job uuid e oc) as [Hfl _].
    destruct (Renderer.task job uuid e oc) as [[res o'] tr]; cbn in *.
    eapply inv_update; eauto.
  - eapply inv_update; eauto. apply renderer_task_flags.
  - eapply inv_update; eauto.
  - destruct HI as [Hc Hf Ho Hs]. split; cbn; try done.
    left. destruct Hs as [Hs|(r' & Hs & _)]; rewrite Hs in *.
    + done.
    + apply list_elem_of_singleton in H as ->.
      unfold RollingRenderer.remove_stop. cbn.
      by destruct (decide (r' <> r')).
  - destruct HI as [Hc Hf Ho Hs]. split; cbn; try done.
    left. destruct Hs as [Hs|(r' & Hs & _)]; rewrite Hs in *.
    + done.
    + apply list_elem_of_singleton in H as ->.
      unfold RollingRenderer.remove_stop. cbn.
      by destruct (decide (r' <> r')).
  - destruct HI as [Hc Hf Ho Hs]. by split.
Qed.

Lemma inv_reachable MAX w :
  RollingRenderer.reachable MAX w -> Rolling.Inv w.
Proof.
  induction 1 as [|w l w' _ IH Hstep].
  - apply inv_create.
  - eapply inv_step; eauto.
Qed.

Lemma replacement_is_future w r :
  Rolling.Inv w -> RollingRenderer.replacement w r ->
  RollingRenderer._futureRenderer (RollingRenderer.pool w) = Some r.
Proof.
  intros HI (o & Hr & Hne & Hlive).
  destruct (decide (RollingRenderer._futureRenderer (RollingRenderer.pool w)
                    = Some r)) as [|Hnf]; [done|].
  pose proof (Rolling.inv_others _ HI r o Hr Hne Hnf). congruence.
Qed.

(** While a stop is pending, the routing decision starts no other. *)
Lemma renderer_keeps_pending_stop MAX w :
  Rolling.Inv w -> RollingRenderer.stops w <> [] ->
  RollingRenderer.stops (snd (RollingRenderer.renderer MAX w)) =
  RollingRenderer.stops w.
Proof.
  intros HI Hne. unfold RollingRenderer.renderer.
  destruct (RollingRenderer._stopping _); [done|].
  destruct (_ <? MAX); [done|].
  destruct (Rolling.inv_stops _ HI) as [|(r & Hs & Hp)]; [done|].
  destruct w as [[st cur fut prev] h ss]; cbn in *. subst prev.
  destruct fut as [f|]; cbn; [done|].
  unfold RollingRenderer.alloc; cbn. done.
Qed.

(** The five rules of the routing decision. *)
Lemma renderer_rules MAX w :
  RollingRenderer._stopping (RollingRenderer.pool w) = false ->
  let cur := RollingRenderer._currentRenderer (RollingRenderer.pool w) in
  let fut := RollingRenderer._futureRenderer (RollingRenderer.pool w) in
  let prev := RollingRenderer._previousStopPromise (RollingRenderer.pool w) in
  let nb := Renderer.nbTotalTasks (RollingRenderer.deref w cur) in
  (nb < MAX -> RollingRenderer.renderer MAX w = (Fulfilled cur, w)) /\
  (MAX <= nb -> fut = None ->
   RollingRenderer.renderer MAX w =
   (Fulfilled cur,
    {| RollingRenderer.pool :=
         {| RollingRenderer._stopping := false;
            RollingRenderer._currentRenderer := cur;
            RollingRenderer._futureRenderer :=
              Some (fresh (dom (RollingRenderer.heap w)));
            RollingRenderer._previousStopPromise := prev |};
       RollingRenderer.heap :=
         <[fresh (dom (RollingRenderer.heap w)) := Renderer.new]>
           (RollingRenderer.heap w);
       RollingRenderer.stops := RollingRenderer.stops w |})) /\
  (forall f, MAX <= nb -> fut = Some f ->
   is_Some prev \/ Renderer.ready (RollingRenderer.deref w f) = false ->
   RollingRenderer.renderer MAX w = (Fulfilled cur, w)) /\
  (forall f, MAX <= nb -> fut = Some f -> prev = None ->
   Renderer.ready (RollingRenderer.deref w f) = true ->
   RollingRenderer.renderer MAX w =
   (Fulfilled f,
    {| RollingRenderer.pool :=
         {| RollingRenderer._stopping := false;
            RollingRenderer._currentRenderer := f;
            RollingRenderer._futureRenderer := None;
            RollingRenderer._previousStopPromise := Some cur |};
       RollingRenderer.heap :=
         alter (Renderer.set_stopping true) cur (RollingRenderer.heap w);
       RollingRenderer.stops := (RollingRenderer.stops w ++ [cur])%list |})).
Proof.
  destruct w as [[st cur fut prev] h ss]; cbn. intros ->.
  unfold RollingRenderer.renderer; cbn.
  repeat split.
  - intros Hlt. apply Z.ltb_lt in Hlt. by rewrite Hlt.
  - intros Hge ->. apply Z.ltb_ge in Hge. rewrite Hge.
    unfold RollingRenderer.alloc; cbn.
    destruct prev; cbn; [done|].
    unfold RollingRenderer.deref; cbn. by rewrite lookup_insert_eq.
  - intros f Hge -> Hwait. apply Z.ltb_ge in Hge. rewrite Hge. cbn.
    destruct prev; cbn; [done|].
    destruct Hwait as [[? [=]]|Hnr]. by rewrite Hnr.
  - intros f Hge -> -> Hr. apply Z.ltb_ge in Hge. rewrite Hge. cbn.
    by rewrite Hr.
Qed.

(** C3: in every state a serving pool can reach, at most one replacement
    exists (so at most one is warming up), at most one stop is pending and
    the routing decision starts no second one while it is, and the
    renderer the decision hands back is one whose stop has not begun. The
    decision itself follows the five rules: below the threshold the
    current renderer; at or above it a replacement is created if there is
    none; the current renderer is returned while a stop is pending or the
    replacement is not ready; otherwise the current renderer is stopped
    and the replacement promoted. *)
Theorem C3_rolling_routing MAX w :
  RollingRenderer.reachable MAX w ->
  let routed := RollingRenderer.renderer MAX w in
  let cur := RollingRenderer._currentRenderer (RollingRenderer.pool w) in
  let fut := RollingRenderer._futureRenderer (RollingRenderer.pool w) in
  let prev := RollingRenderer._previousStopPromise (RollingRenderer.pool w) in
  let nb := Renderer.nbTotalTasks (RollingRenderer.deref w cur) in
  (forall r1 r2, RollingRenderer.replacement w r1 ->
                 RollingRenderer.replacement w r2 -> r1 = r2) /\
  (forall r1 r2, RollingRenderer.warming_up w r1 ->
                 RollingRenderer.warming_up w r2 -> r1 = r2) /\
  (length (RollingRenderer.stops w) <= 1)%nat /\
  (RollingRenderer.stops w <> [] ->
   RollingRenderer.stops (snd routed) = RollingRenderer.stops w) /\
  (forall r, fst routed = Fulfilled r ->
     exists o, RollingRenderer.heap (snd routed) !! r = Some o /\
               Renderer._stopping o = false) /\
  (RollingRenderer._stopping (RollingRenderer.pool w) = false ->
   (nb < MAX -> routed = (Fulfilled cur, w)) /\
   (MAX <= nb -> fut = None ->
    routed =
    (Fulfilled cur,
     {| RollingRenderer.pool :=
          {| RollingRenderer._stopping := false;
             RollingRenderer._currentRenderer := cur;
             RollingRenderer._futureRenderer :=
               Some (fresh (dom (RollingRenderer.heap w)));
             RollingRenderer._previousStopPromise := prev |};
        RollingRenderer.heap :=
          <[fresh (dom (RollingRenderer.heap w)) := Renderer.new]>
            (RollingRenderer.heap w);
        RollingRenderer.stops := RollingRenderer.stops w |})) /\
   (forall f, MAX <= nb -> fut = Some f ->
    is_Some prev \/ Renderer.ready (RollingRenderer.deref w f) = false ->
    routed = (Fulfilled cur, w)) /\
   (forall f, MAX <= nb -> fut = Some f -> prev = None ->
    Renderer.ready (RollingRenderer.deref w f) = true ->
    routed =
    (Fulfilled f,
     {| RollingRenderer.pool :=
          {| RollingRenderer._stopping := false;
             RollingRenderer._currentRenderer := f;
             RollingRenderer._futureRenderer := None;
             RollingRenderer._previousStopPromise := Some cur |};
        RollingRenderer.heap :=
          alter (Renderer.set_stopping true) cur (RollingRenderer.heap w);
        RollingRenderer.stops := (RollingRenderer.stops w ++ [cur])%list |}))).
Proof.
  intros Hreach. pose proof (inv_reachable MAX w Hreach) as HI. cbv zeta.
  split; [|split; [|split; [|split; [|split]]]].
  - intros r1 r2 H1 H2.
    pose proof (replacement_is_future w r1 HI H1).
    pose proof (replacement_is_future w r2 HI H2). congruence.
  - intros r1 r2 (o1 & Ha1 & Hb1 & Hc1 & _) (o2 & Ha2 & Hb2 & Hc2 & _).
    assert (RollingRenderer.replacement w r1) as H1 by (exists o1; auto).
    assert (RollingRenderer.replacement w r2) as H2 by (exists o2; auto).
    pose proof (replacement_is_future w r1 HI H1).
    pose proof (replacement_is_future w r2 HI H2). congruence.
  - destruct (Rolling.inv_stops _ HI) as [->|(r & -> & _)]; cbn; lia.
  - by apply renderer_keeps_pending_stop.
  - intros r Hr. apply renderer_returns_current in Hr as ->.
    apply (Rolling.inv_current _ (inv_renderer MAX w HI)).
  - apply renderer_rules.
Qed.

Lemma promoted_reachable : RollingRenderer.reachable 2 Rolling.promoted.
Proof.
  eapply RollingRenderer.reachable_step;
    [|apply RollingRenderer.step_renderer].
  eapply RollingRenderer.reachable_step;
    [|apply (RollingRenderer.step_ready 2 Rolling.replacing 1%nat Renderer.new);
      vm_compute; reflexivity].
  eapply RollingRenderer.reachable_step;
    [|apply RollingRenderer.step_renderer].
  eapply RollingRenderer.reachable_step;
    [|apply RollingRenderer.step_task].
  eapply RollingRenderer.reachable_step;
    [|apply RollingRenderer.step_task].
  apply RollingRenderer.reachable_create.
Qed.

Lemma promoted_state :
  RollingRenderer.pool Rolling.promoted =
    {| RollingRenderer._stopping := false;
       RollingRenderer._currentRenderer := 1%nat;
       RollingRenderer._futureRenderer := None;
       RollingRenderer._previousStopPromise := Some 0%nat |} /\
  RollingRenderer.stops Rolling.promoted = [0%nat] /\
  Renderer._stopping <$> RollingRenderer.heap Rolling.promoted !! 0%nat
    = Some true.
Proof. vm_compute. repeat split. Qed.

(** After the promotion one stop is pending, and routing again starts no
    other. *)
Lemma C3_rolling_routing_witness :
  (length (RollingRenderer.stops Rolling.promoted) <= 1)%nat /\
  RollingRenderer.stops
    (snd (RollingRenderer.renderer 2 Rolling.promoted)) = [0%nat].
Proof.
  pose proof (C3_rolling_routing 2 Rolling.promoted promoted_reachable) as H.
  cbv zeta in H.
  destruct H as (_ & _ & Hs & Hkeep & _).
  split; [exact Hs|].
  rewrite Hkeep; [|discriminate]. reflexivity.
Defined.

(** C10: on a stopping pool the [ready] getter throws and [healthy()]
    rejects, both with the error of the routing getter they go through;
    neither answers [false]. *)
Theorem C10_stopping_pool_throws MAX version w :
  RollingRenderer._stopping (RollingRenderer.pool w) = true ->
  RollingRenderer.renderer MAX w =
    (RejectedWith
       (Error "Called (get) renderer on a stopping RollingRenderer"), w) /\
  RollingRenderer.ready MAX w =
    (RejectedWith
       (Error "Called (get) renderer on a stopping RollingRenderer"), w) /\
  RollingRenderer.healthy MAX version w =
    (RejectedWith
       (Error "Called (get) renderer on a stopping RollingRenderer"), w).
Proof.
  intros Hs.
  unfold RollingRenderer.ready, RollingRenderer.healthy,
    RollingRenderer.renderer.
  rewrite Hs. repeat split.
Qed.

(** [ready] on the stopping pool. *)
Lemma C10_stopping_pool_throws_witness :
  RollingRenderer.ready 2 Rolling.stopping_pool =
    (RejectedWith
       (Error "Called (get) renderer on a stopping RollingRenderer"),
     Rolling.stopping_pool).
Proof.
  exact (proj1 (proj2 (C10_stopping_pool_throws 2 (Fulfilled tt)
                         Rolling.stopping_pool eq_refl))).
Defined.

(** ** The task manager *)

(** C8: a task submitted to a stopping manager, or to a stopping pool, is
    rejected at once: the manager and the pool are left as they were
    (nothing is registered, no renderer counts a task) and no call to a
    collaborator is made. *)
Theorem C8_rejected_while_stopping :
  (forall (TaskResult Metrics : Type) job
          (e : TasksManager.TaskEnv TaskResult Metrics) m,
     TasksManager.stopping m = true ->
     TasksManager.task job e m =
       (RejectedWith (Error "Task can not be executed: stopping"),
        {| TasksManager.mgr := m; TasksManager.trace := [] |})) /\
  (forall MAX job uuid e w,
     RollingRenderer._stopping (RollingRenderer.pool w) = true ->
     RollingRenderer.task MAX job uuid e w =
       (RejectedWith (Error "Called task on a stopping RollingRenderer"),
        w, [])).
Proof.
  split.
  - intros TR MT job e m Hs. run_manager. cbn. by rewrite Hs.
  - intros MAX job uuid e w Hs. unfold RollingRenderer.task. by rewrite Hs.
Qed.

(** A render submitted to the stopped manager and to the stopping pool. *)
Lemma C8_rejected_while_stopping_witness :
  TasksManager.task Managers.a_job Managers.all_well Managers.stopped =
    (RejectedWith (Error "Task can not be executed: stopping"),
     {| TasksManager.mgr := Managers.stopped; TasksManager.trace := [] |}) /\
  RollingRenderer.task 2 ResultShape.a_job "task-3" ResultShape.slow_page
    Rolling.stopping_pool =
    (RejectedWith (Error "Called task on a stopping RollingRenderer"),
     Rolling.stopping_pool, []).
Proof.
  split.
  - exact (proj1 C8_rejected_while_stopping unit unit Managers.a_job
             Managers.all_well Managers.stopped eq_refl).
  - exact (proj2 C8_rejected_while_stopping 2 ResultShape.a_job "task-3"
             ResultShape.slow_page Rolling.stopping_pool eq_refl).
Defined.

(** A [stop()] that completes leaves a stopped manager with no task and no
    browser. *)
Lemma stop_completed e m s :
  TasksManager.stop e m = (Fulfilled tt, s) ->
  TasksManager.mgr s = Managers.stopped.
Proof.
  destruct m as [b st t]. run_manager. cbn.
  destruct (Nat.eqb _ 0); [|destruct (TasksManager.awaitTasks e) as [[]|?]];
    cbn; try discriminate;
    (destruct b; cbn;
     [destruct (TasksManager.browserStop e) as [[]|?]|]; cbn;
     try discriminate; by intros [= <-]).
Qed.

Lemma stop_completed2 e m s :
  TasksManager2.stop e m = (Fulfilled tt, s) ->
  TasksManager2.browser (TasksManager2.mgr s) = None /\
  TasksManager2.stopping (TasksManager2.mgr s) = true /\
  TasksManager2.tasks (TasksManager2.mgr s) = ∅.
Proof.
  run_manager. cbn.
  match goal with
  | |- context [TasksManager2.for_each e ?l ?s0] =>
      destruct (TasksManager2.for_each e l s0) as [[[]|?] s1] eqn:Hfe
  end; cbn; [|discriminate].
  assert (Hkeep : forall l s0 s1,
            TasksManager2.for_each e l s0 = (Fulfilled tt, s1) ->
            TasksManager2.browser (TasksManager2.mgr s1) =
              TasksManager2.browser (TasksManager2.mgr s0) /\
            TasksManager2.stopping (TasksManager2.mgr s1) =
              TasksManager2.stopping (TasksManager2.mgr s0)).
  { induction l as [|i l IH]; intros s0 s2; cbn.
    - by intros [= <-].
    - unfold TasksManager2.removeTask at 1. run_manager. cbn.
      destruct (TasksManager2.tasks (TasksManager2.mgr s0) !! i); cbn;
        [|discriminate].
      destruct (TasksManager2.promises e i) as [[]|?]; cbn;
        intros H; apply IH in H; exact H. }
  apply Hkeep in Hfe as [Hb Hst]; cbn in Hb, Hst.
  destruct (TasksManager2.browser (TasksManager2.mgr s1)) eqn:Hb1; cbn.
  - destruct (TasksManager2.browserStop e) as [[]|?]; cbn; [|discriminate].
    intros [= <-]; cbn. by rewrite Hst.
  - intros [= <-]; cbn. by rewrite Hst.
Qed.

(** C9: a second [stop()] on a manager whose first [stop()] completed
    fulfils and leaves the manager exactly as it was; it waits for no
    task and stops no browser, and all it emits is its log line. The same
    holds for the later revision of the manager. *)
Theorem C9_stop_twice :
  (forall e1 e2 m s1,
     TasksManager.stop e1 m = (Fulfilled tt, s1) ->
     TasksManager.stop e2 (TasksManager.mgr s1) =
       (Fulfilled tt,
        {| TasksManager.mgr := TasksManager.mgr s1;
           TasksManager.trace :=
             [TasksManager.EvLog "Tasks Manager stopping..."] |})) /\
  (forall e1 e2 m s1,
     TasksManager2.stop e1 m = (Fulfilled tt, s1) ->
     TasksManager2.stop e2 (TasksManager2.mgr s1) =
       (Fulfilled tt,
        {| TasksManager2.mgr := TasksManager2.mgr s1;
           TasksManager2.trace :=
             [TasksManager2.EvLog "[Manager] stopping..."] |})).
Proof.
  split.
  - intros e1 e2 m s1 H. apply stop_completed in H. rewrite H. reflexivity.
  - intros e1 e2 m s1 H. apply stop_completed2 in H as (Hb & Hs & Ht).
    destruct s1 as [[b st t n] tr]; cbn in *; subst.
    run_manager. cbn. rewrite map_to_list_empty. reflexivity.
Qed.

(** Stopping twice the manager that had one render in flight. *)
Lemma C9_stop_twice_witness :
  TasksManager.stop Managers.stop_well
    (TasksManager.mgr
       (snd (TasksManager.stop Managers.stop_well Managers.one_in_flight))) =
  (Fulfilled tt,
   {| TasksManager.mgr :=
        TasksManager.mgr
          (snd (TasksManager.stop Managers.stop_well Managers.one_in_flight));
      TasksManager.trace :=
        [TasksManager.EvLog "Tasks Manager stopping..."] |}).
Proof.
  refine (proj1 C9_stop_twice Managers.stop_well Managers.stop_well
            Managers.one_in_flight
            (snd (TasksManager.stop Managers.stop_well Managers.one_in_flight))
            _).
  vm_compute. reflexivity.
Defined.

(** *** The in-flight map *)

(** When the task's [close()] fulfils in [#removeTask], or no task was
    attached to the entry, no entry is left for the call, whatever
    happened before and whatever the other coroutines did meanwhile. *)
Lemma task_entry_removed {TaskResult Metrics : Type} job
    (e : TasksManager.TaskEnv TaskResult Metrics) m b :
  TasksManager.stopping m = false ->
  TasksManager.browser m = Some b ->
  TasksManager.close_cleanup e = Fulfilled tt ->
  TasksManager.tasks
    (TasksManager.mgr (snd (TasksManager.task job e m)))
    !! TasksManager.uuid e = None.
Proof.
  intros Hs Hb Hc.
  unfold TasksManager.task, TasksManager.task_.
  unfold bind at 1. cbn [TasksManager.get_mgr TasksManager.mgr].
  rewrite Hs, Hb.
  unfold bind at 1. cbn [TasksManager.emit].
  unfold bind at 1. cbn [TasksManager.registerTask TasksManager.upd_mgr].
  unfold try_finally.
  match goal with
  | |- context [try_catch ?body ?h ?s0] =>
      destruct (try_catch body h s0) as [r s1]
  end.
  unfold bind at 1. cbn [TasksManager.emit].
  unfold TasksManager.removeTask.
  unfold bind at 1. cbn [TasksManager.get_mgr TasksManager.mgr].
  destruct (TasksManager.tasks (TasksManager.mgr s1) !! TasksManager.uuid e)
    as [t|] eqn:Hl; cbn [throw snd TasksManager.mgr].
  - destruct (is_some (TasksManager.o_task t)).
    + run_manager. rewrite Hc. cbn.
      apply lookup_delete_eq.
    + run_manager. cbn. apply lookup_delete_eq.
  - exact Hl.
Qed.

(** The later revision removes the entry when the call settles, whatever
    the outcome. *)
Lemma task2_entry_removed {TaskResult Metrics : Type}
    (e : TasksManager2.TaskEnv TaskResult Metrics) m :
  TasksManager2.tasks
    (TasksManager2.mgr (snd (TasksManager2.task e m)))
    !! TasksManager2.id e = None.
Proof.
  unfold TasksManager2.task, TasksManager2.task_.
  destruct (TasksManager2.exec_prefix _) as [started s0].
  unfold bind at 1. cbn [TasksManager2.upd_mgr].
  unfold bind at 1. cbn [TasksManager2.upd_mgr].
  unfold bind at 1. cbn [TasksManager2.suspend TasksManager2.upd_mgr].
  unfold try_finally at 1.
  match goal with
  | |- context [try_finally ?body ?f ?s1] =>
      destruct (try_finally body f s1) as [r s2]
  end.
  cbn. apply lookup_delete_eq.
Qed.

Lemma overdue_entry_unhealthy UNHEALTHY_TASK_TTL now m k o :
  TasksManager.tasks m !! k = Some o ->
  UNHEALTHY_TASK_TTL < now - TasksManager.createdAt o ->
  TasksManager.healthy UNHEALTHY_TASK_TTL now m = false.
Proof.
  intros Hk Hlate. unfold TasksManager.healthy.
  destruct (TasksManager.stopping m); [reflexivity|].
  match goal with
  | |- context [List.filter ?f ?l] =>
      assert (Hin : In (k, o) (List.filter f l))
  end.
  { apply filter_In. split.
    - apply list_elem_of_In. by apply elem_of_map_to_list.
    - cbn. by apply Z.ltb_lt. }
  match goal with
  | |- context [List.filter ?f ?l] => destruct (List.filter f l)
  end; [destruct Hin|reflexivity].
Qed.

(** C7, where the code departs from it: a task whose page is created,
    whose [linkToTask] rejects and whose [close()], called once, in
    [#removeTask], rejects too. The call rejects with the error of
    [close()], and its entry is still in [#tasks], task attached: the
    [delete] that follows the [await] is never reached. From
    [UNHEALTHY_TASK_TTL] later on the entry makes the manager
    unhealthy. *)
Theorem C7_phantom_entry_when_close_rejects {TaskResult Metrics : Type} job
    (e : TasksManager.TaskEnv TaskResult Metrics) m b lerr cerr :
  TasksManager.stopping m = false ->
  TasksManager.browser m = Some b ->
  TasksManager.tasks m !! TasksManager.uuid e = None ->
  TasksManager.pageCreate e = TasksManager.Created ->
  TasksManager.linkToTask e = RejectedWith lerr ->
  TasksManager.close_cleanup e = RejectedWith cerr ->
  Lifecycle.quiet e ->
  let run := TasksManager.task job e m in
  let entry :=
    {| TasksManager.id := TasksManager.uuid e;
       TasksManager.createdAt := TasksManager.now e;
       TasksManager.o_task :=
         Some match TasksManager.type job with
              | TasksManager.login => TasksManager.LoginTask
              | TasksManager.render => TasksManager.RenderTask
              end;
       TasksManager.taskPromise := false |} in
  fst run = RejectedWith cerr /\
  TasksManager.mgr (snd run) =
    TasksManager.set_tasks
      (<[TasksManager.uuid e := entry]> (TasksManager.tasks m)) m /\
  TasksManager.trace (snd run) =
    [TasksManager.EvLog "Processing"; TasksManager.EvPageCreate;
     TasksManager.EvWait; TasksManager.EvLinkToTask;
     TasksManager.EvLog "Fail"; TasksManager.EvLog "Finally";
     TasksManager.EvTaskClose] /\
  forall UNHEALTHY_TASK_TTL now',
    UNHEALTHY_TASK_TTL < now' - TasksManager.now e ->
    TasksManager.healthy UNHEALTHY_TASK_TTL now' (TasksManager.mgr (snd run))
      = false.
Proof.
  intros Hs Hb Hfresh Hc Hl Hcc Hq.
  destruct m as [br st t]; cbn in Hs, Hb, Hfresh; subst.
  assert (Hrun :
    TasksManager.task job e
      {| TasksManager.browser := Some b; TasksManager.stopping := false;
         TasksManager.tasks := t |} =
    (RejectedWith cerr,
     {| TasksManager.mgr :=
          {| TasksManager.browser := Some b; TasksManager.stopping := false;
             TasksManager.tasks :=
               <[TasksManager.uuid e :=
                   {| TasksManager.id := TasksManager.uuid e;
                      TasksManager.createdAt := TasksManager.now e;
                      TasksManager.o_task :=
                        Some match TasksManager.type job with
                             | TasksManager.login => TasksManager.LoginTask
                             | TasksManager.render => TasksManager.RenderTask
                             end;
                      TasksManager.taskPromise := false |}]> t |};
        TasksManager.trace :=
          [TasksManager.EvLog "Processing"; TasksManager.EvPageCreate;
           TasksManager.EvWait; TasksManager.EvLinkToTask;
           TasksManager.EvLog "Fail"; TasksManager.EvLog "Finally";
           TasksManager.EvTaskClose] |})).
  { run_manager. cbn. rewrite Hc. cbn. rewrite !Hq. cbn.
    rewrite lookup_insert_eq. cbn. rewrite !Hq. cbn.
    rewrite Hl. cbn. rewrite alter_insert_eq, lookup_insert_eq. cbn.
    rewrite !Hq. cbn. rewrite Hcc. cbn. reflexivity. }
  cbv zeta. rewrite Hrun.
  split; [reflexivity|]. split; [reflexivity|]. split; [reflexivity|].
  intros TTL now' Hlate.
  eapply overdue_entry_unhealthy; [cbn; apply lookup_insert_eq|exact Hlate].
Qed.

(** The render of [Managers.target_closed] on a launched manager. *)
Lemma C7_phantom_entry_when_close_rejects_witness :
  let run := TasksManager.task Managers.a_job Managers.target_closed
               Managers.launched in
  fst run = RejectedWith (Error "Protocol error: Target closed.") /\
  TasksManager.mgr (snd run) =
    TasksManager.set_tasks
      (<["task-1" :=
           {| TasksManager.id := "task-1";
              TasksManager.createdAt := 1000;
              TasksManager.o_task := Some TasksManager.RenderTask;
              TasksManager.taskPromise := false |}]> ∅)
      Managers.launched /\
  TasksManager.trace (snd run) =
    [TasksManager.EvLog "Processing"; TasksManager.EvPageCreate;
     TasksManager.EvWait; TasksManager.EvLinkToTask;
     TasksManager.EvLog "Fail"; TasksManager.EvLog "Finally";
     TasksManager.EvTaskClose] /\
  forall UNHEALTHY_TASK_TTL now',
    UNHEALTHY_TASK_TTL < now' - 1000 ->
    TasksManager.healthy UNHEALTHY_TASK_TTL now' (TasksManager.mgr (snd run))
      = false.
Proof.
  exact (C7_phantom_entry_when_close_rejects Managers.a_job
           Managers.target_closed Managers.launched
           {| TasksManager.isReady := true |}
           (Error "Protocol error (Network.setUserAgentOverride): Target closed.")
           (Error "Protocol error: Target closed.")
           eq_refl eq_refl eq_refl eq_refl eq_refl eq_refl
           (fun _ _ => eq_refl)).
Defined.

(** The later revision rejects a task submitted while stopping without
    calling any collaborator; its [task()] has by then stored the rejected
    promise under the task's id, and the callback of [finally] removes
    it. *)
Lemma task2_rejected_while_stopping {TaskResult Metrics : Type}
    (e : TasksManager2.TaskEnv TaskResult Metrics) m :
  TasksManager2.stopping m = true ->
  fst (TasksManager2.task e m) =
    RejectedWith (Error "Task can not be executed: stopping") /\
  TasksManager2.trace (snd (TasksManager2.task e m)) = [] /\
  TasksManager2.tasks (TasksManager2.mgr (snd (TasksManager2.task e m)))
    !! TasksManager2.id e = None.
Proof.
  intros Hs. split; [|split; [|apply task2_entry_removed]].
  - run_manager. cbn. rewrite Hs. reflexivity.
  - run_manager. cbn. rewrite Hs. reflexivity.
Qed.

(** * Further properties *)

(** ** Cookies *)

Lemma string_app_cons c s t : String c s +:+ t = String c (s +:+ t).
Proof. reflexivity. Qed.

Lemma string_app_nil_r s : s +:+ "" = s.
Proof. induction s as [|c s IH]; [done|]. by rewrite string_app_cons, IH. Qed.

Lemma string_app_assoc s t u : (s +:+ t) +:+ u = s +:+ t +:+ u.
Proof.
  induction s as [|c s IH]; [done|]. by rewrite !string_app_cons, IH.
Qed.

Lemma string_app_length s t :
  String.length (s +:+ t) = (String.length s + String.length t)%nat.
Proof.
  induction s as [|c s IH]; [done|]. rewrite string_app_cons. cbn. by rewrite IH.
Qed.

Lemma prefix_app sep s :
  String.prefix sep s = true -> s = sep +:+ Cookies.drop (String.length sep) s.
Proof.
  revert s. induction sep as [|a sep IH]; intros s; [done|].
  destruct s as [|b s]; cbn; [discriminate|].
  destruct (Ascii.ascii_dec a b) as [->|]; [|discriminate].
  intros H. rewrite string_app_cons. f_equal. by apply IH.
Qed.

Lemma app_prefix sep t : String.prefix sep (sep +:+ t) = true.
Proof.
  induction sep as [|a sep IH]; cbn.
  - by destruct t.
  - rewrite string_app_cons. cbn.
    destruct (Ascii.ascii_dec a a); [exact IH|done].
Qed.

Lemma split_go_nonempty sep k acc s : Cookies.split_go sep k acc s <> [].
Proof.
  revert k acc. induction s as [|c s IH]; intros k acc;
    cbn [Cookies.split_go]; [done|].
  destruct k; [|apply IH].
  destruct (String.prefix sep (String c s)); [done|apply IH].
Qed.

Lemma join_cons sep x l :
  l <> [] -> Cookies.join sep (x :: l) = x +:+ sep +:+ Cookies.join sep l.
Proof. by destruct l. Qed.

Lemma split_go_join sep s :
  sep <> "" ->
  forall k acc, (k <= String.length s)%nat ->
  Cookies.join sep (Cookies.split_go sep k acc s) = acc +:+ Cookies.drop k s.
Proof.
  intros Hsep. induction s as [|c s IH]; intros k acc Hk.
  - cbn in Hk. assert (k = 0)%nat as -> by lia. cbn. by rewrite string_app_nil_r.
  - cbn [Cookies.split_go]. destruct k as [|k].
    + destruct (String.prefix sep (String c s)) eqn:Hp.
      * pose proof (prefix_app _ _ Hp) as Hs.
        destruct sep as [|a sep]; [done|].
        cbn [String.length Cookies.drop] in Hs.
        rewrite string_app_cons in Hs. injection Hs as <- Hs.
        rewrite join_cons by apply split_go_nonempty.
        assert (Hlen : (String.length sep <= String.length s)%nat).
        { rewrite Hs, string_app_length. lia. }
        replace (String.length (String c sep) - 1)%nat
          with (String.length sep) by (cbn; lia).
        rewrite IH by exact Hlen.
        cbn [Cookies.drop]. f_equal. rewrite string_app_cons. f_equal.
        exact (eq_sym Hs).
      * rewrite IH by lia. cbn [Cookies.drop].
        by rewrite string_app_assoc.
    + cbn in Hk. rewrite IH by lia. done.
Qed.

Lemma chars_join s : Cookies.join "" (Cookies.chars s) = s.
Proof.
  induction s as [|c s IH]; [done|].
  cbn [Cookies.chars]. destruct (Cookies.chars s) eqn:Hc.
  - destruct s; [done|discriminate].
  - rewrite join_cons by done. by rewrite IH.
Qed.

(** Splitting loses nothing: joining the pieces with the separator gives
    the string back. *)
Lemma split_join sep s : Cookies.join sep (Cookies.split sep s) = s.
Proof.
  unfold Cookies.split. destruct sep as [|a sep].
  - apply chars_join.
  - by rewrite split_go_join by (done || lia).
Qed.

Lemma includes_cons needle c s :
  includes needle (String c s) =
  if String.prefix needle (String c s) then true else includes needle s.
Proof. reflexivity. Qed.

Lemma includes_eq_cons c s :
  includes "=" (String c s) =
  if Ascii.ascii_dec Cookies.equals_sign c then true else includes "=" s.
Proof.
  rewrite includes_cons. cbn [String.prefix]. unfold Cookies.equals_sign.
  destruct (Ascii.ascii_dec _ c); [by destruct s|done].
Qed.

Lemma includes_eq_snoc acc c :
  includes "=" acc = false -> Cookies.equals_sign <> c ->
  includes "=" (acc +:+ String c "") = false.
Proof.
  intros Hacc Hc. induction acc as [|a acc IH].
  - change (includes "=" (String c "") = false). rewrite includes_eq_cons.
    by destruct (Ascii.ascii_dec Cookies.equals_sign c).
  - rewrite string_app_cons, includes_eq_cons.
    rewrite includes_eq_cons in Hacc.
    destruct (Ascii.ascii_dec Cookies.equals_sign a); [done|]. by apply IH.
Qed.

Lemma split_eq_cons acc c s :
  Cookies.split_go "=" 0 acc (String c s) =
  if Ascii.ascii_dec Cookies.equals_sign c then acc :: Cookies.split_go "=" 0 "" s
  else Cookies.split_go "=" 0 (acc +:+ String c "") s.
Proof.
  cbn [Cookies.split_go String.prefix String.length Nat.sub].
  unfold Cookies.equals_sign.
  destruct (Ascii.ascii_dec _ c); [by destruct s|done].
Qed.

Lemma split_eq_first s :
  forall acc, includes "=" acc = false ->
  exists key v,
    Cookies.split_go "=" 0 acc s = key :: v /\
    includes "=" key = false /\
    if includes "=" s
    then acc +:+ s = key +:+ "=" +:+ Cookies.join "=" v
    else key = acc +:+ s /\ v = [].
Proof.
  induction s as [|c s IH]; intros acc Hacc.
  - exists acc, []. cbn. by rewrite string_app_nil_r.
  - rewrite split_eq_cons, includes_eq_cons.
    destruct (Ascii.ascii_dec Cookies.equals_sign c) as [<-|Hc].
    + exists acc, (Cookies.split_go "=" 0 "" s). split; [done|]. split; [done|].
      by rewrite split_go_join by (done || lia).
    + destruct (IH (acc +:+ String c "")) as (key & v & -> & Hk & Hrest).
      { by apply includes_eq_snoc. }
      exists key, v. split; [done|]. split; [done|].
      by rewrite string_app_assoc in Hrest.
Qed.

(** X1: each cookie is cut at its first ['=']: the name holds no ['='],
    the value is everything after it, further ['='] included, and
    [name=value] is the piece again; a piece with no ['='] is a name with
    an empty value. Every cookie is bound to the URL of the task. *)
Theorem cookie_name_value href c :
  let ck := Cookies.parse href c in
  Cookies.url ck = href /\
  includes "=" (Cookies.name ck) = false /\
  if includes "=" c
  then c = Cookies.name ck +:+ "=" +:+ Cookies.value ck
  else Cookies.name ck = c /\ Cookies.value ck = "".
Proof.
  unfold Cookies.parse, Cookies.split.
  destruct (split_eq_first c "" eq_refl) as (key & v & -> & Hk & Hrest).
  cbn. split; [done|]. split; [done|].
  destruct (includes "=" c); [done|].
  by destruct Hrest as [-> ->].
Qed.

Lemma prefix_app_l sep a s :
  String.prefix sep a = true -> String.prefix sep (a +:+ s) = true.
Proof.
  intros H. rewrite (prefix_app _ _ H), string_app_assoc. apply app_prefix.
Qed.

Lemma includes_false_intro sep acc :
  (forall a1 a2, acc = a1 +:+ a2 -> String.prefix sep a2 = false) ->
  includes sep acc = false.
Proof.
  induction acc as [|c acc IH]; intros H.
  - change (includes sep "")
      with (if String.prefix sep "" then true else false).
    by rewrite (H "" "" eq_refl).
  - rewrite includes_cons. rewrite (H "" (String c acc) eq_refl).
    apply IH. intros a1 a2 ->. by apply (H (String c a1) a2).
Qed.

Lemma string_app_nil_l s : "" +:+ s = s.
Proof. reflexivity. Qed.

Lemma string_snoc_split acc c a1 a2 :
  acc +:+ String c "" = a1 +:+ a2 -> a2 <> "" ->
  exists a2', a2 = a2' +:+ String c "" /\ acc = a1 +:+ a2'.
Proof.
  revert a1. induction acc as [|x acc IH]; intros a1 Heq Hne.
  - rewrite string_app_nil_l in Heq. destruct a1 as [|y a1].
    + rewrite string_app_nil_l in Heq. exists "". by subst.
    + rewrite string_app_cons in Heq. injection Heq as <- Heq.
      destruct a1 as [|z a1].
      * rewrite string_app_nil_l in Heq. by subst a2.
      * rewrite string_app_cons in Heq. discriminate.
  - rewrite string_app_cons in Heq. destruct a1 as [|y a1].
    + rewrite string_app_nil_l in Heq. subst a2.
      exists (String x acc). by rewrite string_app_cons.
    + rewrite string_app_cons in Heq. injection Heq as <- Heq.
      destruct (IH a1 Heq Hne) as (a2' & -> & ->).
      exists a2'. by rewrite string_app_cons.
Qed.

(** No piece of a split holds the separator. *)
Lemma split_go_pieces sep s :
  sep <> "" ->
  forall k acc,
    (k <> 0%nat -> acc = "") ->
    (forall a1 a2, acc = a1 +:+ a2 -> a2 <> "" ->
                   String.prefix sep (a2 +:+ s) = false) ->
    forall p, In p (Cookies.split_go sep k acc s) -> includes sep p = false.
Proof.
  intros Hsep. induction s as [|c s IH]; intros k acc Hk Hclean p Hp.
  - cbn in Hp. destruct Hp as [<-|[]].
    apply includes_false_intro. intros a1 a2 ->.
    destruct a2 as [|x a2]; [by destruct sep|].
    specialize (Hclean a1 (String x a2) eq_refl ltac:(done)).
    by rewrite string_app_nil_r in Hclean.
  - cbn [Cookies.split_go] in Hp. destruct k as [|k].
    + destruct (String.prefix sep (String c s)) eqn:Hpre.
      * destruct Hp as [<-|Hp].
        -- apply includes_false_intro. intros a1 a2 ->.
           destruct a2 as [|x a2]; [by destruct sep|].
           specialize (Hclean a1 (String x a2) eq_refl ltac:(done)).
           destruct (String.prefix sep (String x a2)) eqn:Hp2; [|done].
           by rewrite (prefix_app_l _ _ (String c s) Hp2) in Hclean.
        -- eapply (IH _ ""); [done| |exact Hp].
           intros a1 a2 Heq Hne. by destruct a1, a2.
      * eapply (IH 0%nat (acc +:+ String c "")); [done| |exact Hp].
        intros a1 a2 Heq Hne.
        destruct (string_snoc_split _ _ _ _ Heq Hne) as (a2' & -> & ->).
        rewrite string_app_assoc. cbn [String.append].
        change (String.prefix sep (a2' +:+ String c s) = false).
        destruct a2' as [|x a2']; [exact Hpre|].
        by apply (Hclean a1 (String x a2')).
    + rewrite (Hk ltac:(done)) in Hp.
      eapply (IH k ""); [done| |exact Hp].
      intros a1 a2 Heq Hne. by destruct a1, a2.
Qed.

Lemma split_pieces sep s p :
  sep <> "" -> In p (Cookies.split sep s) -> includes sep p = false.
Proof.
  intros Hsep. unfold Cookies.split. destruct sep as [|a sep]; [done|].
  apply split_go_pieces; [done|done|].
  intros a1 a2 Heq Hne. by destruct a1, a2.
Qed.

(** X2: the cookies handed to [page.setCookie] are the pieces of the
    header between the occurrences of ["; "], in order and all of them:
    no piece holds a ["; "], joining the pieces with ["; "] gives the
    header back, so that no part of it is dropped, and there is at least
    one cookie. Cookies are set only for a header that is there and not
    empty. *)
Theorem cookies_lossless href headersToForward l :
  Cookies.cookies href headersToForward = Some l ->
  exists header pieces,
    headersToForward !! "cookie" = Some header /\
    header <> "" /\
    Cookies.join "; " pieces = header /\
    (forall p, In p pieces -> includes "; " p = false) /\
    l = map (Cookies.parse href) pieces /\
    l <> [].
Proof.
  unfold Cookies.cookies.
  destruct (headersToForward !! "cookie") as [h|]; [|discriminate].
  destruct (String.eqb h "") eqn:He; [discriminate|].
  intros [= <-]. exists h, (Cookies.split "; " h).
  apply String.eqb_neq in He.
  split; [done|]. split; [done|]. split; [apply split_join|].
  split; [intros p; by apply split_pieces|]. split; [done|].
  unfold Cookies.split.
  pose proof (split_go_nonempty "; " 0 "" h) as Hne.
  by destruct (Cookies.split_go "; " 0 "" h).
Qed.

(** Two cookies, the second with ['='] in its value. *)
Lemma cookies_lossless_witness :
  exists header pieces,
    ({[ "cookie" := "sid=abc; token=a=b=" ]} : gmap string string) !! "cookie"
      = Some header /\
    header <> "" /\
    Cookies.join "; " pieces = header /\
    (forall p, In p pieces -> includes "; " p = false) /\
    [ {| Cookies.url := "http://a.test/"; Cookies.name := "sid";
         Cookies.value := "abc" |};
      {| Cookies.url := "http://a.test/"; Cookies.name := "token";
         Cookies.value := "a=b=" |} ]
    = map (Cookies.parse "http://a.test/") pieces /\
    [ {| Cookies.url := "http://a.test/"; Cookies.name := "sid";
         Cookies.value := "abc" |};
      {| Cookies.url := "http://a.test/"; Cookies.name := "token";
         Cookies.value := "a=b=" |} ] <> [].
Proof.
  exact (cookies_lossless "http://a.test/"
           {[ "cookie" := "sid=abc; token=a=b=" ]} _ eq_refl).
Defined.

(** ** The in-flight list of a renderer *)

Lemma remove_first_spec id l :
  match Renderer.remove_first id l with
  | Some l' =>
      exists l1 l2, l = (l1 ++ id :: l2)%list /\ l' = (l1 ++ l2)%list /\
                    ~ In id l1
  | None => ~ In id l
  end.
Proof.
  induction l as [|x l IH]; cbn; [tauto|].
  destruct (String.eqb id x) eqn:He.
  - apply String.eqb_eq in He as <-. exists [], l. cbn. tauto.
  - apply String.eqb_neq in He.
    destruct (Renderer.remove_first id l) as [l'|]; cbn.
    + destruct IH as (l1 & l2 & -> & -> & Hn).
      exists (x :: l1), l2. cbn. repeat split.
      intros [?|?]; [congruence|tauto].
    + intros [?|?]; [congruence|tauto].
Qed.

(** X3: [_removeTask] takes the first entry with the given id out of the
    in-flight list and nothing else, keeping the order of the others; when
    no entry has the id it throws [Could not find task] and leaves the
    renderer as it is. *)
Theorem removeTask_first_only id o :
  match Renderer._removeTask id o with
  | (Fulfilled _, o') =>
      exists l1 l2,
        Renderer._currentTasks o = (l1 ++ id :: l2)%list /\
        Renderer._currentTasks o' = (l1 ++ l2)%list /\
        ~ In id l1 /\
        Renderer.nbTotalTasks o' = Renderer.nbTotalTasks o /\
        Renderer.ready o' = Renderer.ready o /\
        Renderer._stopping o' = Renderer._stopping o
  | (RejectedWith err, o') =>
      err = Error "Could not find task" /\ o' = o /\
      ~ In id (Renderer._currentTasks o)
  end.
Proof.
  unfold Renderer._removeTask.
  pose proof (remove_first_spec id (Renderer._currentTasks o)) as H.
  destruct (Renderer.remove_first id (Renderer._currentTasks o)) as [l'|].
  - destruct H as (l1 & l2 & H1 & H2 & H3). exists l1, l2. by repeat split.
  - by repeat split.
Qed.

Lemma remove_first_added id l :
  ~ In id l -> Renderer.remove_first id (l ++ [id]) = Some l.
Proof.
  induction l as [|x l IH]; cbn; intros Hn.
  - by rewrite String.eqb_refl.
  - destruct (String.eqb id x) eqn:He.
    + apply String.eqb_eq in He. subst. tauto.
    + rewrite IH by tauto. done.
Qed.

(** X4: a renderer that is not stopping counts every task it is given,
    whatever becomes of it. A task whose page is processed to the end
    leaves the in-flight list as it found it; a task whose [_processPage]
    rejects is never taken out of the list. *)
Theorem renderer_task_accounting job uuid e o :
  Renderer._stopping o = false ->
  ~ In uuid (Renderer._currentTasks o) ->
  let '(res, o', tr) := Renderer.task job uuid e o in
  res = fst (Renderer.run job e) /\
  tr = snd (Renderer.run job e) /\
  Renderer.nbTotalTasks o' = Renderer.nbTotalTasks o + 1 /\
  Renderer._currentTasks o' =
    match res with
    | Fulfilled _ => Renderer._currentTasks o
    | RejectedWith _ => (Renderer._currentTasks o ++ [uuid])%list
    end.
Proof.
  intros Hs Hn. unfold Renderer.task. rewrite Hs.
  destruct (Renderer.run job e) as [[r|err] tr]; cbn [fst snd].
  - unfold Renderer._removeTask. cbn.
    rewrite remove_first_added by exact Hn. by cbn.
  - by cbn.
Qed.

(** A page that cannot be created: the task stays in the list. *)
Lemma renderer_task_accounting_witness :
  let '(res, o', tr) :=
    Renderer.task ResultShape.a_job "task-1"
      {| Renderer.newPage := RejectedWith (Error "Target closed");
         Renderer.defineRequestContext := Fulfilled tt;
         Renderer.firstResponse := None;
         Renderer.goto := Fulfilled None;
         Renderer.injectBaseHref := Fulfilled tt;
         Renderer.debugger := Fulfilled tt;
         Renderer.preSerializationUrl := Fulfilled "";
         Renderer.outerHTML := Fulfilled "";
         Renderer.postSerializationUrl := Fulfilled "";
         Renderer.contextClose := Fulfilled tt |}
      Renderer.new in
  res = RejectedWith (Error "Target closed") /\
  tr = [Renderer.EvNewPage] /\
  Renderer.nbTotalTasks o' = 1 /\
  Renderer._currentTasks o' = ["task-1"].
Proof.
  exact (renderer_task_accounting ResultShape.a_job "task-1"
           {| Renderer.newPage := RejectedWith (Error "Target closed");
              Renderer.defineRequestContext := Fulfilled tt;
              Renderer.firstResponse := None;
              Renderer.goto := Fulfilled None;
              Renderer.injectBaseHref := Fulfilled tt;
              Renderer.debugger := Fulfilled tt;
              Renderer.preSerializationUrl := Fulfilled "";
              Renderer.outerHTML := Fulfilled "";
              Renderer.postSerializationUrl := Fulfilled "";
              Renderer.contextClose := Fulfilled tt |}
           Renderer.new eq_refl (fun H => H)).
Defined.

(** ** The request filter, in full *)

(** X5: the listener of [#updateContext] never settles a request twice:
    it issues one [abort] or one [continue], or, in one case only, none.
    That case is the ad-block test throwing (the [new URL] of line 204 or
    the ad blocker itself): the request is then left neither aborted nor
    continued, the blocked-request counter is not touched, and the
    listener rethrows the error unless its message says the request is
    already handled. In every other case the request is settled exactly
    once, and it is continued exactly when it is no data URI, its
    validation succeeds, its resource type is not ignored, and the ad
    blocker, if enabled, does not match; the blocked-request counter then
    stays as it was. The ad blocker is consulted only when it is enabled
    and only for requests that pass the checks before it. *)
Theorem listener_settles_once
    DATA_REGEXP_test IGNORED_RESOURCES RESTRICTED_IPS params req e m :
  let run := BrowserPage.handle DATA_REGEXP_test IGNORED_RESOURCES
               RESTRICTED_IPS params req e m in
  let s := snd run in
  match Settling.adblock_throws DATA_REGEXP_test IGNORED_RESOURCES
          params req e with
  | Some err =>
      Settling.page_settle_calls (BrowserPage.trace s) = 0%nat /\
      BrowserPage.verdict (BrowserPage.trace s) = None /\
      fst run = (if includes "Request is already handled" (message err)
                 then Fulfilled tt else RejectedWith err) /\
      BrowserPage.blockedRequests (BrowserPage.metrics s) =
        BrowserPage.blockedRequests m
  | None =>
      Settling.page_settle_calls (BrowserPage.trace s) = 1%nat /\
      BrowserPage.verdict (BrowserPage.trace s) =
        Some (if Settling.passes DATA_REGEXP_test IGNORED_RESOURCES
                   params req e
              then BrowserPage.Continued else BrowserPage.Aborted) /\
      (Settling.passes DATA_REGEXP_test IGNORED_RESOURCES params req e
         = true ->
       BrowserPage.blockedRequests (BrowserPage.metrics s) =
         BrowserPage.blockedRequests m)
  end /\
  (In (BrowserPage.EvAdblockMatch (BrowserPage.req_url req))
      (BrowserPage.trace s) ->
   BrowserPage.adblock params = true /\
   DATA_REGEXP_test (BrowserPage.req_url req) = false /\
   BrowserPage.validateURL e = Fulfilled tt /\
   bool_decide (BrowserPage.resourceType req ∈ IGNORED_RESOURCES) = false).
Proof.
  unfold Settling.passes, Settling.adblock_throws. run_listener.
  destruct (DATA_REGEXP_test (BrowserPage.req_url req)) eqn:HD; cbn.
  { repeat split; try done;
      repeat match goal with
             | H : _ \/ _ |- _ => destruct H as [H|H]; try discriminate H
             | H : False |- _ => destruct H
             end. }
  destruct (BrowserPage.validateURL e) as [[]|err] eqn:Hv; cbn.
  - destruct (bool_decide _) eqn:Hi; cbn;
      [|destruct (BrowserPage.adblock params); cbn;
        [destruct (BrowserPage.adblocker_match e) as [[]|aerr]; cbn|];
        try destruct (BrowserPage.isNavigationRequest req); cbn];
      try match goal with
      | |- context [match ?x with Fulfilled _ => _ | RejectedWith _ => _ end] =>
          destruct x as [[]|?]
      end; cbn; try destruct (negb _) eqn:Hneg; cbn;
      (repeat split; try done);
      try (apply negb_true_iff in Hneg; rewrite Hneg; reflexivity);
      try (apply negb_false_iff in Hneg; rewrite Hneg; reflexivity);
      repeat match goal with
             | H : _ \/ _ |- _ => destruct H as [H|H]; try discriminate H
             | H : False |- _ => destruct H
             end; try done.
  - destruct (includes "ENOTFOUND" (message err)); cbn;
      (repeat split; try done);
      repeat match goal with
             | H : _ \/ _ |- _ => destruct H as [H|H]; try discriminate H
             | H : False |- _ => destruct H
             end; try done.
Qed.

(** The script whose URL the ad blocker cannot take is left unsettled,
    and the listener rejects. *)
Example listener_leaves_unsettled :
  BrowserPage.handle Filter.data_uri Filter.ignored Filter.restricted
    Settling.with_adblock Settling.a_script Settling.adblock_fails
    BrowserPage.new_metrics =
  (RejectedWith (Error "Invalid URL"),
   {| BrowserPage.metrics :=
        {| BrowserPage.requests := 1; BrowserPage.blockedRequests := 0;
           BrowserPage.contentLength := 0;
           BrowserPage.contentLengthTotal := 0 |};
      BrowserPage.trace :=
        [BrowserPage.EvIncrRequests;
         BrowserPage.EvValidateURL "http://a.test/app.js" Filter.restricted;
         BrowserPage.EvAdblockMatch "http://a.test/app.js"] |}).
Proof. reflexivity. Qed.

(** X6: headers are forwarded on navigation requests only. A navigation
    request that passes the filter is continued with its own headers
    overridden by the forwarded ones: every forwarded header is there with
    its forwarded value, every other header of the request is kept. Any
    other request that passes is continued untouched. *)
Theorem listener_forwards_headers
    DATA_REGEXP_test IGNORED_RESOURCES RESTRICTED_IPS params req e m :
  Settling.passes DATA_REGEXP_test IGNORED_RESOURCES params req e = true ->
  let s := snd (BrowserPage.handle DATA_REGEXP_test IGNORED_RESOURCES
                  RESTRICTED_IPS params req e m) in
  if BrowserPage.isNavigationRequest req
  then exists hs,
         Settling.page_overrides (BrowserPage.trace s) = Some hs /\
         (forall k v, BrowserPage.headersToForward params !! k = Some v ->
                      hs !! k = Some v) /\
         (forall k, BrowserPage.headersToForward params !! k = None ->
                    hs !! k = BrowserPage.req_headers req !! k)
  else Settling.page_overrides (BrowserPage.trace s) = None.
Proof.
  unfold Settling.passes. run_listener.
  destruct (DATA_REGEXP_test (BrowserPage.req_url req)); [discriminate|].
  destruct (BrowserPage.validateURL e) as [[]|err]; [|discriminate].
  destruct (bool_decide _); [discriminate|]. cbn.
  destruct (BrowserPage.adblock params); cbn;
    [destruct (BrowserPage.adblocker_match e) as [[]|aerr];
     [discriminate| |discriminate]; cbn|];
    intros _; destruct (BrowserPage.isNavigationRequest req); cbn;
    match goal with
    | |- context [match ?x with Fulfilled _ => _ | RejectedWith _ => _ end] =>
        destruct x as [[]|?]
    end; cbn; try destruct (negb _); cbn; try done;
    (eexists; split; [reflexivity|]; unfold BrowserPage.spread; split;
     [intros k v Hk; by apply lookup_union_Some_l
     |intros k Hk; by apply lookup_union_r]).
Qed.

Lemma listener_forwards_headers_witness :
  exists hs,
    Settling.page_overrides
      (BrowserPage.trace
         (snd (BrowserPage.handle Filter.data_uri Filter.ignored
                 Filter.restricted
                 {| BrowserPage.url_href := "http://a.test/";
                    BrowserPage.headersToForward :=
                      {[ "authorization" := "Bearer t" ]};
                    BrowserPage.userAgent := "Algolia Crawler";
                    BrowserPage.adblock := false |}
                 {| BrowserPage.req_url := "http://a.test/";
                    BrowserPage.resourceType := "document";
                    BrowserPage.isNavigationRequest := true;
                    BrowserPage.req_headers :=
                      {[ "accept" := "text/html" ]} |}
                 {| BrowserPage.validateURL := Fulfilled tt;
                    BrowserPage.adblocker_match := Fulfilled false;
                    BrowserPage.abort_awaited := Fulfilled tt;
                    BrowserPage.continue_awaited := Fulfilled tt |}
                 BrowserPage.new_metrics))) = Some hs /\
    (forall k v,
       ({[ "authorization" := "Bearer t" ]} : gmap string string) !! k
         = Some v -> hs !! k = Some v) /\
    (forall k,
       ({[ "authorization" := "Bearer t" ]} : gmap string string) !! k = None ->
       hs !! k = ({[ "accept" := "text/html" ]} : gmap string string) !! k).
Proof.
  exact (listener_forwards_headers Filter.data_uri Filter.ignored
           Filter.restricted
           {| BrowserPage.url_href := "http://a.test/";
              BrowserPage.headersToForward :=
                {[ "authorization" := "Bearer t" ]};
              BrowserPage.userAgent := "Algolia Crawler";
              BrowserPage.adblock := false |}
           {| BrowserPage.req_url := "http://a.test/";
              BrowserPage.resourceType := "document";
              BrowserPage.isNavigationRequest := true;
              BrowserPage.req_headers := {[ "accept" := "text/html" ]} |}
           {| BrowserPage.validateURL := Fulfilled tt;
              BrowserPage.adblocker_match := Fulfilled false;
              BrowserPage.abort_awaited := Fulfilled tt;
              BrowserPage.continue_awaited := Fulfilled tt |}
           BrowserPage.new_metrics eq_refl).
Defined.

(** X7: the older listener of [_defineRequestContextForPage] does not
    stop after aborting a request whose validation failed: it goes on to
    the resource checks and issues a second [abort] or [continue] on the
    request. A request whose validation succeeds is settled once. The
    listener throws only what an [abort] or [continue] it awaits rejects
    with, and not when that says the request is already handled. *)
Theorem old_listener_settles_twice RESTRICTED_IPS headersToForward req e :
  let run := Renderer.onRequest RESTRICTED_IPS headersToForward req e [] in
  Settling.renderer_settle_calls (snd run) =
    match Renderer.validateURL e with
    | Fulfilled _ => 1%nat
    | RejectedWith _ => 2%nat
    end /\
  forall err, fst run = RejectedWith err ->
    includes "Request is already handled" (message err) = false /\
    (Renderer.abort_awaited e = RejectedWith err \/
     Renderer.continue_awaited e = RejectedWith err).
Proof.
  run_listener.
  destruct (Renderer.validateURL e) as [[]|verr]; cbn;
    (destruct (bool_decide _); cbn;
     [|destruct (Renderer.isNavigationRequest req); cbn]);
    match goal with
    | |- context [match ?x with Fulfilled _ => _ | RejectedWith _ => _ end] =>
        destruct x as [[]|aerr] eqn:Ha
    end; cbn; try (destruct (negb _) eqn:Hn; cbn);
    (split; [reflexivity|]); intros err' [= <-];
    try (apply negb_true_iff in Hn); auto.
Qed.

(** ** The task manager over time *)

(** X8: the manager is healthy exactly when it is not stopping, no task
    in its map was created more than [UNHEALTHY_TASK_TTL] ago, and it has
    a browser that is ready. One overdue entry is enough to make it
    unhealthy, for as long as the entry stays. *)
Theorem healthy_iff UNHEALTHY_TASK_TTL now m :
  TasksManager.healthy UNHEALTHY_TASK_TTL now m = true <->
  TasksManager.stopping m = false /\
  (forall k o, TasksManager.tasks m !! k = Some o ->
               now - TasksManager.createdAt o <= UNHEALTHY_TASK_TTL) /\
  exists b, TasksManager.browser m = Some b /\ TasksManager.isReady b = true.
Proof.
  unfold TasksManager.healthy.
  set (late := fun kv : string * TasksManager.TaskObject =>
                 UNHEALTHY_TASK_TTL <? now - TasksManager.createdAt (snd kv)).
  assert (Hlate :
    length (List.filter late (map_to_list (TasksManager.tasks m))) = 0%nat <->
    forall k o, TasksManager.tasks m !! k = Some o ->
                now - TasksManager.createdAt o <= UNHEALTHY_TASK_TTL).
  { rewrite length_zero_iff_nil. split.
    - intros Hnil k o Hk.
      destruct (Z.ltb_spec UNHEALTHY_TASK_TTL (now - TasksManager.createdAt o))
        as [Hlt|]; [|done].
      assert (In (k, o) (List.filter late (map_to_list (TasksManager.tasks m)))).
      { apply filter_In. split.
        - apply list_elem_of_In. by apply elem_of_map_to_list.
        - unfold late. cbn. by apply Z.ltb_lt. }
      rewrite Hnil in H. destruct H.
    - intros Hall.
      destruct (List.filter late _) as [|[k o] l] eqn:Hf; [done|].
      assert (In (k, o) (List.filter late (map_to_list (TasksManager.tasks m))))
        as Hin by (rewrite Hf; by left).
      apply filter_In in Hin as [Hin Hl].
      apply list_elem_of_In, elem_of_map_to_list in Hin.
      apply Hall in Hin. unfold late in Hl. cbn in Hl.
      apply Z.ltb_lt in Hl. lia. }
  destruct (TasksManager.stopping m).
  { split; [discriminate|]. by intros [? _]. }
  destruct (Nat.eqb_spec
              (length (List.filter late (map_to_list (TasksManager.tasks m)))) 0)
    as [Hz|Hnz]; cbn.
  - destruct (TasksManager.browser m) as [b|].
    + split.
      * intros Hr. split; [done|]. split; [by apply Hlate|]. by exists b.
      * by intros (_ & _ & b' & [= <-] & Hr).
    + split; [discriminate|]. by intros (_ & _ & b' & [=] & _).
  - split; [discriminate|]. intros (_ & Hall & _). by apply Hlate in Hall.
Qed.

(** The two steps make up [stop()]. *)
Lemma stop_in_two_steps e m b :
  TasksManager.browser m = Some b ->
  TasksManager.awaitTasks e = Fulfilled tt ->
  TasksManager.browserStop e = Fulfilled tt ->
  TasksManager.mgr (snd (TasksManager.stop e m)) =
    Lifecycle.stop_resume (Lifecycle.stop_until_browser m).
Proof.
  intros Hb Ha Hbs. destruct m as [br st t]; cbn in Hb; subst.
  run_manager. cbn. rewrite Ha.
  destruct (Nat.eqb _ 0); cbn; rewrite Hbs; reflexivity.
Qed.



(** X10: an error of [process()] does not fail the call, as long as
    the entry of the call stays in the map while the call is suspended,
    that is, as long as no [stop()] clears the map meanwhile: neither one
    called from outside nor the one started by the timer of the call
    itself, which is not cancelled when the page is created in time.
    Under that condition, when the page is created and linked and the
    task closes, [task()] fulfils with the results and metrics of the
    task whether [process()] fulfilled or rejected; a rejection is
    reported once and that is all; the entry of the call is gone at the
    end. With no other coroutine at work at all, the manager is left
    exactly as it was found. *)
Theorem task_survives_process {TaskResult Metrics : Type} job
    (e : TasksManager.TaskEnv TaskResult Metrics) m b :
  TasksManager.stopping m = false ->
  TasksManager.browser m = Some b ->
  TasksManager.pageCreate e = TasksManager.Created ->
  TasksManager.linkToTask e = Fulfilled tt ->
  TasksManager.close_body e = Fulfilled tt ->
  TasksManager.close_cleanup e = Fulfilled tt ->
  Lifecycle.entry_stays e ->
  let run := TasksManager.task job e m in
  fst run = Fulfilled {| TasksManager.res := TasksManager.results e;
                         TasksManager.metrics := TasksManager.task_metrics e |}
  /\ TasksManager.tasks (TasksManager.mgr (snd run)) !! TasksManager.uuid e
     = None
  /\ Lifecycle.reports (TasksManager.trace (snd run)) =
       match TasksManager.process e with
       | Fulfilled _ => []
       | RejectedWith err => [err]
       end
  /\ (Lifecycle.quiet e ->
      TasksManager.tasks m !! TasksManager.uuid e = None ->
      TasksManager.mgr (snd run) = m).
Proof.
  intros Hs Hb Hc Hl Hcb Hcc Hstay.
  destruct m as [br st t]; cbn in Hs, Hb; subst.
  run_manager. cbn. rewrite Hc. cbn.
  rewrite Hstay. cbn. rewrite lookup_insert_eq. cbn. rewrite Hl. cbn.
  destruct (TasksManager.process e) as [[]|perr]; cbn;
    rewrite Hcb; cbn;
    rewrite !Hstay; cbn; rewrite lookup_alter_eq; cbn;
    rewrite !Hstay; cbn; rewrite lookup_alter_eq; cbn;
    rewrite !Hstay; cbn; rewrite lookup_insert_eq; cbn;
    rewrite Hcc; cbn.
  all: split; [reflexivity|]; split; [apply lookup_delete_eq|];
       split; [reflexivity|].
  all: intros Hq Hfresh; rewrite !Hq; cbn;
       rewrite !alter_insert_eq, delete_insert_eq, delete_id by done; done.
Qed.

(** A render whose [process()] rejects, while another call registers a
    task of its own. *)
Lemma task_survives_process_witness :
  let e : TasksManager.TaskEnv unit unit :=
    {| TasksManager.uuid := "task-1";
       TasksManager.now := 1000;
       TasksManager.pageCreate := TasksManager.Created;
       TasksManager.linkToTask := Fulfilled tt;
       TasksManager.process := RejectedWith (Error "Execution context was destroyed");
       TasksManager.results := tt;
       TasksManager.close_body := Fulfilled tt;
       TasksManager.task_metrics := tt;
       TasksManager.close_cleanup := Fulfilled tt;
       TasksManager.interfere := fun p m =>
         match p with
         | TasksManager.AtProcess =>
             TasksManager.set_tasks
               (<["task-2" := {| TasksManager.id := "task-2";
                                 TasksManager.createdAt := 1500;
                                 TasksManager.o_task := None;
                                 TasksManager.taskPromise := false |}]>
                  (TasksManager.tasks m)) m
         | _ => m
         end |} in
  let run := TasksManager.task Managers.a_job e Managers.launched in
  fst run = Fulfilled {| TasksManager.res := tt; TasksManager.metrics := tt |}
  /\ TasksManager.tasks (TasksManager.mgr (snd run)) !! "task-1" = None
  /\ Lifecycle.reports (TasksManager.trace (snd run)) =
       [Error "Execution context was destroyed"].
Proof.
  destruct (task_survives_process Managers.a_job
           {| TasksManager.uuid := "task-1";
              TasksManager.now := 1000;
              TasksManager.pageCreate := TasksManager.Created;
              TasksManager.linkToTask := Fulfilled tt;
              TasksManager.process :=
                RejectedWith (Error "Execution context was destroyed");
              TasksManager.results := tt;
              TasksManager.close_body := Fulfilled tt;
              TasksManager.task_metrics := tt;
              TasksManager.close_cleanup := Fulfilled tt;
              TasksManager.interfere := fun p m =>
                match p with
                | TasksManager.AtProcess =>
                    TasksManager.set_tasks
                      (<["task-2" := {| TasksManager.id := "task-2";
                                        TasksManager.createdAt := 1500;
                                        TasksManager.o_task := None;
                                        TasksManager.taskPromise := false |}]>
                         (TasksManager.tasks m)) m
                | _ => m
                end |}
           Managers.launched {| TasksManager.isReady := true |}
           eq_refl eq_refl eq_refl eq_refl eq_refl eq_refl)
    as (H1 & H2 & H3 & _).
  - intros p m. destruct p; try reflexivity.
    cbn. by rewrite lookup_insert_ne.
  - exact (conj H1 (conj H2 H3)).
Defined.

(** X11: when the page cannot be created in time the manager evicts
    itself: it is left stopping, browser still in place, and every task
    submitted afterwards is rejected. The [stop()] started by the timer
    waits for the tasks in flight before it clears the map. With some in
    flight ([cleared] is false), the call rejects with [Can not create a
    BrowserPage] and takes its own entry out. With none, the map is
    cleared before the cleanup of the call runs ([cleared] is true), and
    the caller gets the [Could not find task] of [#removeTask] in place of
    that error. *)
Theorem task_timeout_evicts {TaskResult Metrics : Type} job
    (e : TasksManager.TaskEnv TaskResult Metrics) m b (cleared : bool) :
  TasksManager.stopping m = false ->
  TasksManager.browser m = Some b ->
  TasksManager.tasks m !! TasksManager.uuid e = None ->
  TasksManager.pageCreate e = TasksManager.TimedOut ->
  (forall m', TasksManager.interfere e TasksManager.AtCreate m' = m') ->
  (forall m', TasksManager.interfere e TasksManager.AfterTimeout m' =
              if cleared then TasksManager.set_tasks ∅ m' else m') ->
  let run := TasksManager.task job e m in
  fst run =
    RejectedWith
      (Error (if cleared
              then "Could not find task: " +:+ TasksManager.uuid e
              else "Can not create a BrowserPage")) /\
  TasksManager.mgr (snd run) =
    TasksManager.set_stopping true
      (if cleared then TasksManager.set_tasks ∅ m else m) /\
  forall job' (e' : TasksManager.TaskEnv TaskResult Metrics),
    fst (TasksManager.task job' e' (TasksManager.mgr (snd run))) =
    RejectedWith (Error "Task can not be executed: stopping").
Proof.
  intros Hs Hb Hfresh Hc Hq1 Hq2.
  destruct m as [br st t]; cbn in Hs, Hb, Hfresh; subst.
  assert (Hrun :
    TasksManager.task job e
      {| TasksManager.browser := Some b; TasksManager.stopping := false;
         TasksManager.tasks := t |} =
    (RejectedWith
       (Error (if cleared
               then "Could not find task: " +:+ TasksManager.uuid e
               else "Can not create a BrowserPage")),
     {| TasksManager.mgr :=
          {| TasksManager.browser := Some b; TasksManager.stopping := true;
             TasksManager.tasks := if cleared then ∅ else t |};
        TasksManager.trace :=
          [TasksManager.EvLog "Processing"; TasksManager.EvPageCreate;
           TasksManager.EvWait;
           TasksManager.EvLog "Tasks Manager stopping...";
           TasksManager.EvLog "Fail"; TasksManager.EvLog "Finally"] |})).
  { run_manager. cbn. rewrite Hc. cbn. rewrite Hq1, Hq2. cbn.
    destruct cleared; cbn.
    - rewrite lookup_empty. reflexivity.
    - rewrite lookup_insert_eq. cbn.
      rewrite delete_insert_eq, delete_id by done. done. }
  cbv zeta. rewrite Hrun. cbn. destruct cleared; repeat split.
Qed.

(** A page that is not created in time on a manager with nothing else in
    flight. *)
Lemma task_timeout_evicts_witness :
  let e : TasksManager.TaskEnv unit unit :=
    {| TasksManager.uuid := "task-1";
       TasksManager.now := 1000;
       TasksManager.pageCreate := TasksManager.TimedOut;
       TasksManager.linkToTask := Fulfilled tt;
       TasksManager.process := Fulfilled tt;
       TasksManager.results := tt;
       TasksManager.close_body := Fulfilled tt;
       TasksManager.task_metrics := tt;
       TasksManager.close_cleanup := Fulfilled tt;
       TasksManager.interfere := fun p m =>
         match p with
         | TasksManager.AfterTimeout => TasksManager.set_tasks ∅ m
         | _ => m
         end |} in
  let run := TasksManager.task Managers.a_job e Managers.launched in
  fst run = RejectedWith (Error "Could not find task: task-1") /\
  TasksManager.mgr (snd run) =
    TasksManager.set_stopping true
      (TasksManager.set_tasks ∅ Managers.launched) /\
  forall job' (e' : TasksManager.TaskEnv unit unit),
    fst (TasksManager.task job' e' (TasksManager.mgr (snd run))) =
    RejectedWith (Error "Task can not be executed: stopping").
Proof.
  exact (task_timeout_evicts Managers.a_job
           {| TasksManager.uuid := "task-1";
              TasksManager.now := 1000;
              TasksManager.pageCreate := TasksManager.TimedOut;
              TasksManager.linkToTask := Fulfilled tt;
              TasksManager.process := Fulfilled tt;
              TasksManager.results := tt;
              TasksManager.close_body := Fulfilled tt;
              TasksManager.task_metrics := tt;
              TasksManager.close_cleanup := Fulfilled tt;
              TasksManager.interfere := fun p m =>
                match p with
                | TasksManager.AfterTimeout => TasksManager.set_tasks ∅ m
                | _ => m
                end |}
           Managers.launched {| TasksManager.isReady := true |} true
           eq_refl eq_refl eq_refl eq_refl
           (fun _ => eq_refl) (fun _ => eq_refl)).
Defined.

(** X12: a [stop()] that runs while a call waits for its page takes the
    entry of the call away: the call has no promise yet for [stop()] to
    wait for. The call goes on, finds no entry to attach its task to, and
    ends in [#removeTask] throwing [Could not find task]: that is the
    error the caller gets, whatever the creation of the page came to, and
    no entry is left. *)
Theorem task_error_masked {TaskResult Metrics : Type} job
    (e : TasksManager.TaskEnv TaskResult Metrics) m b :
  TasksManager.stopping m = false ->
  TasksManager.browser m = Some b ->
  (forall m', TasksManager.interfere e TasksManager.AtCreate m' =
              TasksManager.set_stopping true (TasksManager.set_tasks ∅ m')) ->
  (forall m', TasksManager.tasks
                (TasksManager.interfere e TasksManager.AfterTimeout m') =
              TasksManager.tasks m') ->
  let run := TasksManager.task job e m in
  fst run =
    RejectedWith (Error ("Could not find task: " +:+ TasksManager.uuid e)) /\
  TasksManager.tasks (TasksManager.mgr (snd run)) = ∅.
Proof.
  intros Hs Hb Hclear Hq.
  destruct m as [br st t]; cbn in Hs, Hb; subst.
  run_manager. cbn.
  destruct (TasksManager.pageCreate e) as [|cerr|]; cbn;
    rewrite ?Hclear; cbn; rewrite ?Hq; cbn; rewrite ?lookup_empty; cbn;
    done.
Qed.

(** The manager is stopped while the page is being created; the page
    comes. *)
Lemma task_error_masked_witness :
  let e : TasksManager.TaskEnv unit unit :=
    {| TasksManager.uuid := "task-1";
       TasksManager.now := 1000;
       TasksManager.pageCreate := TasksManager.Created;
       TasksManager.linkToTask := Fulfilled tt;
       TasksManager.process := Fulfilled tt;
       TasksManager.results := tt;
       TasksManager.close_body := Fulfilled tt;
       TasksManager.task_metrics := tt;
       TasksManager.close_cleanup := Fulfilled tt;
       TasksManager.interfere := fun p m =>
         match p with
         | TasksManager.AtCreate =>
             TasksManager.set_stopping true (TasksManager.set_tasks ∅ m)
         | _ => m
         end |} in
  let run := TasksManager.task Managers.a_job e Managers.launched in
  fst run = RejectedWith (Error "Could not find task: task-1") /\
  TasksManager.tasks (TasksManager.mgr (snd run)) = ∅.
Proof.
  exact (task_error_masked Managers.a_job
           {| TasksManager.uuid := "task-1";
              TasksManager.now := 1000;
              TasksManager.pageCreate := TasksManager.Created;
              TasksManager.linkToTask := Fulfilled tt;
              TasksManager.process := Fulfilled tt;
              TasksManager.results := tt;
              TasksManager.close_body := Fulfilled tt;
              TasksManager.task_metrics := tt;
              TasksManager.close_cleanup := Fulfilled tt;
              TasksManager.interfere := fun p m =>
                match p with
                | TasksManager.AtCreate =>
                    TasksManager.set_stopping true
                      (TasksManager.set_tasks ∅ m)
                | _ => m
                end |}
           Managers.launched {| TasksManager.isReady := true |}
           eq_refl eq_refl (fun _ => eq_refl) (fun _ => eq_refl)).
Defined.

(** ** The later task manager *)

(** X13: in the later revision the awaited calls of a task cannot break
    the call that runs it. Once the two guards are passed, whatever
    [createContext], [process], [saveMetrics] and [close] answer, and
    whatever the other coroutines do to the manager meanwhile (a [stop()]
    included), the outcome depends on one thing only: whether [task.page]
    is defined when the result is put together at line 132. When it is,
    the call fulfils with the results, the timeout flag of the page and
    the metrics read from the task. When it is not, which is what a
    [createContext] that failed before making the page leaves, reading
    [task.page.hasTimeout] throws outside both [try] blocks and the call
    rejects. *)
Theorem task2_absorbs_failures {TaskResult Metrics : Type}
    (e : TasksManager2.TaskEnv TaskResult Metrics) m b :
  TasksManager2.stopping m = false ->
  TasksManager2.browser m = Some b ->
  match TasksManager2.hasTimeout e with
  | Some t =>
      fst (TasksManager2.task e m) =
        Fulfilled {| TasksManager2.res := TasksManager2.results e;
                     TasksManager2.timeout := t;
                     TasksManager2.metrics := TasksManager2.task_metrics e |}
  | None => exists err, fst (TasksManager2.task e m) = RejectedWith err
  end.
Proof.
  intros Hs Hb.
  destruct m as [br st tk n]; cbn in Hs, Hb; subst.
  run_manager. cbn.
  destruct (TasksManager2.hasTimeout e) as [t|];
    (destruct (TasksManager2.createContext e) as [[]|e1]; cbn;
     [destruct (TasksManager2.process e) as [[]|e2]; cbn;
      [destruct (TasksManager2.saveMetrics e) as [[]|e3]; cbn|]|]);
    destruct (TasksManager2.close e) as [[]|e4]; cbn;
    first [reflexivity | eexists; reflexivity].
Qed.

(** A task whose [createContext] fails before the page exists, on a
    manager that is stopped meanwhile. *)
Lemma task2_absorbs_failures_witness :
  exists err,
    fst (TasksManager2.task
           ({| TasksManager2.id := "task-1";
               TasksManager2.createContext :=
                 RejectedWith (Error "Target closed");
               TasksManager2.process := Fulfilled tt;
               TasksManager2.saveMetrics := Fulfilled tt;
               TasksManager2.close := Fulfilled tt;
               TasksManager2.task_metrics := tt;
               TasksManager2.results := tt;
               TasksManager2.hasTimeout := None;
               TasksManager2.interfere :=
                 fun _ => TasksManager2.set_stopping true |}
            : TasksManager2.TaskEnv unit unit)
           {| TasksManager2.browser :=
                Some {| TasksManager2.isReady := true |};
              TasksManager2.stopping := false;
              TasksManager2.tasks := ∅;
              TasksManager2.totalRun := 0 |}) = RejectedWith err.
Proof.
  exact (task2_absorbs_failures
           ({| TasksManager2.id := "task-1";
               TasksManager2.createContext :=
                 RejectedWith (Error "Target closed");
               TasksManager2.process := Fulfilled tt;
               TasksManager2.saveMetrics := Fulfilled tt;
               TasksManager2.close := Fulfilled tt;
               TasksManager2.task_metrics := tt;
               TasksManager2.results := tt;
               TasksManager2.hasTimeout := None;
               TasksManager2.interfere :=
                 fun _ => TasksManager2.set_stopping true |}
            : TasksManager2.TaskEnv unit unit)
           {| TasksManager2.browser :=
                Some {| TasksManager2.isReady := true |};
              TasksManager2.stopping := false;
              TasksManager2.tasks := ∅;
              TasksManager2.totalRun := 0 |}
           {| TasksManager2.isReady := true |}
           eq_refl eq_refl).
Defined.

(** X14: what one call of the later [task()] leaves behind when no other
    coroutine touches the manager meanwhile: [totalRun] is one more and
    no entry is left under the task's id, nothing else has changed. This
    holds for every outcome: a task rejected by the guards, because the
    manager is stopping or has no browser, is counted as run too. *)
Theorem task2_accounting {TaskResult Metrics : Type}
    (e : TasksManager2.TaskEnv TaskResult Metrics) m :
  (forall p m', TasksManager2.interfere e p m' = m') ->
  TasksManager2.mgr (snd (TasksManager2.task e m)) =
    {| TasksManager2.browser := TasksManager2.browser m;
       TasksManager2.stopping := TasksManager2.stopping m;
       TasksManager2.tasks :=
         delete (TasksManager2.id e) (TasksManager2.tasks m);
       TasksManager2.totalRun := TasksManager2.totalRun m + 1 |}.
Proof.
  intros Hq.
  destruct m as [br st tk n].
  run_manager. cbn.
  destruct st; cbn; rewrite ?Hq; cbn.
  { by rewrite delete_insert_eq. }
  destruct br as [b|]; cbn; rewrite ?Hq; cbn.
  2: { by rewrite delete_insert_eq. }
  destruct (TasksManager2.createContext e) as [[]|e1]; cbn; rewrite ?Hq; cbn;
    [destruct (TasksManager2.process e) as [[]|e2]; cbn; rewrite ?Hq; cbn;
     [destruct (TasksManager2.saveMetrics e) as [[]|e3]; cbn;
      rewrite ?Hq; cbn|]|];
    destruct (TasksManager2.close e) as [[]|e4]; cbn; rewrite ?Hq; cbn;
    destruct (TasksManager2.hasTimeout e); cbn; rewrite ?Hq; cbn;
    rewrite ?delete_insert_eq, ?delete_delete_eq; reflexivity.
Qed.

Lemma task2_accounting_witness :
  let e : TasksManager2.TaskEnv unit unit :=
    {| TasksManager2.id := "task-1";
       TasksManager2.createContext := Fulfilled tt;
       TasksManager2.process := Fulfilled tt;
       TasksManager2.saveMetrics := Fulfilled tt;
       TasksManager2.close := Fulfilled tt;
       TasksManager2.task_metrics := tt;
       TasksManager2.results := tt;
       TasksManager2.hasTimeout := Some false;
       TasksManager2.interfere := fun _ m => m |} in
  TasksManager2.mgr (snd (TasksManager2.task e TasksManager2.new)) =
    {| TasksManager2.browser := None;
       TasksManager2.stopping := true;
       TasksManager2.tasks := delete "task-1" ∅;
       TasksManager2.totalRun := 0 + 1 |}.
Proof.
  exact (task2_accounting
           {| TasksManager2.id := "task-1";
              TasksManager2.createContext := Fulfilled tt;
              TasksManager2.process := Fulfilled tt;
              TasksManager2.saveMetrics := Fulfilled tt;
              TasksManager2.close := Fulfilled tt;
              TasksManager2.task_metrics := tt;
              TasksManager2.results := tt;
              TasksManager2.hasTimeout := Some false;
              TasksManager2.interfere := fun _ m => m |}
           TasksManager2.new (fun _ _ => eq_refl)).
Defined.

Lemma for_each_present e l s :
  (forall i, In i l -> is_Some (TasksManager2.tasks (TasksManager2.mgr s) !! i)) ->
  TasksManager2.for_each e l s =
    (Fulfilled tt,
     {| TasksManager2.mgr := TasksManager2.mgr s;
        TasksManager2.trace :=
          (TasksManager2.trace s ++ (TasksManager2.EvAwaitTask <$> l))%list |}).
Proof.
  revert s. induction l as [|i l IH]; intros s Hin.
  - cbn. rewrite app_nil_r. by destruct s.
  - cbn [TasksManager2.for_each]. unfold bind at 1.
    unfold TasksManager2.removeTask.
    unfold bind at 1. cbn [TasksManager2.get_mgr].
    destruct (Hin i (or_introl eq_refl)) as [o ->].
    unfold try_catch, bind, TasksManager2.emit. cbn.
    assert (Hrest :
      TasksManager2.for_each e l
        {| TasksManager2.mgr := TasksManager2.mgr s;
           TasksManager2.trace :=
             (TasksManager2.trace s ++ [TasksManager2.EvAwaitTask i])%list |} =
      (Fulfilled tt,
       {| TasksManager2.mgr := TasksManager2.mgr s;
          TasksManager2.trace :=
            (TasksManager2.trace s ++
             TasksManager2.EvAwaitTask i ::
             (TasksManager2.EvAwaitTask <$> l))%list |})).
    { rewrite IH; cbn; [by rewrite <- app_assoc|].
      intros j Hj. apply Hin. by right. }
    destruct (TasksManager2.promises e i) as [[]|err]; cbn; exact Hrest.
Qed.

(** X15: [stop()] of the later revision waits for every task in the map,
    once each and whatever they settle to: a task that rejects does not
    make [stop()] reject. On a map where every task sits under its own
    id, [stop()] settles as [browser.stop()] does, or fulfils when there
    is no browser; the map is empty afterwards, and the browser is
    dropped unless its [stop()] rejected. *)
Theorem stop2_waits_for_all e m :
  Keys.well_keyed m ->
  TasksManager2.stop e m =
    (match TasksManager2.browser m with
     | Some _ => TasksManager2.browserStop e
     | None => Fulfilled tt
     end,
     {| TasksManager2.mgr :=
          {| TasksManager2.browser :=
               match TasksManager2.browserStop e with
               | Fulfilled _ => None
               | RejectedWith _ => TasksManager2.browser m
               end;
             TasksManager2.stopping := true;
             TasksManager2.tasks := ∅;
             TasksManager2.totalRun := TasksManager2.totalRun m |};
        TasksManager2.trace :=
          (TasksManager2.EvLog "[Manager] stopping..." ::
           (TasksManager2.EvAwaitTask <$> Keys.ids m) ++
           match TasksManager2.browser m with
           | Some _ => [TasksManager2.EvBrowserStop]
           | None => []
           end)%list |}).
Proof.
  intros Hk.
  destruct m as [br st tk n].
  unfold TasksManager2.stop, TasksManager2.stop_.
  unfold bind at 1. cbn [TasksManager2.upd_mgr TasksManager2.mgr].
  unfold bind at 1. cbn [TasksManager2.emit TasksManager2.mgr TasksManager2.trace].
  unfold bind at 1. cbn [TasksManager2.get_mgr TasksManager2.mgr].
  unfold bind at 1.
  rewrite for_each_present.
  2: { cbn. intros i Hi.
       apply list_elem_of_In in Hi.
       apply list_elem_of_fmap in Hi as (o & -> & Ho).
       apply list_elem_of_fmap in Ho as ([k o'] & -> & Hko).
       apply elem_of_map_to_list in Hko. cbn.
       rewrite (Hk k o' Hko). by exists o'. }
  run_manager. cbn.
  destruct br as [b|]; cbn.
  - destruct (TasksManager2.browserStop e) as [[]|err]; cbn; reflexivity.
  - destruct (TasksManager2.browserStop e) as [[]|err]; cbn;
      by rewrite ?app_nil_r.
Qed.

Lemma stop2_waits_for_all_witness :
  TasksManager2.stop Keys.tasks_fail Keys.one_entry =
    (Fulfilled tt,
     {| TasksManager2.mgr :=
          {| TasksManager2.browser := None;
             TasksManager2.stopping := true;
             TasksManager2.tasks := ∅;
             TasksManager2.totalRun := 1 |};
        TasksManager2.trace :=
          (TasksManager2.EvLog "[Manager] stopping..." ::
           (TasksManager2.EvAwaitTask <$> Keys.ids Keys.one_entry) ++
           [TasksManager2.EvBrowserStop])%list |}).
Proof.
  apply (stop2_waits_for_all Keys.tasks_fail Keys.one_entry).
  intros k o. unfold Keys.one_entry. cbn.
  intros H. apply lookup_singleton_Some in H as [<- <-]. reflexivity.
Defined.

(** ** Stopping the pool *)

(** Every step of a stopping pool is one the other coroutines are
    allowed in [PoolShutdown.calm]. *)
Lemma step_evolves MAX w l w' :
  RollingRenderer._stopping (RollingRenderer.pool w) = true ->
  RollingRenderer.step MAX w l w' -> PoolShutdown.evolves w w'.
Proof.
  intros Hs Hstep. destruct Hstep; unfold PoolShutdown.evolves.
  - unfold RollingRenderer.renderer. rewrite Hs. cbn. done.
  - unfold RollingRenderer.task. rewrite Hs. cbn. done.
  - cbn. repeat split. intros r'.
    destruct (decide (r' = r)) as [->|Hne].
    + rewrite lookup_insert_eq, H. cbn. f_equal.
      apply renderer_task_flags.
    + by rewrite lookup_insert_ne.
  - cbn. repeat split. intros r'.
    destruct (decide (r' = r)) as [->|Hne].
    + by rewrite lookup_insert_eq, H.
    + by rewrite lookup_insert_ne.
  - cbn. done.
  - cbn. done.
  - cbn. done.
Qed.

Lemma begin_stop_flags r w r' :
  (Renderer._stopping <$>
     (RollingRenderer.heap (RollingRenderer.begin_stop r w) !! r')) =
  if decide (r' = r)
  then (fun _ => true) <$> (RollingRenderer.heap w !! r')
  else Renderer._stopping <$> (RollingRenderer.heap w !! r').
Proof.
  unfold RollingRenderer.begin_stop; cbn.
  destruct (decide (r' = r)) as [->|Hne].
  - rewrite lookup_alter_eq. by destruct (RollingRenderer.heap w !! r).
  - by rewrite lookup_alter_ne.
Qed.

Lemma asked_evolves w w' r :
  PoolShutdown.evolves w w' -> PoolShutdown.asked w r ->
  PoolShutdown.asked w' r.
Proof.
  intros (_ & _ & _ & Hflags) Ha o Ho.
  specialize (Hflags r). rewrite Ho in Hflags. cbn in Hflags.
  destruct (RollingRenderer.heap w !! r) as [o0|] eqn:Ho0; [|discriminate].
  cbn in Hflags. injection Hflags as ->. by apply Ha.
Qed.

Lemma asked_begin_stop w r r' :
  r' = r \/ PoolShutdown.asked w r' ->
  PoolShutdown.asked (RollingRenderer.begin_stop r w) r'.
Proof.
  intros Hr o Ho.
  pose proof (begin_stop_flags r w r') as Hf. rewrite Ho in Hf. cbn in Hf.
  destruct (decide (r' = r)) as [->|Hne].
  - destruct (RollingRenderer.heap w !! r); [|discriminate].
    cbn in Hf. by injection Hf.
  - destruct Hr as [?|Ha]; [done|].
    destruct (RollingRenderer.heap w !! r') as [o0|] eqn:Ho0; [|discriminate].
    cbn in Hf. injection Hf as ->. by apply Ha.
Qed.

Lemma await_fulfilled e p o w k w' :
  PoolShutdown.calm e ->
  RollingRenderer._stopping (RollingRenderer.pool w) = true ->
  PoolShutdown.await e p o w k = (Some (Fulfilled tt), w') ->
  exists w1, PoolShutdown.evolves w w1 /\ k w1 = (Some (Fulfilled tt), w').
Proof.
  intros Hcalm Hs. unfold PoolShutdown.await.
  destruct o as [[[]|err]|]; try discriminate.
  intros Hk. eexists. split; [apply Hcalm, Hs|exact Hk].
Qed.

(** X16: no renderer outlives the pool. When [stop()] of a serving pool
    fulfils, every renderer the pool has ever created has been asked to
    stop: the retired ones when they were replaced, the current one and
    the replacement being warmed up, if any, by [stop()] itself. *)
Theorem rolling_stop_stops_all e w :
  Rolling.Inv w ->
  PoolShutdown.calm e ->
  fst (PoolShutdown.stop e w) = Some (Fulfilled tt) ->
  PoolShutdown.all_stopping (snd (PoolShutdown.stop e w)).
Proof.
  intros [_ _ Hothers _] Hcalm.
  destruct (PoolShutdown.stop e w) as [res w'] eqn:Hstop. cbn.
  intros ->. revert Hstop.
  unfold PoolShutdown.stop.
  set (w0 := RollingRenderer.set_pool _ w).
  assert (Hs0 : RollingRenderer._stopping (RollingRenderer.pool w0) = true)
    by reflexivity.
  assert (H0 : forall r,
             r <> RollingRenderer._currentRenderer (RollingRenderer.pool w0) ->
             RollingRenderer._futureRenderer (RollingRenderer.pool w0) <> Some r ->
             PoolShutdown.asked w0 r).
  { intros r Hc Hf o Ho. by apply (Hothers r o). }
  clearbody w0. clear Hothers w.
  assert (Hrest : forall w1, PoolShutdown.evolves w0 w1 ->
    (let w2 := RollingRenderer.begin_stop
                 (RollingRenderer._currentRenderer (RollingRenderer.pool w1)) w1 in
     PoolShutdown.await e PoolShutdown.AtCurrent (PoolShutdown.current e) w2
       (fun w3 =>
          match RollingRenderer._futureRenderer (RollingRenderer.pool w3) with
          | Some f =>
              let w4 := RollingRenderer.begin_stop f w3 in
              PoolShutdown.await e PoolShutdown.AtFuture
                (PoolShutdown.future e) w4
                (fun w5 => (Some (Fulfilled tt), w5))
          | None => (Some (Fulfilled tt), w3)
          end)) = (Some (Fulfilled tt), w') ->
    PoolShutdown.all_stopping w').
  { intros w1 Hev1 Hrun. cbv zeta in Hrun.
    pose proof Hev1 as (Hs1 & Hc1 & Hf1 & _).
    apply await_fulfilled in Hrun as (w3 & Hev3 & Hrun);
      [|done|cbn; congruence].
    pose proof Hev3 as (Hs3 & Hc3 & Hf3 & _). cbn in Hs3, Hc3, Hf3.
    assert (H3 : forall r,
               RollingRenderer._futureRenderer (RollingRenderer.pool w0) <> Some r ->
               PoolShutdown.asked w3 r).
    { intros r Hf. eapply asked_evolves; [exact Hev3|].
      apply asked_begin_stop.
      destruct (decide
        (r = RollingRenderer._currentRenderer (RollingRenderer.pool w1)));
        [by left|right].
      eapply asked_evolves; [exact Hev1|]. apply H0; congruence. }
    destruct (RollingRenderer._futureRenderer (RollingRenderer.pool w3))
      as [f|] eqn:Hfut.
    - apply await_fulfilled in Hrun as (w5 & Hev5 & [= <-]);
        [|done|cbn; congruence].
      intros r. eapply asked_evolves; [exact Hev5|].
      apply asked_begin_stop.
      destruct (decide (r = f)); [by left|right].
      apply H3. congruence.
    - injection Hrun as <-. intros r. apply H3. congruence. }
  destruct (RollingRenderer._previousStopPromise (RollingRenderer.pool w0)).
  - intros Hrun.
    apply await_fulfilled in Hrun as (w1 & Hev1 & Hrun); [|done|done].
    by apply (Hrest w1).
  - apply Hrest. by repeat split.
Qed.

Lemma warm_up_evolves r w : PoolShutdown.evolves w (PoolShutdown.warm_up r w).
Proof.
  unfold PoolShutdown.evolves, PoolShutdown.warm_up; cbn.
  repeat split. intros r'.
  destruct (decide (r' = r)) as [->|Hne].
  - rewrite lookup_alter_eq. by destruct (RollingRenderer.heap w !! r).
  - by rewrite lookup_alter_ne.
Qed.

Lemma rolling_stop_stops_all_witness :
  PoolShutdown.all_stopping
    (snd (PoolShutdown.stop PoolShutdown.all_settle Rolling.promoted)).
Proof.
  apply (rolling_stop_stops_all PoolShutdown.all_settle Rolling.promoted).
  - exact (inv_reachable 2 _ promoted_reachable).
  - intros p w _. apply warm_up_evolves.
  - vm_compute. reflexivity.
Defined.

(** X17: a retired renderer whose [stop()] fails keeps the pool from
    shutting down. When the promise of a previous stop is still held and
    it rejects, or never settles, [stop()] of the pool ends there: the
    current renderer, and the replacement if there is one, are never asked
    to stop. *)
Theorem rolling_stop_gives_up e w p :
  Rolling.Inv w ->
  PoolShutdown.calm e ->
  RollingRenderer._previousStopPromise (RollingRenderer.pool w) = Some p ->
  PoolShutdown.previous e <> PoolShutdown.Settles (Fulfilled tt) ->
  fst (PoolShutdown.stop e w) =
    match PoolShutdown.previous e with
    | PoolShutdown.Settles s => Some s
    | PoolShutdown.Pending => None
    end /\
  forall r,
    r = RollingRenderer._currentRenderer (RollingRenderer.pool w) \/
    RollingRenderer._futureRenderer (RollingRenderer.pool w) = Some r ->
    exists o,
      RollingRenderer.heap (snd (PoolShutdown.stop e w)) !! r = Some o /\
      Renderer._stopping o = false.
Proof.
  intros [(oc & Hc & Hlive) Hfut _ _] Hcalm Hp Hprev.
  assert (Hkept : forall r,
    r = RollingRenderer._currentRenderer (RollingRenderer.pool w) \/
    RollingRenderer._futureRenderer (RollingRenderer.pool w) = Some r ->
    exists o, RollingRenderer.heap w !! r = Some o /\
              Renderer._stopping o = false).
  { intros r [->|Hf]; [by exists oc|]. by destruct (Hfut r Hf) as (_ & ?). }
  unfold PoolShutdown.stop. cbn. rewrite Hp.
  unfold PoolShutdown.await.
  match goal with
  | |- context [PoolShutdown.interfere e PoolShutdown.AtPrevious ?w0] =>
      pose proof (Hcalm PoolShutdown.AtPrevious w0 eq_refl)
        as (_ & _ & _ & Hflags)
  end.
  cbn in Hflags.
  assert (Hlater : forall r,
    r = RollingRenderer._currentRenderer (RollingRenderer.pool w) \/
    RollingRenderer._futureRenderer (RollingRenderer.pool w) = Some r ->
    exists o,
      RollingRenderer.heap
        (PoolShutdown.interfere e PoolShutdown.AtPrevious
           (RollingRenderer.set_pool
              {| RollingRenderer._stopping := true;
                 RollingRenderer._currentRenderer :=
                   RollingRenderer._currentRenderer (RollingRenderer.pool w);
                 RollingRenderer._futureRenderer :=
                   RollingRenderer._futureRenderer (RollingRenderer.pool w);
                 RollingRenderer._previousStopPromise := Some p |} w))
        !! r = Some o /\
      Renderer._stopping o = false).
  { intros r Hr. destruct (Hkept r Hr) as (o & Ho & Hl).
    specialize (Hflags r). rewrite Ho in Hflags. cbn in Hflags.
    match type of Hflags with
    | _ <$> ?x = _ => destruct x as [o'|]; [|discriminate]
    end.
    exists o'. split; [reflexivity|]. cbn in Hflags. congruence. }
  destruct (PoolShutdown.previous e) as [[[]|err]|]; [done| |]; cbn;
    (split; [reflexivity|exact Hlater]).
Qed.

Lemma rolling_stop_gives_up_witness :
  fst (PoolShutdown.stop PoolShutdown.previous_fails Rolling.promoted) =
    Some (RejectedWith (Error "Target closed")) /\
  forall r,
    r = RollingRenderer._currentRenderer
          (RollingRenderer.pool Rolling.promoted) \/
    RollingRenderer._futureRenderer
      (RollingRenderer.pool Rolling.promoted) = Some r ->
    exists o,
      RollingRenderer.heap
        (snd (PoolShutdown.stop PoolShutdown.previous_fails
                Rolling.promoted)) !! r = Some o /\
      Renderer._stopping o = false.
Proof.
  apply (rolling_stop_gives_up PoolShutdown.previous_fails Rolling.promoted
           0%nat).
  - exact (inv_reachable 2 _ promoted_reachable).
  - intros pt w _. by repeat split.
  - reflexivity.
  - discriminate.
Defined.

(** ** Shutting down on a signal *)

Lemma gracefulClose_latches e s :
  GracefulClose.gracefullyClosing (snd (GracefulClose.gracefulClose e s)) = true.
Proof.
  unfold GracefulClose.gracefulClose, GracefulClose.close.
  destruct (GracefulClose.gracefullyClosing s) eqn:Hs; [exact Hs|].
  destruct (GracefulClose.apiStopped e); cbn; [|reflexivity].
  destruct (GracefulClose.managerStop e) as [[[]|?]|]; cbn; try reflexivity.
  destruct (GracefulClose.drain e) as [[[]|?]|]; reflexivity.
Qed.

Lemma signals_swallowed es s :
  GracefulClose.gracefullyClosing s = true ->
  GracefulClose.signals es s =
    (repeat GracefulClose.Returned (length es), s).
Proof.
  intros Hs. induction es as [|e es IH]; [reflexivity|].
  cbn [GracefulClose.signals]. unfold GracefulClose.gracefulClose at 1.
  rewrite Hs, IH. reflexivity.
Qed.

(** X18: only the first signal counts. Whatever the first call of
    [gracefulClose] comes to, and whenever the later ones arrive, every
    later call returns at once and does nothing: the server and the
    manager are stopped at most once, and when the first call hangs or
    rejects (the manager's [stop()] or [drain()] failed) no later signal
    makes the process exit. *)
Theorem only_first_signal_counts e es :
  GracefulClose.signals (e :: es) GracefulClose.init =
    (fst (GracefulClose.gracefulClose e GracefulClose.init)
       :: repeat GracefulClose.Returned (length es),
     snd (GracefulClose.gracefulClose e GracefulClose.init)).
Proof.
  cbn [GracefulClose.signals].
  pose proof (gracefulClose_latches e GracefulClose.init) as Hl.
  destruct (GracefulClose.gracefulClose e GracefulClose.init) as [r s].
  cbn in Hl |- *. by rewrite (signals_swallowed es s Hl).
Qed.

(** X19: the process exits through [gracefulClose] exactly when, on the
    first signal, the server called back and both the manager's [stop()]
    and [drain()] fulfilled; no later signal can make up for a first
    shutdown that failed. *)
Theorem exit_needs_clean_first_shutdown e es :
  In GracefulClose.EvExit
     (GracefulClose.trace
        (snd (GracefulClose.signals (e :: es) GracefulClose.init))) <->
  GracefulClose.apiStopped e = true /\
  GracefulClose.managerStop e = GracefulClose.Settles (Fulfilled tt) /\
  GracefulClose.drain e = GracefulClose.Settles (Fulfilled tt).
Proof.
  cbn [GracefulClose.signals].
  pose proof (gracefulClose_latches e GracefulClose.init) as Hl.
  destruct (GracefulClose.gracefulClose e GracefulClose.init) as [r s] eqn:Hrun.
  cbn in Hl. rewrite (signals_swallowed es s Hl). cbn [snd].
  revert Hrun.
  unfold GracefulClose.gracefulClose, GracefulClose.close. cbn.
  destruct (GracefulClose.apiStopped e); cbn.
  2: { intros [= <- <-]. cbn. split; [|by intros [? _]].
       intros H.
       repeat match goal with
              | H : _ \/ _ |- _ => destruct H as [H|H]; try discriminate H
              | H : False |- _ => destruct H
              end. }
  destruct (GracefulClose.managerStop e) as [[[]|?]|]; cbn.
  2,3: intros [= <- <-]; cbn; (split; [|by intros (_ & ? & _)]);
       intros H;
       repeat match goal with
              | H : _ \/ _ |- _ => destruct H as [H|H]; try discriminate H
              | H : False |- _ => destruct H
              end.
  destruct (GracefulClose.drain e) as [[[]|?]|]; cbn;
    intros [= <- <-]; cbn.
  - split; [done|]. intros _. do 6 right. by left.
  - split; [|by intros (_ & _ & ?)].
    intros H.
    repeat match goal with
           | H : _ \/ _ |- _ => destruct H as [H|H]; try discriminate H
           | H : False |- _ => destruct H
           end.
  - split; [|by intros (_ & _ & ?)].
    intros H.
    repeat match goal with
           | H : _ \/ _ |- _ => destruct H as [H|H]; try discriminate H
           | H : False |- _ => destruct H
           end.
Qed.

(** ** The page buffer *)

Lemma fill_spec n b c :
  PageBuffer.fill n {| PageBuffer._pageBuffer := b; PageBuffer.created := c |} =
  {| PageBuffer._pageBuffer := (b ++ seq c n)%list;
     PageBuffer.created := (c + n)%nat |}.
Proof.
  revert b c. induction n as [|n IH]; intros b c; cbn.
  - by rewrite app_nil_r, Nat.add_0_r.
  - rewrite IH. rewrite <- app_assoc. cbn. f_equal. lia.
Qed.

Lemma calls_spec n k size :
  PageBuffer.calls n {| PageBuffer._pageBuffer := seq k size;
                        PageBuffer.created := (k + size)%nat |} =
  (Some <$> seq k n,
   {| PageBuffer._pageBuffer := seq (k + n) size;
      PageBuffer.created := (k + n + size)%nat |}).
Proof.
  revert k. induction n as [|n IH]; intros k.
  - cbn. by rewrite Nat.add_0_r.
  - cbn [PageBuffer.calls]. unfold PageBuffer._newPage, PageBuffer._createNewPage.
    cbn [PageBuffer._pageBuffer PageBuffer.created].
    replace (seq k size ++ [(k + size)%nat])%list with (seq k (S size))
      by (rewrite seq_S; reflexivity).
    cbn [seq].
    replace (S (k + size)) with (S k + size)%nat by lia.
    rewrite IH. cbn. repeat f_equal; lia.
Qed.

(** X20: the page buffer is a queue that stays full. After the
    constructor, the [n]-th call of [_newPage] hands out the page made by
    the [n]-th call of [_createNewPage], and leaves in the buffer the
    [PAGE_BUFFER_SIZE] pages made next: a task never gets the page whose
    creation it started itself, and [shift()] never answers [undefined]. *)
Theorem page_buffer_fifo n :
  PageBuffer.calls n PageBuffer.new =
    (Some <$> seq 0 n,
     {| PageBuffer._pageBuffer := seq n PageBuffer.PAGE_BUFFER_SIZE;
        PageBuffer.created := (n + PageBuffer.PAGE_BUFFER_SIZE)%nat |}).
Proof.
  unfold PageBuffer.new. rewrite fill_spec. cbn [app Nat.add].
  apply (calls_spec n 0 PageBuffer.PAGE_BUFFER_SIZE).
Qed.

(** ** The health route *)

Lemma requests_latched es :
  HealthRoute.requests es true =
    ((fun e => HealthSpec.renderer_answer (HealthRoute.renderer_ready e)
                 (HealthRoute.renderer_healthy e)) <$> es, true).
Proof.
  induction es as [|e es IH]; [reflexivity|].
  cbn [HealthRoute.requests]. unfold HealthRoute.healthy at 1. cbn.
  unfold HealthSpec.renderer_answer.
  destruct (HealthRoute.renderer_ready e) as [[]|?]; cbn;
    [destruct (HealthRoute.renderer_healthy e) as [[]|?]; cbn| |];
    rewrite IH; reflexivity.
Qed.

(** X21: the health route answers 200 to every request until the system
    has been ready once, whatever the renderer says; from the first
    request that finds it ready on, [isReady] plays no part any more and
    the answer is the renderer's alone: 200 when [renderer.ready] and
    [renderer.healthy()] are both true, 503 when one is false, and the
    error when one throws. *)
Theorem health_latch before e after :
  Forall (fun e => HealthRoute.isReady e = false) before ->
  HealthRoute.isReady e = true ->
  HealthRoute.requests (before ++ e :: after)%list false =
    ((repeat (HealthRoute.Status 200) (length before) ++
      ((fun e => HealthSpec.renderer_answer (HealthRoute.renderer_ready e)
                   (HealthRoute.renderer_healthy e)) <$> (e :: after)))%list,
     true).
Proof.
  intros Hb He. induction Hb as [|e0 before He0 _ IH].
  - cbn [app repeat length HealthRoute.requests].
    unfold HealthRoute.healthy at 1. cbn. rewrite He. cbn.
    unfold HealthSpec.renderer_answer.
    destruct (HealthRoute.renderer_ready e) as [[]|?]; cbn;
      [destruct (HealthRoute.renderer_healthy e) as [[]|?]; cbn| |];
      rewrite requests_latched; reflexivity.
  - cbn [app repeat length HealthRoute.requests].
    unfold HealthRoute.healthy at 1. cbn. rewrite He0. cbn.
    rewrite IH. reflexivity.
Qed.

(** Two probes before the system is ready, a third that finds it ready
    with a renderer that is not, and a fourth after [isReady] went back
    to false. *)
Lemma health_latch_witness :
  let starting :=
    {| HealthRoute.isReady := false;
       HealthRoute.renderer_ready := Fulfilled false;
       HealthRoute.renderer_healthy := Fulfilled false |} in
  let ready_unwell :=
    {| HealthRoute.isReady := true;
       HealthRoute.renderer_ready := Fulfilled true;
       HealthRoute.renderer_healthy := Fulfilled false |} in
  HealthRoute.requests [starting; starting; ready_unwell; starting] false =
    ([HealthRoute.Status 200; HealthRoute.Status 200;
      HealthRoute.Status 503; HealthRoute.Status 503], true).
Proof.
  apply (health_latch
           [ {| HealthRoute.isReady := false;
                HealthRoute.renderer_ready := Fulfilled false;
                HealthRoute.renderer_healthy := Fulfilled false |};
             {| HealthRoute.isReady := false;
                HealthRoute.renderer_ready := Fulfilled false;
                HealthRoute.renderer_healthy := Fulfilled false |} ]
           {| HealthRoute.isReady := true;
              HealthRoute.renderer_ready := Fulfilled true;
              HealthRoute.renderer_healthy := Fulfilled false |}
           [ {| HealthRoute.isReady := false;
                HealthRoute.renderer_ready := Fulfilled false;
                HealthRoute.renderer_healthy := Fulfilled false |} ]).
  - repeat constructor.
  - reflexivity.
Defined.

(** ** Rewriting the host *)

Lemma hosts_chars :
  String Hosts.dot (String Hosts.colon "") = ".:" /\
  Ascii.nat_of_ascii Hosts.LF = 10%nat /\
  Ascii.nat_of_ascii Hosts.CR = 13%nat.
Proof. repeat split. Qed.

Lemma strip_plain s h rest :
  Hosts.plain s = true ->
  Hosts.strip (Hosts.atoms s) h = Some rest -> h = s +:+ rest.
Proof.
  revert h. induction s as [|c s IH]; intros h Hp; cbn.
  - by intros [= <-].
  - cbn in Hp. apply andb_prop in Hp as [Hc Hp].
    apply negb_true_iff in Hc. rewrite Hc.
    destruct h as [|c' h]; [discriminate|]. cbn.
    destruct (Ascii.eqb_spec c c') as [<-|]; [|discriminate].
    intros Hs. by rewrite (IH h Hp Hs).
Qed.

Lemma revert_keeps h :
  Hosts.docker_like h = false ->
  Hosts.replace Hosts.DOCKER_LOCALHOST "localhost" h = h.
Proof.
  unfold Hosts.docker_like, Hosts.replace.
  destruct (Hosts.strip _ h) as [[|c rest]|]; [discriminate| |done].
  by intros ->.
Qed.

(** X22: with [USE_DOCKER_LOCALHOST] set or not, [revertUrl] undoes
    [buildUrl] on every URL whose host is not itself the docker alias
    (or what the regular expression of [revertUrl] takes for it). *)
Theorem revert_build USE url :
  Hosts.docker_like (Hosts.host url) = false ->
  Hosts.revertUrl USE (Hosts.buildUrl USE url) = url.
Proof.
  intros Hd. unfold Hosts.revertUrl, Hosts.buildUrl.
  destruct (negb (String.eqb USE "true")); [reflexivity|].
  destruct url as [p h path]. unfold Hosts.replaceHost. cbn in *.
  f_equal.
  unfold Hosts.replace at 2.
  destruct (Hosts.strip (Hosts.atoms "localhost") h) as [[|c rest]|] eqn:Hs.
  - apply strip_plain in Hs; [|reflexivity]. subst h. reflexivity.
  - destruct (Ascii.eqb_spec c Hosts.colon) as [->|Hne].
    + apply strip_plain in Hs; [|reflexivity]. subst h. reflexivity.
    + by apply revert_keeps.
  - by apply revert_keeps.
Qed.

Lemma revert_build_witness :
  Hosts.revertUrl "true"
    (Hosts.buildUrl "true"
       {| Hosts.protocol := "http:"; Hosts.host := "localhost:3000";
          Hosts.pathname := "/" |}) =
  {| Hosts.protocol := "http:"; Hosts.host := "localhost:3000";
     Hosts.pathname := "/" |}.
Proof.
  exact (revert_build "true"
           {| Hosts.protocol := "http:"; Hosts.host := "localhost:3000";
              Hosts.pathname := "/" |} eq_refl).
Defined.

(** X23: [buildUrl] rewrites the host [localhost], with or without a
    port, to the docker alias with the same port, and rewrites nothing
    else: a URL whose host merely starts with, or contains, [localhost]
    comes back as it was. *)
Theorem build_only_localhost url :
  (forall rest,
     Hosts.host url = "localhost" +:+ rest ->
     rest = "" \/ (exists port, rest = ":" +:+ port) ->
     Hosts.buildUrl "true" url =
       {| Hosts.protocol := Hosts.protocol url;
          Hosts.host := Hosts.DOCKER_LOCALHOST +:+ rest;
          Hosts.pathname := Hosts.pathname url |}) /\
  ((forall rest,
      Hosts.host url = "localhost" +:+ rest ->
      rest <> "" /\ forall port, rest <> ":" +:+ port) ->
   Hosts.buildUrl "true" url = url).
Proof.
  destruct url as [p h path]. unfold Hosts.buildUrl, Hosts.replaceHost. cbn.
  split.
  - intros rest -> Hrest. f_equal.
    unfold Hosts.replace.
    destruct Hrest as [->|(port & ->)];
      cbv beta iota delta [String.append]; reflexivity.
  - intros Hother. f_equal. unfold Hosts.replace.
    destruct (Hosts.strip (Hosts.atoms "localhost") h) as [[|c rest]|] eqn:Hs.
    + apply strip_plain in Hs; [|reflexivity].
      by destruct (Hother "" Hs) as [? _].
    + destruct (Ascii.eqb_spec c Hosts.colon) as [->|Hne]; [|reflexivity].
      apply strip_plain in Hs; [|reflexivity].
      destruct (Hother _ Hs) as [_ Hport]. by destruct (Hport rest).
    + reflexivity.
Qed.

(** A local server with a port is sent to the docker alias; a host that
    only starts with [localhost] is not. *)
Lemma build_only_localhost_witness :
  Hosts.buildUrl "true"
    {| Hosts.protocol := "http:"; Hosts.host := "localhost:3000";
       Hosts.pathname := "/" |} =
    {| Hosts.protocol := "http:"; Hosts.host := "host.docker.internal:3000";
       Hosts.pathname := "/" |}.
Proof.
  apply (proj1 (build_only_localhost
                  {| Hosts.protocol := "http:"; Hosts.host := "localhost:3000";
                     Hosts.pathname := "/" |}) ":3000").
  - reflexivity.
  - right. by exists "3000".
Defined.

(** X24: the dots of the docker alias are wildcards to [revertUrl]. A
    host that differs from [host.docker.internal] in the two places of
    the dots, [host-docker-internal] say, is rewritten to [localhost] as
    the alias is, port kept. *)
Theorem revert_takes_lookalikes c1 c2 rest p path :
  Hosts.ordinary c1 = true ->
  Hosts.ordinary c2 = true ->
  rest = "" \/ (exists port, rest = ":" +:+ port) ->
  Hosts.revertUrl "true"
    {| Hosts.protocol := p;
       Hosts.host :=
         "host" +:+ String c1 ("docker" +:+ String c2 ("internal" +:+ rest));
       Hosts.pathname := path |} =
  {| Hosts.protocol := p;
     Hosts.host := "localhost" +:+ rest;
     Hosts.pathname := path |}.
Proof.
  intros H1 H2 Hrest.
  unfold Hosts.revertUrl, Hosts.replaceHost, Hosts.replace.
  cbv beta iota delta [String.append]. cbn.
  unfold Hosts.ordinary in H1, H2. rewrite H1, H2. cbn.
  destruct Hrest as [->|(port & ->)]; reflexivity.
Qed.

Lemma revert_takes_lookalikes_witness :
  Hosts.revertUrl "true"
    {| Hosts.protocol := "http:";
       Hosts.host := "host-docker-internal:3000";
       Hosts.pathname := "/" |} =
  {| Hosts.protocol := "http:";
     Hosts.host := "localhost:3000";
     Hosts.pathname := "/" |}.
Proof.
  apply (revert_takes_lookalikes
           (Ascii.Ascii true false true true false true false false)
           (Ascii.Ascii true false true true false true false false)
           ":3000" "http:" "/").
  - reflexivity.
  - reflexivity.
  - right. by exists "3000".
Defined.

(** ** The metrics of a page task *)

(** X25: the metrics of a page task add up. When the clock does not go
    back and [process] sets the total, the times of the navigation, of
    the minimum wait and of the serialization are all set, none is
    negative, and together they do not exceed the total. *)
Theorem metrics_add_up p e t :
  Timing.monotone e ->
  PageTask.m_total (PageTask._metrics (PageTask.task (snd (PageTask.run p e))))
    = Some t ->
  exists g w z,
    PageTask._metrics (PageTask.task (snd (PageTask.run p e))) =
      {| PageTask.m_goto := Some g; PageTask.m_minWait := Some w;
         PageTask.m_serialize := Some z; PageTask.m_total := Some t |} /\
    0 <= g /\ 0 <= w /\ 0 <= z /\ g + w + z <= t.
Proof.
  destruct e as [t0 t1 g t2 ib t3 t4 w t5 t6 d pre html post t7 t8 c t9].
  unfold Timing.monotone. cbn.
  intros (H1 & H2 & H3 & H4 & H5 & H6 & H7 & H8 & H9).
  run_async. cbn [PageTask.goto PageTask.injectBaseHref PageTask.waitForTimeout
                  PageTask.debugger PageTask.preSerializationUrl
                  PageTask.outerHTML PageTask.postSerializationUrl
                  PageTask.contextClose].
  destruct g as [resp|err]; [|discriminate].
  destruct ib as [[]|?]; [|discriminate].
  destruct (_ && _); [destruct w as [[]|?]; [|discriminate]|];
    (destruct d as [[]|?]; [|discriminate]);
    (destruct pre as [u1|?]; [|discriminate]);
    (destruct html as [b|?]; [|discriminate]);
    (destruct post as [u2|?]; [|discriminate]);
    (destruct c as [[]|?]; [|discriminate]);
    (destruct (negb (u1 =? u2)%string); cbn; [discriminate|]);
    intros [= <-]; do 3 eexists; (split; [reflexivity|]); lia.
Qed.

Lemma metrics_add_up_witness :
  exists g w z,
    PageTask._metrics
      (PageTask.task (snd (PageTask.run Timing.a_render MinWait.ok_page))) =
      {| PageTask.m_goto := Some g; PageTask.m_minWait := Some w;
         PageTask.m_serialize := Some z; PageTask.m_total := Some 1011 |} /\
    0 <= g /\ 0 <= w /\ 0 <= z /\ g + w + z <= 1011.
Proof.
  apply (metrics_add_up Timing.a_render MinWait.ok_page 1011).
  - unfold Timing.monotone. cbn. lia.
  - reflexivity.
Defined.

(** X26: [process] sets the total time on a success and on nothing else.
    When [process] fulfils, the task has results, and the total is set
    exactly when they carry no error: neither a failed navigation nor an
    unsafe redirect gets one. *)
Theorem total_only_on_success p e s :
  PageTask.run p e = (Fulfilled tt, s) ->
  exists r,
    PageTask._results (PageTask.task s) = Some r /\
    (is_some (PageTask.m_total (PageTask._metrics (PageTask.task s))) =
     negb (is_some (PageTask.error r))).
Proof.
  destruct e as [t0 t1 g t2 ib t3 t4 w t5 t6 d pre html post t7 t8 c t9].
  run_async. cbn [PageTask.goto PageTask.injectBaseHref PageTask.waitForTimeout
                  PageTask.debugger PageTask.preSerializationUrl
                  PageTask.outerHTML PageTask.postSerializationUrl
                  PageTask.contextClose].
  destruct g as [resp|err]; [|intros [= <-]; eexists; split; reflexivity].
  destruct ib as [[]|?]; [|discriminate].
  destruct (_ && _); [destruct w as [[]|?]; [|discriminate]|];
    (destruct d as [[]|?]; [|discriminate]);
    (destruct pre as [u1|?]; [|discriminate]);
    (destruct html as [b|?]; [|discriminate]);
    (destruct post as [u2|?]; [|discriminate]);
    (destruct c as [[]|?]; [|discriminate]);
    (destruct (negb (u1 =? u2)%string); intros [= <-];
     eexists; split; reflexivity).
Qed.

Lemma total_only_on_success_witness :
  exists r,
    PageTask._results
      (PageTask.task (snd (PageTask.run Timing.a_render MinWait.ok_page)))
      = Some r /\
    (is_some (PageTask.m_total
                (PageTask._metrics
                   (PageTask.task
                      (snd (PageTask.run Timing.a_render MinWait.ok_page))))) =
     negb (is_some (PageTask.error r))).
Proof.
  exact (total_only_on_success Timing.a_render MinWait.ok_page _ eq_refl).
Defined.

(** ** Retired renderers *)

(** X27: a retired renderer takes no more tasks. In every state a
    serving pool can reach, a caller that still holds a renderer that is
    neither the current one nor the replacement gets its task rejected
    with [Called task on a stopping Renderer]; the renderer does not
    count the task and no page is touched. *)
Theorem retired_renderer_rejects MAX w r o job uuid e :
  RollingRenderer.reachable MAX w ->
  RollingRenderer.heap w !! r = Some o ->
  r <> RollingRenderer._currentRenderer (RollingRenderer.pool w) ->
  RollingRenderer._futureRenderer (RollingRenderer.pool w) <> Some r ->
  Renderer.task job uuid e o =
    (RejectedWith (Error "Called task on a stopping Renderer"), o, []).
Proof.
  intros Hreach Hr Hc Hf.
  apply inv_reachable in Hreach.
  pose proof (Rolling.inv_others _ Hreach r o Hr Hc Hf) as Hs.
  unfold Renderer.task. by rewrite Hs.
Qed.

Lemma retired_renderer_rejects_witness :
  Renderer.task ResultShape.a_job "task-9" ResultShape.slow_page
    (RollingRenderer.deref Rolling.promoted 0) =
    (RejectedWith (Error "Called task on a stopping Renderer"),
     RollingRenderer.deref Rolling.promoted 0, []).
Proof.
  apply (retired_renderer_rejects 2 Rolling.promoted 0%nat).
  - exact promoted_reachable.
  - vm_compute. reflexivity.
  - vm_compute. discriminate.
  - vm_compute. discriminate.
Defined.

Lemma stuck_step MAX w l w' :
  Frozen.stuck w -> RollingRenderer.step MAX w l w' ->
  RollingRenderer._currentRenderer (RollingRenderer.pool w') =
    RollingRenderer._currentRenderer (RollingRenderer.pool w) /\
  Frozen.stuck w'.
Proof.
  intros [[p Hp] Hs] Hstep.
  assert (Hrouting :
    RollingRenderer._currentRenderer
      (RollingRenderer.pool (snd (RollingRenderer.renderer MAX w))) =
      RollingRenderer._currentRenderer (RollingRenderer.pool w) /\
    Frozen.stuck (snd (RollingRenderer.renderer MAX w))).
  { unfold RollingRenderer.renderer, Frozen.stuck.
    destruct (RollingRenderer._stopping _); [by eauto|].
    destruct (_ <? MAX); [by eauto|].
    destruct w as [[st cur fut prev] h ss]; cbn in *. subst.
    destruct fut as [f|]; cbn; by eauto. }
  destruct Hstep.
  - exact Hrouting.
  - unfold RollingRenderer.task.
    destruct (RollingRenderer._stopping _); [by split; [|split; eauto]|].
    destruct (RollingRenderer.renderer MAX w) as [[r|err] w1]; cbn in *.
    + destruct (Renderer.task _ _ _ _) as [[res o'] tr]. exact Hrouting.
    + exact Hrouting.
  - by split; [|split; eauto].
  - by split; [|split; eauto].
  - rewrite Hs in H. by apply elem_of_nil in H.
  - rewrite Hs in H. by apply elem_of_nil in H.
  - by split; [|split; cbn; eauto].
Qed.

(** X28: a stop that fails freezes the pool. Once the stop of a retired
    renderer has rejected while its promise is still held, nothing the
    pool can go through resets [_previousStopPromise]: the current
    renderer is never replaced again, however many tasks it has
    served. *)
Theorem failed_stop_freezes_pool MAX w w' :
  Frozen.stuck w ->
  Frozen.run_from MAX w w' ->
  RollingRenderer._currentRenderer (RollingRenderer.pool w') =
    RollingRenderer._currentRenderer (RollingRenderer.pool w) /\
  Frozen.stuck w'.
Proof.
  intros Hstuck Hrun. induction Hrun as [|w1 l w2 _ [IHc IHs] Hstep].
  - by split.
  - destruct (stuck_step MAX w1 l w2 IHs Hstep) as [Hc Hs].
    split; [congruence|exact Hs].
Qed.

Lemma stop_failed_reachable : RollingRenderer.reachable 2 Frozen.stop_failed.
Proof.
  eapply RollingRenderer.reachable_step.
  - eapply RollingRenderer.reachable_step; [exact promoted_reachable|].
    apply (RollingRenderer.step_ready 2 Rolling.promoted 0%nat
             (RollingRenderer.deref Rolling.promoted 0)).
    vm_compute. reflexivity.
  - apply (RollingRenderer.step_stop_rejected 2 Frozen.retired_ready 0%nat
             (Renderer.set_ready true
                (RollingRenderer.deref Rolling.promoted 0))).
    + vm_compute. apply list_elem_of_here.
    + vm_compute. reflexivity.
    + reflexivity.
Qed.

(** The frozen pool routes two more tasks. *)
Lemma failed_stop_freezes_pool_witness :
  let w' :=
    snd (fst (RollingRenderer.task 2 ResultShape.a_job "task-4"
                ResultShape.slow_page
                (snd (fst (RollingRenderer.task 2 ResultShape.a_job "task-3"
                             ResultShape.slow_page Frozen.stop_failed))))) in
  RollingRenderer._currentRenderer (RollingRenderer.pool w') =
    RollingRenderer._currentRenderer (RollingRenderer.pool Frozen.stop_failed) /\
  Frozen.stuck w'.
Proof.
  apply (failed_stop_freezes_pool 2 Frozen.stop_failed).
  - split; [by eexists|reflexivity].
  - eapply Frozen.run_step; [|apply RollingRenderer.step_task].
    eapply Frozen.run_step; [|apply RollingRenderer.step_task].
    apply Frozen.run_here.
Defined.
